(** Verification of the MtGox streaming client ([gox.go], [messages.go],
    [trade_handler.go]): the decoding of pushed messages, their dispatch, and
    the signing of authenticated calls.

    The first part models what the client uses of the Go library ([strconv],
    [encoding/json], [time], [encoding/hex], [encoding/base64],
    [crypto/sha512], [crypto/hmac]); the second part is the client itself; the
    third part holds the properties. Byte strings that are text are [string]s,
    binary data is a list of bytes, and integers are [Z] with the bounds
    written out. *)

From Stdlib Require Import ZArith Strings.String Strings.Ascii Strings.Byte List Lia.
From Stdlib Require Import Floats.SpecFloat.
From stdpp Require Import base gmap strings list.

Set Warnings "-register-all".
Local Open Scope string_scope.
Local Open Scope list_scope.
Local Open Scope Z_scope.

(** * strconv: decimal integers *)
Module strconv.

Inductive Err := ErrSyntax | ErrRange.

Definition isDigit (c : ascii) : bool :=
  (48 <=? Z.of_N (N_of_ascii c)) && (Z.of_N (N_of_ascii c) <=? 57).

Definition digitVal (c : ascii) : Z := Z.of_N (N_of_ascii c) - 48.

Definition digitChar (d : Z) : ascii := ascii_of_N (Z.to_N (d + 48)).

Definition maxUint64 : Z := 2 ^ 64 - 1.

(** The digit loop of [ParseUint(s, 10, 64)]: a byte that is no decimal digit
    is a syntax error; a value that no longer fits 64 bits is a range error
    and yields the largest value. *)
Fixpoint parseUintLoop (n : Z) (s : list ascii) : Z * option Err :=
  match s with
  | [] => (n, None)
  | c :: s' =>
      if negb (isDigit c) then (0, Some ErrSyntax)
      else if maxUint64 / 10 + 1 <=? n then (maxUint64, Some ErrRange)
      else
        let n1 := n * 10 + digitVal c in
        if maxUint64 <? n1 then (maxUint64, Some ErrRange)
        else parseUintLoop n1 s'
  end.

Definition ParseUint (s : list ascii) : Z * option Err :=
  match s with
  | [] => (0, Some ErrSyntax)
  | _ => parseUintLoop 0 s
  end.

(** [ParseInt(s, 10, 64)]. *)
Definition ParseIntList (s0 : list ascii) : Z * option Err :=
  match s0 with
  | [] => (0, Some ErrSyntax)
  | c :: rest =>
      let '(neg, s) :=
        if Ascii.eqb c "+" then (false, rest)
        else if Ascii.eqb c "-" then (true, rest)
        else (false, s0) in
      match ParseUint s with
      | (_, Some ErrSyntax) => (0, Some ErrSyntax)
      | (un, _) =>
          let cutoff := 2 ^ 63 in
          if negb neg && (cutoff <=? un) then (cutoff - 1, Some ErrRange)
          else if neg && (cutoff <? un) then (- cutoff, Some ErrRange)
          else (if neg then - un else un, None)
      end
  end.

Definition ParseInt (s : string) : Z * option Err :=
  ParseIntList (list_ascii_of_string s).

(** [formatBits] for base 10: digits are produced from the least significant
    one; twenty digits are enough for 64 bits. *)
Fixpoint formatLoop (fuel : nat) (u : Z) (acc : list ascii) : list ascii :=
  match fuel with
  | O => acc
  | S fuel' =>
      let acc' := digitChar (u mod 10) :: acc in
      if u <? 10 then acc' else formatLoop fuel' (u / 10) acc'
  end.

Definition FormatIntList (i : Z) : list ascii :=
  if i <? 0 then "-"%char :: formatLoop 20 (- i) [] else formatLoop 20 i [].

Definition FormatInt (i : Z) : string := string_of_list_ascii (FormatIntList i).

(** A decimal rendering is canonical when it is what [FormatInt] prints:
    an optional minus sign, then digits without a leading zero (or the single
    digit zero, which takes no sign). *)
Definition canonicalDigits (s : list ascii) : bool :=
  match s with
  | [] => false
  | [c] => isDigit c
  | c :: _ => isDigit c && negb (Ascii.eqb c "0") && forallb isDigit s
  end.

Definition canonicalList (s : list ascii) : bool :=
  match s with
  | c :: rest =>
      if Ascii.eqb c "-"
      then canonicalDigits rest
           && negb match rest with [z] => Ascii.eqb z "0" | _ => false end
      else canonicalDigits s
  | [] => false
  end.
Definition canonical (s : string) : bool := canonicalList (list_ascii_of_string s).

End strconv.

(** * float64 values and their decimal literals *)
Module float64.

Definition t := spec_float.
Definition prec : Z := 53.
Definition emax : Z := 1024.

Fixpoint spanDigits (s : list ascii) : list ascii * list ascii :=
  match s with
  | c :: r =>
      if strconv.isDigit c
      then let '(ds, rest) := spanDigits r in (c :: ds, rest)
      else ([], s)
  | [] => ([], [])
  end.

Definition digitsVal (ds : list ascii) : Z :=
  fold_left (fun a c => a * 10 + strconv.digitVal c) ds 0.

(** The exact value [m * 10 ^ e10], rounded to the nearest float64, ties to
    even. *)
Definition ofDecimal (neg : bool) (m e10 : Z) : t :=
  match m with
  | Zpos p =>
      if 0 <=? e10
      then binary_normalize prec emax
             (if neg then - (m * 10 ^ e10) else m * 10 ^ e10) 0 false
      else SFdiv prec emax (S754_finite neg p 0)
             (S754_finite false (Z.to_pos (10 ^ (- e10))) 0)
  | _ => S754_zero neg
  end.

(** [strconv.ParseFloat(s, 64)] on a literal of the JSON number grammar (sign,
    digits, fraction, exponent): the nearest float64, and a range error when
    the literal lies beyond the largest finite value. *)
Definition ParseFloat (lit : string) : t * option strconv.Err :=
  let s := list_ascii_of_string lit in
  let '(neg, s) :=
    match s with
    | c :: r => if Ascii.eqb c "-" then (true, r) else (false, s)
    | [] => (false, s)
    end in
  let '(ip, s) := spanDigits s in
  let '(fp, s) :=
    match s with
    | c :: r => if Ascii.eqb c "." then spanDigits r else ([], s)
    | [] => ([], s)
    end in
  let ex :=
    match s with
    | c :: r =>
        if Ascii.eqb c "e" || Ascii.eqb c "E" then
          match r with
          | sg :: r' =>
              if Ascii.eqb sg "-" then - digitsVal (fst (spanDigits r'))
              else if Ascii.eqb sg "+" then digitsVal (fst (spanDigits r'))
              else digitsVal (fst (spanDigits r))
          | [] => 0
          end
        else 0
    | [] => 0
    end in
  let f := ofDecimal neg (digitsVal (ip ++ fp)) (ex - Z.of_nat (length fp)) in
  match f with
  | S754_infinity _ => (f, Some strconv.ErrRange)
  | _ => (f, None)
  end.

(** The conversion [int64(f)]: the fraction is discarded. The language leaves
    the result open when the value does not fit; the amd64 instruction yields
    the smallest int64 there, and for infinities and NaN. *)
Definition toInt64 (f : t) : Z :=
  match f with
  | S754_zero _ => 0
  | S754_finite s m e =>
      let a := if 0 <=? e then Z.pos m * 2 ^ e else Z.pos m / 2 ^ (- e) in
      let v := if s then - a else a in
      if (- 2 ^ 63 <=? v) && (v <? 2 ^ 63) then v else - 2 ^ 63
  | _ => - 2 ^ 63
  end.

End float64.

(** * UTF-8 *)
Module utf8.

Definition byteZ (c : ascii) : Z := Z.of_N (N_of_ascii c).
Definition chr (z : Z) : ascii := ascii_of_N (Z.to_N z).

Definition inRange (lo hi : Z) (c : ascii) : bool :=
  (lo <=? byteZ c) && (byteZ c <=? hi).

(** The width of the well-formed encoding at the head of [s], and 0 when the
    bytes there encode no scalar value. *)
Definition runeLen (s : list ascii) : nat :=
  match s with
  | [] => 0%nat
  | c0 :: r =>
      let b := byteZ c0 in
      if b <? 128 then 1%nat
      else if (194 <=? b) && (b <=? 223) then
        match r with
        | c1 :: _ => if inRange 128 191 c1 then 2%nat else 0%nat
        | _ => 0%nat
        end
      else if (224 <=? b) && (b <=? 239) then
        let lo := if b =? 224 then 160 else 128 in
        let hi := if b =? 237 then 159 else 191 in
        match r with
        | c1 :: c2 :: _ =>
            if inRange lo hi c1 && inRange 128 191 c2 then 3%nat else 0%nat
        | _ => 0%nat
        end
      else if (240 <=? b) && (b <=? 244) then
        let lo := if b =? 240 then 144 else 128 in
        let hi := if b =? 244 then 143 else 191 in
        match r with
        | c1 :: c2 :: c3 :: _ =>
            if inRange lo hi c1 && inRange 128 191 c2 && inRange 128 191 c3
            then 4%nat else 0%nat
        | _ => 0%nat
        end
      else 0%nat
  end.

(** U+FFFD, written for every ill-formed byte or rune. *)
Definition replacement : list ascii := [chr 239; chr 191; chr 189].

Definition EncodeRune (r : Z) : list ascii :=
  if r <? 0 then replacement
  else if r <? 128 then [chr r]
  else if r <? 2048 then [chr (192 + r / 64); chr (128 + r mod 64)]
  else if (55296 <=? r) && (r <=? 57343) then replacement
  else if r <? 65536 then
    [chr (224 + r / 4096); chr (128 + (r / 64) mod 64); chr (128 + r mod 64)]
  else if r <=? 1114111 then
    [chr (240 + r / 262144); chr (128 + (r / 4096) mod 64);
     chr (128 + (r / 64) mod 64); chr (128 + r mod 64)]
  else replacement.

End utf8.

(** * encoding/json: the text of a JSON value *)
Module json.

Inductive jvalue : Type :=
| JNull
| JBool (b : bool)
| JNumber (lit : string)
| JString (s : string)
| JArray (elems : list jvalue)
| JObject (members : list (string * jvalue)).

Definition isSpace (c : ascii) : bool :=
  Ascii.eqb c " " || Ascii.eqb c "009" || Ascii.eqb c "010" || Ascii.eqb c "013".

Fixpoint skipSpace (s : list ascii) : list ascii :=
  match s with
  | c :: r => if isSpace c then skipSpace r else s
  | [] => []
  end.

(** ** Strings *)

(** What a string literal is made of: a byte taken as it stands, the byte of
    a two-character escape, or the code unit of a [\u] escape. *)
Inductive unit16 := URaw (c : ascii) | UChr (c : ascii) | U16 (n : Z).

Definition hexVal (c : ascii) : option Z :=
  let b := utf8.byteZ c in
  if (48 <=? b) && (b <=? 57) then Some (b - 48)
  else if (97 <=? b) && (b <=? 102) then Some (b - 87)
  else if (65 <=? b) && (b <=? 70) then Some (b - 55)
  else None.

Definition hex4 (a b c d : ascii) : option Z :=
  match hexVal a, hexVal b, hexVal c, hexVal d with
  | Some x, Some y, Some z, Some w => Some (((x * 16 + y) * 16 + z) * 16 + w)
  | _, _, _, _ => None
  end.

Definition simpleEscape (e : ascii) : option ascii :=
  if Ascii.eqb e "034" then Some "034"%char
  else if Ascii.eqb e "\" then Some "\"%char
  else if Ascii.eqb e "/" then Some "/"%char
  else if Ascii.eqb e "b" then Some "008"%char
  else if Ascii.eqb e "f" then Some "012"%char
  else if Ascii.eqb e "n" then Some "010"%char
  else if Ascii.eqb e "r" then Some "013"%char
  else if Ascii.eqb e "t" then Some "009"%char
  else None.

(** The scanner's view of a string, from the byte after the opening quote:
    the units up to the closing quote, and the text behind it. *)
Fixpoint scanString (s : list ascii) (acc : list unit16)
  : option (list unit16 * list ascii) :=
  match s with
  | [] => None
  | c :: r =>
      if Ascii.eqb c "034" then Some (rev acc, r)
      else if Ascii.eqb c "\" then
        match r with
        | e :: r1 =>
            if Ascii.eqb e "u" then
              match r1 with
              | h1 :: h2 :: h3 :: h4 :: r2 =>
                  match hex4 h1 h2 h3 h4 with
                  | Some n => scanString r2 (U16 n :: acc)
                  | None => None
                  end
              | _ => None
              end
            else
              match simpleEscape e with
              | Some b => scanString r1 (UChr b :: acc)
              | None => None
              end
        | [] => None
        end
      else if utf8.byteZ c <? 32 then None
      else scanString r (URaw c :: acc)
  end.

Fixpoint rawPrefix (us : list unit16) : list ascii :=
  match us with
  | URaw c :: r => c :: rawPrefix r
  | _ => []
  end.

Definition isSurrogate (n : Z) : bool := (55296 <=? n) && (n <? 57344).

(** [utf16.DecodeRune]: a high surrogate followed by a low one. *)
Definition surrogatePair (hi lo : Z) : option Z :=
  if (55296 <=? hi) && (hi <? 56320) && (56320 <=? lo) && (lo <? 57344)
  then Some ((hi - 55296) * 1024 + (lo - 56320) + 65536)
  else None.

(** [unquote]: escapes are replaced by the bytes they stand for, a surrogate
    without its partner and every ill-formed byte by U+FFFD. [skip] counts the
    continuation bytes of a well-formed rune still to be copied. *)
Fixpoint unquote (skip : nat) (us : list unit16) : list ascii :=
  match us with
  | [] => []
  | URaw c :: r =>
      match skip with
      | S k => c :: unquote k r
      | O =>
          match utf8.runeLen (c :: rawPrefix r) with
          | O => utf8.replacement ++ unquote 0 r
          | S k => c :: unquote k r
          end
      end
  | UChr c :: r => c :: unquote 0 r
  | U16 n :: r =>
      if isSurrogate n then
        match r with
        | U16 n2 :: r' =>
            match surrogatePair n n2 with
            | Some rr => utf8.EncodeRune rr ++ unquote 0 r'
            | None => utf8.replacement ++ unquote 0 r
            end
        | _ => utf8.replacement ++ unquote 0 r
        end
      else utf8.EncodeRune n ++ unquote 0 r
  end.

Definition parseString (s : list ascii) : option (string * list ascii) :=
  match scanString s [] with
  | Some (us, rest) => Some (string_of_list_ascii (unquote 0 us), rest)
  | None => None
  end.

(** ** Numbers *)

Definition scanDigits1 (s : list ascii) : option (list ascii * list ascii) :=
  match float64.spanDigits s with
  | ([], _) => None
  | r => Some r
  end.

(** The number grammar: an optional minus sign; a zero, or digits that do not
    start with a zero; optionally a point and digits; optionally an exponent
    mark, a sign and digits. Each part returns what it read and the text
    behind it. *)
Definition scanInt (s : list ascii) : option (list ascii * list ascii) :=
  match s with
  | c :: r =>
      if Ascii.eqb c "0" then Some ([c], r)
      else if strconv.isDigit c then scanDigits1 s
      else None
  | [] => None
  end.

Definition scanFrac (s : list ascii) : option (list ascii * list ascii) :=
  match s with
  | d :: r =>
      if Ascii.eqb d "." then
        match scanDigits1 r with
        | Some (ds, s') => Some (d :: ds, s')
        | None => None
        end
      else Some ([], s)
  | [] => Some ([], s)
  end.

Definition scanExp (s : list ascii) : option (list ascii * list ascii) :=
  match s with
  | e :: r =>
      if Ascii.eqb e "e" || Ascii.eqb e "E" then
        match r with
        | sg :: r' =>
            if Ascii.eqb sg "+" || Ascii.eqb sg "-" then
              match scanDigits1 r' with
              | Some (ds, s') => Some (e :: sg :: ds, s')
              | None => None
              end
            else
              match scanDigits1 r with
              | Some (ds, s') => Some (e :: ds, s')
              | None => None
              end
        | [] => None
        end
      else Some ([], s)
  | [] => Some ([], s)
  end.

Definition scanNumber (s : list ascii) : option (list ascii * list ascii) :=
  let '(sign, s) :=
    match s with
    | c :: r => if Ascii.eqb c "-" then ([c], r) else ([], s)
    | [] => ([], s)
    end in
  match scanInt s with
  | None => None
  | Some (ip, s) =>
      match scanFrac s with
      | None => None
      | Some (fp, s) =>
          match scanExp s with
          | None => None
          | Some (ep, s) => Some (sign ++ ip ++ fp ++ ep, s)
          end
      end
  end.

Fixpoint dropPrefix (p s : list ascii) : option (list ascii) :=
  match p, s with
  | [], _ => Some s
  | a :: p', b :: s' => if Ascii.eqb a b then dropPrefix p' s' else None
  | _ :: _, [] => None
  end.

(** ** Values *)

(** The scanner gives up on a text with more than this many arrays and
    objects open at once. *)
Definition maxNestingDepth : N := 10000.

(** [depth] counts the arrays and objects that are open; [fuel] bounds the
    recursion, and twice the length of the text is enough. *)
Fixpoint parseValue (fuel : nat) (depth : N) (s : list ascii) {struct fuel}
  : option (jvalue * list ascii) :=
  match fuel with
  | O => None
  | S fuel =>
      match skipSpace s with
      | [] => None
      | c :: r =>
          if Ascii.eqb c "{" then
            if (maxNestingDepth <? N.succ depth)%N then None
            else
              match skipSpace r with
              | c' :: r' =>
                  if Ascii.eqb c' "}" then Some (JObject [], r')
                  else parseMembers fuel (N.succ depth) r []
              | [] => None
              end
          else if Ascii.eqb c "[" then
            if (maxNestingDepth <? N.succ depth)%N then None
            else
              match skipSpace r with
              | c' :: r' =>
                  if Ascii.eqb c' "]" then Some (JArray [], r')
                  else parseElements fuel (N.succ depth) r []
              | [] => None
              end
          else if Ascii.eqb c "034" then
            match parseString r with
            | Some (str, rest) => Some (JString str, rest)
            | None => None
            end
          else if Ascii.eqb c "t" then
            option_map (pair (JBool true)) (dropPrefix (list_ascii_of_string "rue") r)
          else if Ascii.eqb c "f" then
            option_map (pair (JBool false)) (dropPrefix (list_ascii_of_string "alse") r)
          else if Ascii.eqb c "n" then
            option_map (pair JNull) (dropPrefix (list_ascii_of_string "ull") r)
          else
            match scanNumber (c :: r) with
            | Some (lit, rest) => Some (JNumber (string_of_list_ascii lit), rest)
            | None => None
            end
      end
  end
with parseElements (fuel : nat) (depth : N) (s : list ascii) (acc : list jvalue)
  {struct fuel} : option (jvalue * list ascii) :=
  match fuel with
  | O => None
  | S fuel =>
      match parseValue fuel depth s with
      | Some (v, rest) =>
          match skipSpace rest with
          | c :: r =>
              if Ascii.eqb c "," then parseElements fuel depth r (v :: acc)
              else if Ascii.eqb c "]" then Some (JArray (rev (v :: acc)), r)
              else None
          | [] => None
          end
      | None => None
      end
  end
with parseMembers (fuel : nat) (depth : N) (s : list ascii)
  (acc : list (string * jvalue)) {struct fuel} : option (jvalue * list ascii) :=
  match fuel with
  | O => None
  | S fuel =>
      match skipSpace s with
      | q :: r =>
          if Ascii.eqb q "034" then
            match parseString r with
            | Some (k, rest) =>
                match skipSpace rest with
                | c :: r1 =>
                    if Ascii.eqb c ":" then
                      match parseValue fuel depth r1 with
                      | Some (v, rest') =>
                          match skipSpace rest' with
                          | d :: r2 =>
                              if Ascii.eqb d ","
                              then parseMembers fuel depth r2 ((k, v) :: acc)
                              else if Ascii.eqb d "}"
                              then Some (JObject (rev ((k, v) :: acc)), r2)
                              else None
                          | [] => None
                          end
                      | None => None
                      end
                    else None
                | [] => None
                end
            | None => None
            end
          else None
      | [] => None
      end
  end.

(** A text is valid when it holds one value and white space around it. *)
Definition parse (data : string) : option jvalue :=
  let s := list_ascii_of_string data in
  match parseValue (2 * length s + 2) 0 s with
  | Some (v, rest) =>
      match skipSpace rest with
      | [] => Some v
      | _ => None
      end
  | None => None
  end.

(** A run of one of the three parsers gives [v] and leaves [rest] of [s]
    whatever the fuel, from the number of characters read on. *)
Definition sufficient (s rest : list ascii)
  (run : nat -> option (jvalue * list ascii)) (v : jvalue) : Prop :=
  (length rest < length s)%nat /\
  forall fuel, (length s - length rest <= fuel)%nat -> run fuel = Some (v, rest).

End json.

(** * time *)
Module time.

Inductive Location := UTC | Local.

(** An instant: seconds since the Unix epoch, nanoseconds within the second,
    and the location it is presented in. *)
Record Time := { unix : Z; nsec : Z; loc : Location }.

(** The zero value: January 1, year 1, 00:00:00 UTC. *)
Definition zero : Time := {| unix := -62135596800; nsec := 0; loc := UTC |}.

Definition Unix (sec nsec : Z) : Time :=
  {| unix := sec + nsec / 1000000000; nsec := nsec mod 1000000000; loc := Local |}.

Definition isLeap (year : Z) : bool :=
  (year mod 4 =? 0) && (negb (year mod 100 =? 0) || (year mod 400 =? 0)).

Definition daysIn (month year : Z) : Z :=
  if month =? 2 then (if isLeap year then 29 else 28)
  else if (month =? 4) || (month =? 6) || (month =? 9) || (month =? 11) then 30
  else 31.

(** Days from 1970-01-01 to the given day of the proleptic Gregorian
    calendar. *)
Definition daysSinceEpoch (year month day : Z) : Z :=
  let y := if month <=? 2 then year - 1 else year in
  let era := y / 400 in
  let yoe := y - era * 400 in
  let mp := (month + 9) mod 12 in
  let doy := (153 * mp + 2) / 5 + day - 1 in
  let doe := yoe * 365 + yoe / 4 - yoe / 100 + doy in
  era * 146097 + doe - 719468.

(** [Date] for fields already in range. *)
Definition Date (year month day hour min sec nsec : Z) (l : Location) : Time :=
  {| unix := daysSinceEpoch year month day * 86400 + hour * 3600 + min * 60 + sec;
     nsec := nsec; loc := l |}.

(** The calendar day of a day count, the inverse of [daysSinceEpoch]. *)
Definition civilFromDays (z : Z) : Z * Z * Z :=
  let z := z + 719468 in
  let era := z / 146097 in
  let doe := z - era * 146097 in
  let yoe := (doe - doe / 1460 + doe / 36524 - doe / 146096) / 365 in
  let doy := doe - (365 * yoe + yoe / 4 - yoe / 100) in
  let mp := (5 * doy + 2) / 153 in
  let d := doy - (153 * mp + 2) / 5 + 1 in
  let m := if mp <? 10 then mp + 3 else mp - 9 in
  let y := yoe + era * 400 in
  (if m <=? 2 then y + 1 else y, m, d).

(** [t.UTC().Date()] and [t.UTC().Clock()]. *)
Definition civil (t : Time) : (Z * Z * Z) * (Z * Z * Z) :=
  (civilFromDays (unix t / 86400),
   ((unix t mod 86400) / 3600, (unix t mod 3600) / 60, unix t mod 60)).

(** ** Layouts *)

(** The elements of a layout that the client's layout uses. *)
Inductive std :=
| stdLongYear | stdZeroMonth | stdZeroDay | stdHour | stdZeroMinute | stdZeroSecond.

Definition startsWith (p s : list ascii) : bool :=
  match json.dropPrefix p s with Some _ => true | None => false end.

(** [nextStdChunk], for layouts made of the elements above: the literal text
    before the first element, the element, and the layout behind it. *)
Fixpoint nextStdChunk (layout : list ascii)
  : list ascii * option std * list ascii :=
  match layout with
  | [] => ([], None, [])
  | c :: r =>
      let lit :=
        let '(p, s, suf) := nextStdChunk r in (c :: p, s, suf) in
      if startsWith (list_ascii_of_string "2006") layout
      then ([], Some stdLongYear, drop 4 layout)
      else if startsWith (list_ascii_of_string "01") layout
      then ([], Some stdZeroMonth, drop 2 layout)
      else if startsWith (list_ascii_of_string "02") layout
      then ([], Some stdZeroDay, drop 2 layout)
      else if startsWith (list_ascii_of_string "15") layout
      then ([], Some stdHour, drop 2 layout)
      else if startsWith (list_ascii_of_string "04") layout
      then ([], Some stdZeroMinute, drop 2 layout)
      else if startsWith (list_ascii_of_string "05") layout
      then ([], Some stdZeroSecond, drop 2 layout)
      else lit
  end.

Fixpoint cutspace (s : list ascii) : list ascii :=
  match s with
  | c :: r => if Ascii.eqb c " " then cutspace r else s
  | [] => []
  end.

(** [skip]: the value must start with the literal text; a run of spaces in
    the layout stands for any run of spaces in the value, and for none when
    the value has ended. [inRun] holds while the spaces of one run of the
    layout are passed over. *)
Fixpoint skip (inRun : bool) (value prefix : list ascii) : option (list ascii) :=
  match prefix with
  | [] => Some value
  | p :: prefix' =>
      if Ascii.eqb p " " then
        if inRun then skip true value prefix'
        else
          match value with
          | v :: _ =>
              if Ascii.eqb v " " then skip true (cutspace value) prefix'
              else None
          | [] => skip true [] prefix'
          end
      else
        match value with
        | v :: value' => if Ascii.eqb v p then skip false value' prefix' else None
        | [] => None
        end
  end.

(** [getnum]: one or two digits, and exactly two when [fixed]. *)
Definition getnum (s : list ascii) (fixed : bool) : option (Z * list ascii) :=
  match s with
  | a :: r =>
      if strconv.isDigit a then
        match r with
        | b :: r' =>
            if strconv.isDigit b
            then Some (strconv.digitVal a * 10 + strconv.digitVal b, r')
            else if fixed then None else Some (strconv.digitVal a, r)
        | [] => if fixed then None else Some (strconv.digitVal a, r)
        end
      else None
  | [] => None
  end.

Definition commaOrPeriod (c : ascii) : bool := Ascii.eqb c "." || Ascii.eqb c ",".

(** [parseNanoseconds]: the digits behind the separator, of which at most nine
    count, scaled to nanoseconds. *)
Definition parseNanoseconds (digits : list ascii) : Z :=
  let ds := take 9 digits in
  float64.digitsVal ds * 10 ^ Z.of_nat (9 - length ds).

Record fields := { year : Z; month : Z; day : Z; hour : Z; min : Z; sec : Z; ns : Z }.

Inductive ParseError := errBad | errRange (what : string) | errExtra.

(** One element of the layout read from the value. *)
Definition parseStd (s : std) (f : fields) (value : list ascii)
  : fields * list ascii * option ParseError :=
  match s with
  | stdLongYear =>
      match value with
      | a :: b :: c :: d :: rest =>
          if forallb strconv.isDigit [a; b; c; d]
          then ({| year := float64.digitsVal [a; b; c; d]; month := month f;
                   day := day f; hour := hour f; min := min f; sec := sec f;
                   ns := ns f |}, rest, None)
          else (f, value, Some errBad)
      | _ => (f, value, Some errBad)
      end
  | stdZeroMonth =>
      match getnum value true with
      | Some (n, rest) =>
          ({| year := year f; month := n; day := day f; hour := hour f;
              min := min f; sec := sec f; ns := ns f |}, rest,
           if (n <=? 0) || (12 <? n) then Some (errRange "month") else None)
      | None => (f, value, Some errBad)
      end
  | stdZeroDay =>
      match getnum value true with
      | Some (n, rest) =>
          ({| year := year f; month := month f; day := n; hour := hour f;
              min := min f; sec := sec f; ns := ns f |}, rest, None)
      | None => (f, value, Some errBad)
      end
  | stdHour =>
      match getnum value false with
      | Some (n, rest) =>
          ({| year := year f; month := month f; day := day f; hour := n;
              min := min f; sec := sec f; ns := ns f |}, rest,
           if 24 <=? n then Some (errRange "hour") else None)
      | None => (f, value, Some errBad)
      end
  | stdZeroMinute =>
      match getnum value true with
      | Some (n, rest) =>
          ({| year := year f; month := month f; day := day f; hour := hour f;
              min := n; sec := sec f; ns := ns f |}, rest,
           if 60 <=? n then Some (errRange "minute") else None)
      | None => (f, value, Some errBad)
      end
  | stdZeroSecond =>
      match getnum value true with
      | Some (n, rest) =>
          if 60 <=? n
          then ({| year := year f; month := month f; day := day f;
                   hour := hour f; min := min f; sec := n; ns := ns f |},
                rest, Some (errRange "second"))
          else
            (* a fraction of a second in the value that the layout does not
               announce is read all the same *)
            match rest with
            | p :: d :: _ =>
                if commaOrPeriod p && strconv.isDigit d then
                  let '(ds, rest') := float64.spanDigits (tl rest) in
                  ({| year := year f; month := month f; day := day f;
                      hour := hour f; min := min f; sec := n;
                      ns := parseNanoseconds ds |}, rest', None)
                else
                  ({| year := year f; month := month f; day := day f;
                      hour := hour f; min := min f; sec := n; ns := ns f |},
                   rest, None)
            | _ =>
                ({| year := year f; month := month f; day := day f;
                    hour := hour f; min := min f; sec := n; ns := ns f |},
                 rest, None)
            end
      | None => (f, value, Some errBad)
      end
  end.

(** The loop of [Parse] over the layout; [fuel] bounds the number of elements
    and the length of the layout is enough. *)
Fixpoint parseLoop (fuel : nat) (layout value : list ascii) (f : fields)
  : fields * option ParseError :=
  match fuel with
  | O => (f, Some errBad)
  | S fuel =>
      let '(prefix, s, suffix) := nextStdChunk layout in
      match skip false value prefix with
      | None => (f, Some errBad)
      | Some value =>
          match s with
          | None =>
              match value with
              | [] => (f, None)
              | _ => (f, Some errExtra)
              end
          | Some s =>
              match parseStd s f value with
              | (f', value', None) => parseLoop fuel suffix value' f'
              | (f', _, Some e) => (f', Some e)
              end
          end
      end
  end.

(** [Parse(layout, value)] for layouts without zone, weekday or half-day
    elements: the fields are read, the day is checked against the month, and
    the instant is given in UTC. *)
Definition Parse (layout value : string) : Time * option ParseError :=
  let l := list_ascii_of_string layout in
  let f0 := {| year := 0; month := -1; day := -1; hour := 0; min := 0;
               sec := 0; ns := 0 |} in
  match parseLoop (S (length l)) l (list_ascii_of_string value) f0 with
  | (_, Some e) => (zero, Some e)
  | (f, None) =>
      let month := if month f =? -1 then 1 else month f in
      let day := if day f =? -1 then 1 else day f in
      if (day <? 1) || (daysIn month (year f) <? day)
      then (zero, Some (errRange "day"))
      else (Date (year f) month day (hour f) (min f) (sec f) (ns f) UTC, None)
  end.

End time.

(** * Byte sequences *)
Definition bytes := list byte.

Definition byteVal (b : byte) : Z := Z.of_N (Byte.to_N b).

Definition byteOf (z : Z) : byte :=
  match Byte.of_N (Z.to_N (z mod 256)) with
  | Some b => b
  | None => x00
  end.

Definition bytesOfString (s : string) : bytes := list_byte_of_string s.

(** * encoding/hex *)
Module hex.

Inductive Err := InvalidByteError (c : ascii) | ErrLength.

Fixpoint decodeLoop (src : list ascii) (acc : bytes) : bytes * option Err :=
  match src with
  | [] => (rev acc, None)
  | [p] =>
      match json.hexVal p with
      | None => (rev acc, Some (InvalidByteError p))
      | Some _ => (rev acc, Some ErrLength)
      end
  | p :: q :: rest =>
      match json.hexVal p with
      | None => (rev acc, Some (InvalidByteError p))
      | Some a =>
          match json.hexVal q with
          | None => (rev acc, Some (InvalidByteError q))
          | Some b => decodeLoop rest (byteOf (a * 16 + b) :: acc)
          end
      end
  end.

Definition DecodeString (s : string) : bytes * option Err :=
  decodeLoop (list_ascii_of_string s) [].

End hex.

(** * encoding/base64, the standard encoding with padding *)
Module base64.

Definition alphabet : list ascii :=
  list_ascii_of_string
    "ABCDEFGHIJKLMNOPQRSTUVWXYZabcdefghijklmnopqrstuvwxyz0123456789+/".

Definition encodeSextet (n : Z) : ascii := nth (Z.to_nat n) alphabet "="%char.

Definition decodeSextet (c : ascii) : option Z :=
  let b := utf8.byteZ c in
  if (65 <=? b) && (b <=? 90) then Some (b - 65)
  else if (97 <=? b) && (b <=? 122) then Some (b - 71)
  else if (48 <=? b) && (b <=? 57) then Some (b + 4)
  else if b =? 43 then Some 62
  else if b =? 47 then Some 63
  else None.

Fixpoint encodeLoop (src : list Z) : list ascii :=
  match src with
  | [] => []
  | [a] =>
      [encodeSextet (a / 4); encodeSextet (a mod 4 * 16); "="%char; "="%char]
  | [a; b] =>
      [encodeSextet (a / 4); encodeSextet (a mod 4 * 16 + b / 16);
       encodeSextet (b mod 16 * 4); "="%char]
  | a :: b :: c :: rest =>
      encodeSextet (a / 4) :: encodeSextet (a mod 4 * 16 + b / 16)
      :: encodeSextet (b mod 16 * 4 + c / 64) :: encodeSextet (c mod 64)
      :: encodeLoop rest
  end.

Definition EncodeToString (src : bytes) : string :=
  string_of_list_ascii (encodeLoop (map byteVal src)).

Inductive Err := CorruptInputError.

Definition isNewline (c : ascii) : bool := Ascii.eqb c "010" || Ascii.eqb c "013".

Fixpoint skipNewlines (s : list ascii) : list ascii :=
  match s with
  | c :: r => if isNewline c then skipNewlines r else s
  | [] => []
  end.

(** The bytes of one quantum, from the sextets read so far (most recent
    first). *)
Definition quantum (sextets : list Z) : option (list Z) :=
  match sextets with
  | [d; c; b; a] => Some [a * 4 + b / 16; b mod 16 * 16 + c / 4; c mod 4 * 64 + d]
  | [c; b; a] => Some [a * 4 + b / 16; b mod 16 * 16 + c / 4]
  | [b; a] => Some [a * 4 + b / 16]
  | _ => None
  end.

(** The decoder: line breaks are passed over anywhere; a quantum is four
    characters of the alphabet, or two or three of them filled up with
    padding, after which nothing but line breaks may follow. [cur] holds the
    sextets of the quantum being read. *)
Fixpoint decodeLoop (src : list ascii) (cur : list Z) (acc : list Z)
  : list Z * option Err :=
  match src with
  | [] =>
      match cur with
      | [] => (rev acc, None)
      | _ => (rev acc, Some CorruptInputError)
      end
  | c :: r =>
      if isNewline c then decodeLoop r cur acc
      else if Ascii.eqb c "=" then
        let tail :=
          match cur with
          | [_; _; _] => Some (skipNewlines r)
          | [_; _] =>
              match skipNewlines r with
              | e :: r' => if Ascii.eqb e "=" then Some (skipNewlines r') else None
              | [] => None
              end
          | _ => None
          end in
        match tail, quantum cur with
        | Some [], Some q => (rev acc ++ q, None)
        | _, _ => (rev acc, Some CorruptInputError)
        end
      else
        match decodeSextet c with
        | None => (rev acc, Some CorruptInputError)
        | Some v =>
            match cur with
            | [c3; b3; a3] =>
                match quantum [v; c3; b3; a3] with
                | Some q => decodeLoop r [] (rev q ++ acc)
                | None => (rev acc, Some CorruptInputError)
                end
            | _ => decodeLoop r (v :: cur) acc
            end
      end
  end.

Definition DecodeString (s : string) : bytes * option Err :=
  let '(out, e) := decodeLoop (list_ascii_of_string s) [] [] in
  (map byteOf out, e).

End base64.

(** * crypto/sha512 *)
Module sha512.

Definition Size : nat := 64.
Definition BlockSize : nat := 128.

Definition w64 (x : Z) : Z := x mod 2 ^ 64.
Definition add64 (x y : Z) : Z := w64 (x + y).
Definition rotr (n x : Z) : Z := Z.lor (Z.shiftr x n) (w64 (Z.shiftl x (64 - n))).
Definition not64 (x : Z) : Z := 2 ^ 64 - 1 - x.

Definition Ch (x y z : Z) : Z := Z.lxor (Z.land x y) (Z.land (not64 x) z).
Definition Maj (x y z : Z) : Z :=
  Z.lxor (Z.lxor (Z.land x y) (Z.land x z)) (Z.land y z).
Definition Sigma0 (x : Z) : Z := Z.lxor (Z.lxor (rotr 28 x) (rotr 34 x)) (rotr 39 x).
Definition Sigma1 (x : Z) : Z := Z.lxor (Z.lxor (rotr 14 x) (rotr 18 x)) (rotr 41 x).
Definition sigma0 (x : Z) : Z := Z.lxor (Z.lxor (rotr 1 x) (rotr 8 x)) (Z.shiftr x 7).
Definition sigma1 (x : Z) : Z := Z.lxor (Z.lxor (rotr 19 x) (rotr 61 x)) (Z.shiftr x 6).

Definition K : list Z :=
  [
     0x428a2f98d728ae22; 0x7137449123ef65cd; 0xb5c0fbcfec4d3b2f;
     0xe9b5dba58189dbbc; 0x3956c25bf348b538; 0x59f111f1b605d019;
     0x923f82a4af194f9b; 0xab1c5ed5da6d8118; 0xd807aa98a3030242;
     0x12835b0145706fbe; 0x243185be4ee4b28c; 0x550c7dc3d5ffb4e2;
     0x72be5d74f27b896f; 0x80deb1fe3b1696b1; 0x9bdc06a725c71235;
     0xc19bf174cf692694; 0xe49b69c19ef14ad2; 0xefbe4786384f25e3;
     0x0fc19dc68b8cd5b5; 0x240ca1cc77ac9c65; 0x2de92c6f592b0275;
     0x4a7484aa6ea6e483; 0x5cb0a9dcbd41fbd4; 0x76f988da831153b5;
     0x983e5152ee66dfab; 0xa831c66d2db43210; 0xb00327c898fb213f;
     0xbf597fc7beef0ee4; 0xc6e00bf33da88fc2; 0xd5a79147930aa725;
     0x06ca6351e003826f; 0x142929670a0e6e70; 0x27b70a8546d22ffc;
     0x2e1b21385c26c926; 0x4d2c6dfc5ac42aed; 0x53380d139d95b3df;
     0x650a73548baf63de; 0x766a0abb3c77b2a8; 0x81c2c92e47edaee6;
     0x92722c851482353b; 0xa2bfe8a14cf10364; 0xa81a664bbc423001;
     0xc24b8b70d0f89791; 0xc76c51a30654be30; 0xd192e819d6ef5218;
     0xd69906245565a910; 0xf40e35855771202a; 0x106aa07032bbd1b8;
     0x19a4c116b8d2d0c8; 0x1e376c085141ab53; 0x2748774cdf8eeb99;
     0x34b0bcb5e19b48a8; 0x391c0cb3c5c95a63; 0x4ed8aa4ae3418acb;
     0x5b9cca4f7763e373; 0x682e6ff3d6b2b8a3; 0x748f82ee5defb2fc;
     0x78a5636f43172f60; 0x84c87814a1f0ab72; 0x8cc702081a6439ec;
     0x90befffa23631e28; 0xa4506cebde82bde9; 0xbef9a3f7b2c67915;
     0xc67178f2e372532b; 0xca273eceea26619c; 0xd186b8c721c0c207;
     0xeada7dd6cde0eb1e; 0xf57d4f7fee6ed178; 0x06f067aa72176fba;
     0x0a637dc5a2c898a6; 0x113f9804bef90dae; 0x1b710b35131c471b;
     0x28db77f523047d84; 0x32caab7b40c72493; 0x3c9ebe0a15c9bebc;
     0x431d67c49c100d4c; 0x4cc5d4becb3e42b6; 0x597f299cfc657e2a;
     0x5fcb6fab3ad6faec; 0x6c44198c4a475817
  ].

Record state := { ha : Z; hb : Z; hc : Z; hd : Z; he : Z; hf : Z; hg : Z; hh : Z }.

Definition init : state :=
  {| ha := 0x6a09e667f3bcc908; hb := 0xbb67ae8584caa73b;
     hc := 0x3c6ef372fe94f82b; hd := 0xa54ff53a5f1d36f1;
     he := 0x510e527fade682d1; hf := 0x9b05688c2b3e6c1f;
     hg := 0x1f83d9abfb41bd6b; hh := 0x5be0cd19137e2179 |}.

(** Big-endian words. *)
Definition beWord (bs : list Z) : Z := fold_left (fun a b => a * 256 + b) bs 0.

Fixpoint beBytes (n : nat) (x : Z) : list Z :=
  match n with
  | O => []
  | S n' => beBytes n' (x / 256) ++ [x mod 256]
  end.

Fixpoint chunks (fuel : nat) (size : nat) (l : list Z) : list (list Z) :=
  match fuel with
  | O => []
  | S fuel' =>
      match l with
      | [] => []
      | _ => take size l :: chunks fuel' size (drop size l)
      end
  end.

(** The message schedule, most recent word first: [w] holds W(t-1) .. W(0). *)
Fixpoint schedule (n : nat) (w : list Z) : list Z :=
  match n with
  | O => w
  | S n' =>
      let wt :=
        add64 (add64 (sigma1 (nth 1 w 0)) (nth 6 w 0))
              (add64 (sigma0 (nth 14 w 0)) (nth 15 w 0)) in
      schedule n' (wt :: w)
  end.

Definition round (s : state) (kw : Z * Z) : state :=
  let t1 := add64 (add64 (add64 (hh s) (Sigma1 (he s))) (Ch (he s) (hf s) (hg s)))
                  (add64 (fst kw) (snd kw)) in
  let t2 := add64 (Sigma0 (ha s)) (Maj (ha s) (hb s) (hc s)) in
  {| ha := add64 t1 t2; hb := ha s; hc := hb s; hd := hc s;
     he := add64 (hd s) t1; hf := he s; hg := hf s; hh := hg s |}.

Definition block (s : state) (blk : list Z) : state :=
  let w := rev (schedule 64 (rev (map beWord (chunks 16 8 blk)))) in
  let r := fold_left round (combine K w) s in
  {| ha := add64 (ha s) (ha r); hb := add64 (hb s) (hb r);
     hc := add64 (hc s) (hc r); hd := add64 (hd s) (hd r);
     he := add64 (he s) (he r); hf := add64 (hf s) (hf r);
     hg := add64 (hg s) (hg r); hh := add64 (hh s) (hh r) |}.

(** The message, a one bit, zeros, and the length in bits as a 128-bit number,
    up to a multiple of the block size. *)
Definition pad (msg : list Z) : list Z :=
  let len := Z.of_nat (length msg) in
  let zeros := Z.to_nat ((111 - len) mod 128) in
  msg ++ [128] ++ repeat 0 zeros ++ beBytes 16 (len * 8).

Definition digest (s : state) : list Z :=
  beBytes 8 (ha s) ++ beBytes 8 (hb s) ++ beBytes 8 (hc s) ++ beBytes 8 (hd s)
  ++ beBytes 8 (he s) ++ beBytes 8 (hf s) ++ beBytes 8 (hg s) ++ beBytes 8 (hh s).

Definition sumZ (msg : list Z) : list Z :=
  let p := pad msg in
  digest (fold_left block (chunks (length p) 128 p) init).

Definition Sum512 (msg : bytes) : bytes := map byteOf (sumZ (map byteVal msg)).

End sha512.

(** * crypto/hmac over SHA-512 *)
Module hmac.

(** A key longer than a block is hashed first; the key is then filled up with
    zeros to the block size. *)
Definition blockKey (key : list Z) : list Z :=
  let k := if (sha512.BlockSize <? length key)%nat then sha512.sumZ key else key in
  k ++ repeat 0 (sha512.BlockSize - length k).

Definition sumZ (key msg : list Z) : list Z :=
  let k := blockKey key in
  let ipad := map (Z.lxor 54) k in
  let opad := map (Z.lxor 92) k in
  sha512.sumZ (opad ++ sha512.sumZ (ipad ++ msg)).

(** [mac := hmac.New(sha512.New, key); mac.Write(msg); mac.Sum(nil)]. *)
Definition Sum (key msg : bytes) : bytes :=
  map byteOf (sumZ (map byteVal key) (map byteVal msg)).

End hmac.

(** Lower-case hexadecimal, for writing digests down. *)
Definition hexString (b : bytes) : string :=
  string_of_list_ascii
    (flat_map (fun x =>
       [nth (Z.to_nat (byteVal x / 16)) (list_ascii_of_string "0123456789abcdef") "0"%char;
        nth (Z.to_nat (byteVal x mod 16)) (list_ascii_of_string "0123456789abcdef") "0"%char])
       b).

(** * Values and errors *)

(** A Go value held in an [interface{}]: what the generic decoder produces,
    and 64-bit integers for what callers put into a request. *)
Inductive goval : Type :=
| VNil
| VBool (b : bool)
| VInt64 (n : Z)
| VFloat64 (f : float64.t)
| VString (s : string)
| VSlice (elems : list goval)
| VMap (m : gmap string goval).

Inductive error : Type :=
| SyntaxError
| UnmarshalTypeError (value ty : string)
| NumError (func num : string) (err : strconv.Err)
| TimeParseError (layout value : string) (err : time.ParseError)
| HexError (err : hex.Err)
| Base64Error (err : base64.Err)
| errorString (msg : string).

Definition firstError (e1 e2 : option error) : option error :=
  match e1 with
  | Some _ => e1
  | None => e2
  end.

(** ** Decoding into [interface{}] *)

Definition kindName (v : json.jvalue) : string :=
  match v with
  | json.JNull => "null"
  | json.JBool _ => "bool"
  | json.JNumber _ => "number"
  | json.JString _ => "string"
  | json.JArray _ => "array"
  | json.JObject _ => "object"
  end.

(** The value of a JSON text as Go values: objects become maps in which the
    last of equal keys stays, numbers become float64. A number beyond float64
    leaves nil in its place and is reported once decoding is through; the
    first such error is the one kept. *)
Fixpoint decodeInterface (v : json.jvalue) : goval * option error :=
  match v with
  | json.JNull => (VNil, None)
  | json.JBool b => (VBool b, None)
  | json.JNumber lit =>
      match float64.ParseFloat lit with
      | (f, None) => (VFloat64 f, None)
      | (_, Some _) => (VNil, Some (UnmarshalTypeError ("number " +:+ lit) "float64"))
      end
  | json.JString s => (VString s, None)
  | json.JArray elems =>
      let rs := map decodeInterface elems in
      (VSlice (map fst rs), fold_right firstError None (map snd rs))
  | json.JObject members =>
      let rs := map (fun kv => (fst kv, decodeInterface (snd kv))) members in
      (VMap (fold_left (fun m kr => <[fst kr := fst (snd kr)]> m) rs ∅),
       fold_right firstError None (map (fun kr => snd (snd kr)) rs))
  end.

(** [json.Unmarshal(data, &raw)] for [var raw map[string]interface{}]: [None]
    is the nil map. *)
Definition decodeMap (v : json.jvalue) : option (gmap string goval) * option error :=
  match v with
  | json.JNull => (None, None)
  | json.JObject _ =>
      match decodeInterface v with
      | (VMap m, e) => (Some m, e)
      | (_, e) => (None, e)
      end
  | _ => (None, Some (UnmarshalTypeError (kindName v) "map[string]interface {}"))
  end.

Definition Unmarshal_map (data : string) : option (gmap string goval) * option error :=
  match json.parse data with
  | None => (None, Some SyntaxError)
  | Some v => decodeMap v
  end.

(** Every number in the value fits float64: [ParseFloat] reports no range
    error on any of its literals. *)
Fixpoint numbersFit (v : json.jvalue) : bool :=
  match v with
  | json.JNumber lit =>
      match snd (float64.ParseFloat lit) with
      | None => true
      | Some _ => false
      end
  | json.JArray elems => forallb numbersFit elems
  | json.JObject members => forallb (fun kv => numbersFit (snd kv)) members
  | _ => true
  end.

(** A string field: a string is stored, null leaves the field alone, and any
    other value is a type error that leaves it alone as well. *)
Definition decodeStringField (old : string) (v : json.jvalue) : string * option error :=
  match v with
  | json.JString s => (s, None)
  | json.JNull => (old, None)
  | _ => (old, Some (UnmarshalTypeError (kindName v) "string"))
  end.

Definition toLower (c : ascii) : ascii :=
  let b := utf8.byteZ c in
  if (65 <=? b) && (b <=? 90) then utf8.chr (b + 32) else c.

(** A key names a field when it is the field's name, in any case of
    letters. *)
Definition keyMatches (name key : string) : bool :=
  String.eqb name (string_of_list_ascii (map toLower (list_ascii_of_string key))).

(** * gox.go: the stream header *)

Record StreamHeader := {
  Channel : string;
  ChannelName : string;
  Op : string;
  Origin : string;
  Private : string
}.

Definition StreamHeader_zero : StreamHeader :=
  {| Channel := ""; ChannelName := ""; Op := ""; Origin := ""; Private := "" |}.

(** One member of the object decoded into the header; [None] when the key
    names no header field. *)
Definition StreamHeader_member (h : StreamHeader) (k : string) (v : json.jvalue)
  : option (StreamHeader * option error) :=
  if keyMatches "channel" k then
    let '(s, e) := decodeStringField (Channel h) v in
    Some ({| Channel := s; ChannelName := ChannelName h; Op := Op h;
             Origin := Origin h; Private := Private h |}, e)
  else if keyMatches "channel_name" k then
    let '(s, e) := decodeStringField (ChannelName h) v in
    Some ({| Channel := Channel h; ChannelName := s; Op := Op h;
             Origin := Origin h; Private := Private h |}, e)
  else if keyMatches "op" k then
    let '(s, e) := decodeStringField (Op h) v in
    Some ({| Channel := Channel h; ChannelName := ChannelName h; Op := s;
             Origin := Origin h; Private := Private h |}, e)
  else if keyMatches "origin" k then
    let '(s, e) := decodeStringField (Origin h) v in
    Some ({| Channel := Channel h; ChannelName := ChannelName h; Op := Op h;
             Origin := s; Private := Private h |}, e)
  else if keyMatches "private" k then
    let '(s, e) := decodeStringField (Private h) v in
    Some ({| Channel := Channel h; ChannelName := ChannelName h; Op := Op h;
             Origin := Origin h; Private := s |}, e)
  else None.

Fixpoint StreamHeader_members (h : StreamHeader) (saved : option error)
    (ms : list (string * json.jvalue)) : StreamHeader * option error :=
  match ms with
  | [] => (h, saved)
  | (k, v) :: ms' =>
      match StreamHeader_member h k v with
      | Some (h', e) => StreamHeader_members h' (firstError saved e) ms'
      | None => StreamHeader_members h saved ms'
      end
  end.

(** [json.Unmarshal(data, &header)]: a text that is no JSON leaves the header
    alone; in an object every member that fits is stored, and the first
    member that does not fit is reported after all have been seen. *)
Definition Unmarshal_StreamHeader (header : StreamHeader) (data : string)
  : StreamHeader * option error :=
  match json.parse data with
  | None => (header, Some SyntaxError)
  | Some json.JNull => (header, None)
  | Some (json.JObject ms) => StreamHeader_members header None ms
  | Some v => (header, Some (UnmarshalTypeError (kindName v) "StreamHeader"))
  end.

(** * messages.go *)

Record Value := {
  Value_Value : float64.t;
  ValueInteger : Z;
  Display : string;
  DisplayShort : string;
  Value_Currency : string
}.

Record SimpleTime := { Time : time.Time }.

Record Wallet := {
  Balance : Value;
  DailyWithdrawLimit : Value;
  MaxWithdraw : Value;
  OpenOrders : Value;
  Operations : Z
}.

Record Info := {
  Created : SimpleTime;
  Id : string;
  Index : string;
  Language : string;
  LastLogin : SimpleTime;
  Link : string;
  Login : string;
  Montly_Volume : Value;
  Trade_fee : float64.t;
  Rights : list string;
  Wallets : gmap string Wallet
}.

Record Rate := { To : string; From : string; Rate_Rate : float64.t }.

Definition layout : string := "2006-01-02 15:04:05".

(** [func (t *SimpleTime) UnmarshalJSON(b []byte) error]: the receiver after
    the call, and the error. *)
Definition SimpleTime_UnmarshalJSON (t : SimpleTime) (b : string)
  : SimpleTime * option error :=
  match time.Parse layout b with
  | (_, Some err) => (t, Some (TimeParseError layout b err))
  | (tm, None) => ({| Time := tm |}, None)
  end.

(** * trade_handler.go *)

Record Trade := {
  Type_ : string;
  Tid : string;
  Amount : Z;
  Price : Z;
  Instrument : string;
  Currency : string;
  TradeType : string;
  Primary : string;
  Properties : string;
  Timestamp : time.Time
}.

Definition Trade_zero : Trade :=
  {| Type_ := ""; Tid := ""; Amount := 0; Price := 0; Instrument := "";
     Currency := ""; TradeType := ""; Primary := ""; Properties := "";
     Timestamp := time.zero |}.

Record TradePayload := {
  Header : StreamHeader;
  Trade_ : Trade
}.

Definition TradePayload_zero : TradePayload :=
  {| Header := StreamHeader_zero; Trade_ := Trade_zero |}.

Definition set_Type (t : Trade) (v : string) : Trade :=
  {| Type_ := v; Tid := Tid t; Amount := Amount t; Price := Price t;
     Instrument := Instrument t; Currency := Currency t;
     TradeType := TradeType t; Primary := Primary t;
     Properties := Properties t; Timestamp := Timestamp t |}.
Definition set_Tid (t : Trade) (v : string) : Trade :=
  {| Type_ := Type_ t; Tid := v; Amount := Amount t; Price := Price t;
     Instrument := Instrument t; Currency := Currency t;
     TradeType := TradeType t; Primary := Primary t;
     Properties := Properties t; Timestamp := Timestamp t |}.
Definition set_Amount (t : Trade) (v : Z) : Trade :=
  {| Type_ := Type_ t; Tid := Tid t; Amount := v; Price := Price t;
     Instrument := Instrument t; Currency := Currency t;
     TradeType := TradeType t; Primary := Primary t;
     Properties := Properties t; Timestamp := Timestamp t |}.
Definition set_Price (t : Trade) (v : Z) : Trade :=
  {| Type_ := Type_ t; Tid := Tid t; Amount := Amount t; Price := v;
     Instrument := Instrument t; Currency := Currency t;
     TradeType := TradeType t; Primary := Primary t;
     Properties := Properties t; Timestamp := Timestamp t |}.
Definition set_Instrument (t : Trade) (v : string) : Trade :=
  {| Type_ := Type_ t; Tid := Tid t; Amount := Amount t; Price := Price t;
     Instrument := v; Currency := Currency t;
     TradeType := TradeType t; Primary := Primary t;
     Properties := Properties t; Timestamp := Timestamp t |}.
Definition set_Currency (t : Trade) (v : string) : Trade :=
  {| Type_ := Type_ t; Tid := Tid t; Amount := Amount t; Price := Price t;
     Instrument := Instrument t; Currency := v;
     TradeType := TradeType t; Primary := Primary t;
     Properties := Properties t; Timestamp := Timestamp t |}.
Definition set_TradeType (t : Trade) (v : string) : Trade :=
  {| Type_ := Type_ t; Tid := Tid t; Amount := Amount t; Price := Price t;
     Instrument := Instrument t; Currency := Currency t;
     TradeType := v; Primary := Primary t;
     Properties := Properties t; Timestamp := Timestamp t |}.
Definition set_Primary (t : Trade) (v : string) : Trade :=
  {| Type_ := Type_ t; Tid := Tid t; Amount := Amount t; Price := Price t;
     Instrument := Instrument t; Currency := Currency t;
     TradeType := TradeType t; Primary := v;
     Properties := Properties t; Timestamp := Timestamp t |}.
Definition set_Properties (t : Trade) (v : string) : Trade :=
  {| Type_ := Type_ t; Tid := Tid t; Amount := Amount t; Price := Price t;
     Instrument := Instrument t; Currency := Currency t;
     TradeType := TradeType t; Primary := Primary t;
     Properties := v; Timestamp := Timestamp t |}.
Definition set_Timestamp (t : Trade) (v : time.Time) : Trade :=
  {| Type_ := Type_ t; Tid := Tid t; Amount := Amount t; Price := Price t;
     Instrument := Instrument t; Currency := Currency t;
     TradeType := TradeType t; Primary := Primary t;
     Properties := Properties t; Timestamp := v |}.

(** [strconv.ParseInt(vv, 10, 64)] with its error as an [error]. *)
Definition ParseInt (vv : string) : Z * option error :=
  let '(n, e) := strconv.ParseInt vv in
  (n, option_map (NumError "ParseInt" vv) e).

(** The body of the loop [for k, v := range raw] in [Trade.UnmarshalJSON]:
    the type switch on [v], then the switch on [k]. The result of [ParseInt]
    is assigned to the field before its error is looked at. *)
Definition Trade_entry (t : Trade) (k : string) (v : goval) : Trade * option error :=
  match v with
  | VString vv =>
      if String.eqb k "type" then (set_Type t vv, None)
      else if String.eqb k "tid" then (set_Tid t vv, None)
      else if String.eqb k "item" then (set_Instrument t vv, None)
      else if String.eqb k "price_currency" then (set_Currency t vv, None)
      else if String.eqb k "trade_type" then (set_TradeType t vv, None)
      else if String.eqb k "primary" then (set_Primary t vv, None)
      else if String.eqb k "properties" then (set_Properties t vv, None)
      else if String.eqb k "amount_int" then
        let '(n, err) := ParseInt vv in (set_Amount t n, err)
      else if String.eqb k "price_int" then
        let '(n, err) := ParseInt vv in (set_Price t n, err)
      else (t, None)
  | VFloat64 vv =>
      if String.eqb k "date"
      then (set_Timestamp t (time.Unix (float64.toInt64 vv) 0), None)
      else (t, None)
  | _ => (t, None)
  end.

(** The loop over the entries in the order [entries]; it returns at the first
    error. *)
Fixpoint Trade_range (t : Trade) (entries : list (string * goval))
  : Trade * option error :=
  match entries with
  | [] => (t, None)
  | (k, v) :: rest =>
      match Trade_entry t k v with
      | (t', Some err) => (t', Some err)
      | (t', None) => Trade_range t' rest
      end
  end.

(** * Channels *)

(** A buffered channel: its capacity and the values waiting in it. *)
Record chan (T : Type) := { cap : nat; buf : list T }.
Arguments cap {T}.
Arguments buf {T}.

Definition make {T : Type} (n : nat) : chan T := {| cap := n; buf := [] |}.

(** [select { case c <- v: default: }]: the value is queued when there is
    room and dropped otherwise; the flag tells which. *)
Definition trySend {T : Type} (c : chan T) (v : T) : chan T * bool :=
  if (length (buf c) <? cap c)%nat
  then ({| cap := cap c; buf := buf c ++ [v] |}, true)
  else (c, false).

(** [c <- v]: the value is queued when there is room; with the buffer full
    and nobody receiving, the statement does not return, which is [None]. *)
Definition send {T : Type} (c : chan T) (v : T) : option (chan T) :=
  if (length (buf c) <? cap c)%nat
  then Some {| cap := cap c; buf := buf c ++ [v] |}
  else None.

(** ** The reader *)

(** [websocket.TextMessage]. *)
Definition TextMessage : Z := 1.

(** The sends of the goroutine of [messages], in the order it makes them: a
    frame on the channel it returns, or an error on [Errors]. *)
Inductive sendOp : Type :=
| ToMsgs (p : string)
| ToErrors (err : error).

(** [fmt.Errorf("Received unknown message type: %d", messageType)]. *)
Definition unknownMessageType (messageType : Z) : error :=
  errorString ("Received unknown message type: " +:+ strconv.FormatInt messageType).

(** The loop of [func (g *Gox) messages() <-chan []byte] over what the calls
    of [ReadMessage] return, one triple of message type, data and error for
    each call: a read error is sent on and ends the loop; a text frame is
    passed on; a frame of any other type is reported. Every send waits for
    room in its channel. *)
Fixpoint messages (reads : list (Z * string * option error)) : list sendOp :=
  match reads with
  | [] => []
  | (messageType, p, Some err) :: _ => [ToErrors err]
  | (messageType, p, None) :: rest =>
      if messageType =? TextMessage
      then ToMsgs p :: messages rest
      else ToErrors (unknownMessageType messageType) :: messages rest
  end.

(** The frames the loop of [Start] receives, and the errors the reader
    reports. *)
Definition passedOn (ops : list sendOp) : list string :=
  flat_map (fun o => match o with ToMsgs p => [p] | ToErrors _ => [] end) ops.

Definition reported (ops : list sendOp) : list error :=
  flat_map (fun o => match o with ToMsgs _ => [] | ToErrors e => [e] end) ops.

(** ** What a run of the loop leaves *)

Definition stringOr (old : string) (v : option goval) : string :=
  match v with
  | Some (VString s) => s
  | _ => old
  end.

Definition intOr (old : Z) (v : option goval) : Z :=
  match v with
  | Some (VString s) => fst (strconv.ParseInt s)
  | _ => old
  end.

Definition timeOr (old : time.Time) (v : option goval) : time.Time :=
  match v with
  | Some (VFloat64 f) => time.Unix (float64.toInt64 f) 0
  | _ => old
  end.

(** The trade that [Trade.UnmarshalJSON] is to leave when it returns without
    error, read off the map: a field is taken from the entry under its key
    when that entry has the dynamic type the field wants, and is left as it
    was otherwise. The loop of the source is compared with this below. *)
Definition Trade_filled (t : Trade) (raw : gmap string goval) : Trade :=
  {| Type_ := stringOr (Type_ t) (raw !! "type");
     Tid := stringOr (Tid t) (raw !! "tid");
     Amount := intOr (Amount t) (raw !! "amount_int");
     Price := intOr (Price t) (raw !! "price_int");
     Instrument := stringOr (Instrument t) (raw !! "item");
     Currency := stringOr (Currency t) (raw !! "price_currency");
     TradeType := stringOr (TradeType t) (raw !! "trade_type");
     Primary := stringOr (Primary t) (raw !! "primary");
     Properties := stringOr (Properties t) (raw !! "properties");
     Timestamp := timeOr (Timestamp t) (raw !! "date") |}.

(** The error an entry raises, if any: only a string under one of the two
    integer keys can raise one. *)
Definition entryError (k : string) (v : goval) : option error :=
  match v with
  | VString vv =>
      if String.eqb k "amount_int" || String.eqb k "price_int"
      then snd (ParseInt vv)
      else None
  | _ => None
  end.

(** No string under [amount_int] or [price_int] is rejected by [ParseInt]. *)
Definition integerOk (v : option goval) : bool :=
  match v with
  | Some (VString vv) =>
      match snd (strconv.ParseInt vv) with
      | None => true
      | Some _ => false
      end
  | _ => true
  end.

Definition integersOk (m : gmap string goval) : bool :=
  integerOk (m !! "amount_int") && integerOk (m !! "price_int").

(** Every field whose key the map lacks is as it was. *)
Definition absentKept (t r : Trade) (m : gmap string goval) : Prop :=
  (m !! "type" = None -> Type_ r = Type_ t) /\
  (m !! "tid" = None -> Tid r = Tid t) /\
  (m !! "amount_int" = None -> Amount r = Amount t) /\
  (m !! "price_int" = None -> Price r = Price t) /\
  (m !! "item" = None -> Instrument r = Instrument t) /\
  (m !! "price_currency" = None -> Currency r = Currency t) /\
  (m !! "trade_type" = None -> TradeType r = TradeType t) /\
  (m !! "primary" = None -> Primary r = Primary t) /\
  (m !! "properties" = None -> Properties r = Properties t) /\
  (m !! "date" = None -> Timestamp r = Timestamp t).

(** The keys the loop looks at. *)
Definition knownKeys : list string :=
  ["type"; "tid"; "item"; "price_currency"; "trade_type"; "primary";
   "properties"; "amount_int"; "price_int"; "date"].

(** An order of the entries that starts with the entry under [k], when there
    is one. *)
Definition rangeFrom (k : string) (m : gmap string goval) : list (string * goval) :=
  match m !! k with
  | Some v => (k, v) :: map_to_list (delete k m)
  | None => map_to_list m
  end.

(** A civil time written in [layout]: what [Format(layout)] prints for the
    years 0 to 9999. *)
Definition twoDigits (n : Z) : list ascii :=
  [strconv.digitChar (n / 10); strconv.digitChar (n mod 10)].

Definition fourDigits (n : Z) : list ascii :=
  [strconv.digitChar (n / 1000); strconv.digitChar (n / 100 mod 10);
   strconv.digitChar (n / 10 mod 10); strconv.digitChar (n mod 10)].

Definition layoutText (year month day hour min sec : Z) : string :=
  string_of_list_ascii
    (fourDigits year ++ "-"%char :: twoDigits month ++ "-"%char :: twoDigits day
     ++ " "%char :: twoDigits hour ++ ":"%char :: twoDigits min
     ++ ":"%char :: twoDigits sec).

(** No member of the object is handed to [Trade.UnmarshalJSON]. *)
Definition noTradeMember (ms : list (string * json.jvalue)) : bool :=
  forallb (fun kv => negb (keyMatches "trade" (fst kv))) ms.

Definition scenarioTrade : Trade :=
  {| Type_ := "trade"; Tid := "123"; Amount := 500000000; Price := 4200000000;
     Instrument := "BTC"; Currency := "USD"; TradeType := "ask"; Primary := "";
     Properties := ""; Timestamp := time.Unix 1700000000 0 |}.

Definition scenarioHeader : StreamHeader :=
  {| Channel := ""; ChannelName := ""; Op := ""; Origin := ""; Private := "trade" |}.

(** The discriminators that have a handler. *)
Definition knownPrivate : list string :=
  ["debug"; "ticker"; "trade"; "depth"; "result"].

(** A frame that is no JSON text, or whose value is neither an object nor
    null: the header decoder stores nothing from such a frame. *)
Definition noObject (data : string) : bool :=
  match json.parse data with
  | None => true
  | Some (json.JObject _) => false
  | Some json.JNull => false
  | Some _ => true
  end.

(** JSON texts are written with an apostrophe where the wire has a double
    quote. *)
Definition wire (s : string) : string :=
  string_of_list_ascii
    (map (fun c => if Ascii.eqb c "'" then "034"%char else c)
       (list_ascii_of_string s)).

Section Client.

(** What the client takes from outside these files: the payload types of the
    other message categories, the connection and its [WriteJSON], the
    handlers of the other categories, the order in which a [range] loop
    visits a map, and the encoder of [encoding/json]. *)
Context {TickerPayload DepthPayload Order Conn : Type}.

Variable mapRange : gmap string goval -> list (string * goval).
Variable json_Marshal : goval -> bytes * option error.
Variable json_MarshalIndent : goval -> string -> string -> bytes * option error.
Variable WriteJSON : Conn -> goval -> Conn * option error.

(** [t.UnmarshalJSON] on the text of the JSON value [v]. *)
Definition Trade_decode (t : Trade) (v : json.jvalue) : Trade * option error :=
  match decodeMap v with
  | (_, Some err) => (t, Some err)
  | (raw, None) => Trade_range t (mapRange (default ∅ raw))
  end.

(** [func (t *Trade) UnmarshalJSON(data []byte) error]: the receiver after the
    call, and the error. *)
Definition Trade_UnmarshalJSON (t : Trade) (data : string) : Trade * option error :=
  match json.parse data with
  | None => (t, Some SyntaxError)
  | Some v => Trade_decode t v
  end.

(** The members of the object decoded into a [TradePayload]: the fields of
    the embedded header, and [trade], which is handed to
    [Trade.UnmarshalJSON]; an error of that method ends the decoding, with
    the payload as the method left it (a decoder that goes on to the later
    members after such an error differs only in what those members still
    store). *)
Fixpoint TradePayload_members (p : TradePayload) (saved : option error)
    (ms : list (string * json.jvalue)) : TradePayload * option error :=
  match ms with
  | [] => (p, saved)
  | (k, v) :: ms' =>
      if keyMatches "trade" k then
        match Trade_decode (Trade_ p) v with
        | (t', Some err) => ({| Header := Header p; Trade_ := t' |}, Some err)
        | (t', None) =>
            TradePayload_members {| Header := Header p; Trade_ := t' |} saved ms'
        end
      else
        match StreamHeader_member (Header p) k v with
        | Some (h', e) =>
            TradePayload_members {| Header := h'; Trade_ := Trade_ p |}
              (firstError saved e) ms'
        | None => TradePayload_members p saved ms'
        end
  end.

(** [json.Unmarshal(data, &payload)] for [var payload TradePayload]. *)
Definition Unmarshal_TradePayload (payload : TradePayload) (data : string)
  : TradePayload * option error :=
  match json.parse data with
  | None => (payload, Some SyntaxError)
  | Some json.JNull => (payload, None)
  | Some (json.JObject ms) => TradePayload_members payload None ms
  | Some v => (payload, Some (UnmarshalTypeError (kindName v) "TradePayload"))
  end.

(** ** The client *)

Record Gox := {
  key : option bytes;
  secret : option bytes;
  conn : Conn;
  Ticker : chan TickerPayload;
  Info_ : chan Info;
  Depth : chan DepthPayload;
  Trades : chan TradePayload;
  Orders : chan (list Order);
  Errors : chan error;
  done : chan bool
}.

Definition set_Errors (g : Gox) (c : chan error) : Gox :=
  {| key := key g; secret := secret g; conn := conn g; Ticker := Ticker g;
     Info_ := Info_ g; Depth := Depth g; Trades := Trades g;
     Orders := Orders g; Errors := c; done := done g |}.

Definition set_Trades (g : Gox) (c : chan TradePayload) : Gox :=
  {| key := key g; secret := secret g; conn := conn g; Ticker := Ticker g;
     Info_ := Info_ g; Depth := Depth g; Trades := c;
     Orders := Orders g; Errors := Errors g; done := done g |}.

Definition set_conn (g : Gox) (c : Conn) : Gox :=
  {| key := key g; secret := secret g; conn := c; Ticker := Ticker g;
     Info_ := Info_ g; Depth := Depth g; Trades := Trades g;
     Orders := Orders g; Errors := Errors g; done := done g |}.

(** What a handler does that can be seen from outside: lines printed, and
    sends tried on the error and trade channels, with whether the channel
    took the value. *)
Inductive event : Type :=
| Println (line : string)
| SendError (err : error) (taken : bool)
| SendTrade (payload : TradePayload) (taken : bool).

Variables handleDebug handleTicker handleDepth handleResult
  : Gox -> string -> Gox * list event.

(** [strings.Replace(s, "-", "", -1)]. *)
Definition removeDashes (s : string) : string :=
  string_of_list_ascii
    (filter (fun c => c <> "-"%char) (list_ascii_of_string s)).

(** [func NewWithConnection(key, secret string, conn *websocket.Conn)]: the
    decoders return a slice that is not nil, also when it is empty. *)
Definition NewWithConnection (key secret : string) (conn : Conn)
  : option Gox * option error :=
  match hex.DecodeString (removeDashes key) with
  | (_, Some err) => (None, Some (HexError err))
  | (k, None) =>
      match base64.DecodeString secret with
      | (_, Some err) => (None, Some (Base64Error err))
      | (s, None) =>
          (Some {| key := Some k; secret := Some s; conn := conn;
                   Ticker := make 1; Info_ := make 1; Depth := make 1;
                   Trades := make 1; Orders := make 1; Errors := make 10;
                   done := make 1 |}, None)
      end
  end.

(** A nil slice holds no bytes. *)
Definition sliceBytes (s : option bytes) : bytes := default [] s.

(** [func (g *Gox) sign(body []byte) ([]byte, error)]: writing to the hash
    never fails. *)
Definition sign (g : Gox) (body : bytes) : bytes * option error :=
  (hmac.Sum (sliceBytes (secret g)) body, None).

Definition envelope (requestId : goval) (encodedReq : string) : goval :=
  VMap (<["op" := VString "call"]>
       (<["id" := requestId]>
       (<["call" := VString encodedReq]>
       (<["context" := VString "mtgox.com"]> ∅)))).

(** [func (g *Gox) authenticatedSend(msg map[string]interface{}) error]: the
    client after the call, and the error. *)
Definition authenticatedSend (g : Gox) (msg : gmap string goval)
  : Gox * option error :=
  match key g, secret g with
  | Some k, Some _ =>
      match json_Marshal (VMap msg) with
      | (_, Some err) => (g, Some err)
      | (req, None) =>
          match sign g req with
          | (_, Some err) => (g, Some err)
          | (signedReq, None) =>
              let requestId := default VNil (msg !! "id") in
              let fullReq := (k ++ signedReq) ++ req in
              let encodedReq := base64.EncodeToString fullReq in
              let '(c, err) := WriteJSON (conn g) (envelope requestId encodedReq) in
              (set_conn g c, err)
          end
      end
  | _, _ => (g, Some (errorString "API Key or secret is invalid or missing."))
  end.

(** [func (g *Gox) call(endpoint string, params map[string]interface{})]:
    [id] and [nonce] are the values taken from the two generators. *)
Definition call (g : Gox) (endpoint : string) (params : option (gmap string goval))
    (id nonce : goval) : Gox * option error :=
  let params := default ∅ params in
  authenticatedSend g
    (<["call" := VString endpoint]>
    (<["item" := VString "BTC"]>
    (<["params" := VMap params]>
    (<["id" := id]>
    (<["nonce" := nonce]> ∅))))).

(** [func (g *Client) handleTrade(data []byte)]. *)
Definition handleTrade (g : Gox) (data : string) : Gox * list event :=
  let '(payload, err) := Unmarshal_TradePayload TradePayload_zero data in
  let '(g1, ev1) :=
    match err with
    | Some e =>
        let '(c, taken) := trySend (Errors g) e in
        (set_Errors g c, [SendError e taken])
    | None => (g, [])
    end in
  let '(c, taken) := trySend (Trades g1) payload in
  (set_Trades g1 c, ev1 ++ [SendTrade payload taken]).

(** [func PrettyPrintJson(p interface{}) []byte]. *)
Definition PrettyPrintJson (p : goval) : bytes :=
  match json_MarshalIndent p "" "  " with
  | (_, Some _) => bytesOfString "{}"
  | (formattedJson, None) => formattedJson
  end.

(** A map variable as an interface value; the nil map is encoded like nil. *)
Definition mapValue (m : option (gmap string goval)) : goval :=
  match m with
  | Some m => VMap m
  | None => VNil
  end.

(** [func (g *Gox) handle(data []byte)]. *)
Definition handle (g : Gox) (data : string) : Gox * list event :=
  let header := fst (Unmarshal_StreamHeader StreamHeader_zero data) in
  if String.eqb (Private header) "debug" then handleDebug g data
  else if String.eqb (Private header) "ticker" then handleTicker g data
  else if String.eqb (Private header) "trade" then handleTrade g data
  else if String.eqb (Private header) "depth" then handleDepth g data
  else if String.eqb (Private header) "result" then handleResult g data
  else
    let payload := fst (Unmarshal_map data) in
    (g, [Println (Private header);
         Println (string_of_list_byte (PrettyPrintJson (mapValue payload)))]).

(** The loop of [Start]: [for p := range g.messages() { g.handle(p) }], over
    the frames the reader passes on. *)
Fixpoint dispatch (g : Gox) (msgs : list string) : Gox * list event :=
  match msgs with
  | [] => (g, [])
  | p :: rest =>
      let '(g1, ev1) := handle g p in
      let '(g2, ev2) := dispatch g1 rest in
      (g2, ev1 ++ ev2)
  end.

Definition set_done (g : Gox) (c : chan bool) : Gox :=
  {| key := key g; secret := secret g; conn := conn g; Ticker := Ticker g;
     Info_ := Info_ g; Depth := Depth g; Trades := Trades g;
     Orders := Orders g; Errors := Errors g; done := c |}.

(** [func (g *Gox) Close()]: [g.done <- true]. *)
Definition Close (g : Gox) : option Gox :=
  option_map (set_done g) (send (done g) true).

End Client.

(** * Instances for concrete frames *)

(** A connection that keeps what is written to it, handlers that do nothing
    for the categories whose handlers live elsewhere, and the encoder at the
    empty object. *)
Definition logWrite (c : list goval) (v : goval) : list goval * option error :=
  (c ++ [v], None).

Definition marshalEmptyObject (v : goval) : bytes * option error :=
  (bytesOfString "{}", None).

Definition indentEmptyObject (v : goval) (prefix indent : string)
  : bytes * option error :=
  (bytesOfString "{}", None).

Definition noHandler (g : @Gox unit unit unit (list goval)) (data : string)
  : @Gox unit unit unit (list goval) * list event :=
  (g, []).

(** The client [NewWithConnection("", "", conn)] returns. *)
Definition freshClient : @Gox unit unit unit (list goval) :=
  {| key := Some []; secret := Some []; conn := [];
     Ticker := make 1; Info_ := make 1; Depth := make 1; Trades := make 1;
     Orders := make 1; Errors := make 10; done := make 1 |}.

(** The client [NewWithConnection("0a-1b", "AQI=", conn)] returns, and a
    client whose key was never set. *)
Definition keyedClient : @Gox unit unit unit (list goval) :=
  {| key := Some [x0a; x1b]; secret := Some [x01; x02]; conn := [];
     Ticker := make 1; Info_ := make 1; Depth := make 1; Trades := make 1;
     Orders := make 1; Errors := make 10; done := make 1 |}.

Definition unkeyedClient : @Gox unit unit unit (list goval) :=
  {| key := None; secret := Some [x01; x02]; conn := [];
     Ticker := make 1; Info_ := make 1; Depth := make 1; Trades := make 1;
     Orders := make 1; Errors := make 10; done := make 1 |}.

Definition demoHandle : @Gox unit unit unit (list goval) -> string ->
    @Gox unit unit unit (list goval) * list event :=
  handle map_to_list indentEmptyObject noHandler noHandler noHandler noHandler.

(** * Properties *)

Section Properties.

Context {TickerPayload DepthPayload Order Conn : Type}.

Variable mapRange : gmap string goval -> list (string * goval).
Variable json_Marshal : goval -> bytes * option error.
Variable json_MarshalIndent : goval -> string -> string -> bytes * option error.
Variable WriteJSON : Conn -> goval -> Conn * option error.

Local Abbreviation Gox := (@Gox TickerPayload DepthPayload Order Conn).

Variables handleDebug handleTicker handleDepth handleResult
  : Gox -> string -> Gox * list event.

Local Abbreviation Trade_decode := (Trade_decode mapRange).
Local Abbreviation Trade_UnmarshalJSON := (Trade_UnmarshalJSON mapRange).
Local Abbreviation Unmarshal_TradePayload := (Unmarshal_TradePayload mapRange).
Local Abbreviation handleTrade := (handleTrade mapRange).
Local Abbreviation authenticatedSend := (authenticatedSend json_Marshal WriteJSON).
Local Abbreviation PrettyPrintJson := (PrettyPrintJson json_MarshalIndent).
Local Abbreviation handle :=
  (handle mapRange json_MarshalIndent handleDebug handleTicker handleDepth
     handleResult).
Local Abbreviation dispatch :=
  (dispatch mapRange json_MarshalIndent handleDebug handleTicker handleDepth
     handleResult).

(** ** The library model against known values *)

(** FIPS 180-4, the digest of [abc]. *)
Example sha512_abc :
  hexString (sha512.Sum512 (bytesOfString "abc"))
  = "ddaf35a193617abacc417349ae20413112e6fa4e89a97ea20a9eeee64b55d39a2192992a274fc1a836ba3c23a3feebbd454d4423643ce80e2a9ac94fa54ca49f".
Proof. vm_compute. reflexivity. Qed.

(** RFC 4231, test case 2. *)
Example hmac_sha512_rfc4231 :
  hexString (hmac.Sum (bytesOfString "Jefe")
               (bytesOfString "what do ya want for nothing?"))
  = "164b7a7bfcf819e2e395fbe73b56e0a387bd64222e831fd610270cd7ea2505549758bf75c05a994a6d034f65f8f0e6fdcaeab1a34d4a6b4b636e070a38bce737".
Proof. vm_compute. reflexivity. Qed.

(** RFC 4648. *)
Example base64_foobar :
  base64.EncodeToString (bytesOfString "foobar") = "Zm9vYmFy"
  /\ base64.EncodeToString (bytesOfString "fooba") = "Zm9vYmE="
  /\ base64.EncodeToString (bytesOfString "foob") = "Zm9vYg==".
Proof. repeat split; vm_compute; reflexivity. Qed.

(** The float64 next to one tenth, and the largest finite one. *)
Example ParseFloat_values :
  float64.ParseFloat "0.1" = (S754_finite false 7205759403792794 (-56), None)
  /\ float64.ParseFloat "1.7976931348623157e308"
     = (S754_finite false 9007199254740991 971, None)
  /\ snd (float64.ParseFloat "1e999") = Some strconv.ErrRange
  /\ float64.toInt64 (fst (float64.ParseFloat "-1700000000.99")) = -1700000000.
Proof. repeat split; vm_compute; reflexivity. Qed.

Example ParseInt_values :
  strconv.ParseInt "-9223372036854775808" = (-9223372036854775808, None)
  /\ strconv.ParseInt "9223372036854775808"
     = (9223372036854775807, Some strconv.ErrRange)
  /\ strconv.ParseInt "12a" = (0, Some strconv.ErrSyntax)
  /\ strconv.ParseInt "" = (0, Some strconv.ErrSyntax).
Proof. repeat split; reflexivity. Qed.

Example Unix_epoch_seconds :
  time.unix (fst (time.Parse layout "1970-01-01 00:00:00")) = 0
  /\ time.unix (fst (time.Parse layout "2021-05-01 10:00:00")) = 1619863200
  /\ time.civil (time.Unix 1700000000 0) = ((2023, 11, 14), (22, 13, 20)).
Proof. repeat split; vm_compute; reflexivity. Qed.

(** ** Decimal integers *)

Lemma isDigit_spec c :
  strconv.isDigit c = true ->
  0 <= strconv.digitVal c <= 9 /\ strconv.digitChar (strconv.digitVal c) = c.
Proof.
  unfold strconv.isDigit, strconv.digitVal, strconv.digitChar. intros H.
  apply andb_prop in H as [H1 H2]. apply Z.leb_le in H1, H2.
  split; [lia|].
  replace (Z.of_N (N_of_ascii c) - 48 + 48) with (Z.of_N (N_of_ascii c)) by lia.
  rewrite N2Z.id. apply ascii_N_embedding.
Qed.

Lemma digit_mod n d : 0 <= d <= 9 -> (n * 10 + d) mod 10 = d.
Proof. intros. rewrite Z.add_comm, Z_mod_plus_full. apply Z.mod_small. lia. Qed.

Lemma parseUintLoop_ok_inv c s n v :
  strconv.parseUintLoop n (c :: s) = (v, None) ->
  strconv.isDigit c = true /\ n * 10 + strconv.digitVal c <= strconv.maxUint64 /\
  strconv.parseUintLoop (n * 10 + strconv.digitVal c) s = (v, None).
Proof.
  cbn [strconv.parseUintLoop].
  destruct (strconv.isDigit c); cbn [negb]; [|discriminate].
  destruct (_ <=? n); [discriminate|].
  destruct (strconv.maxUint64 <? _) eqn:E; [discriminate|].
  apply Z.ltb_ge in E. auto.
Qed.

Lemma parseUintLoop_lower ds : forall n v,
  0 <= n -> strconv.parseUintLoop n ds = (v, None) ->
  n * 10 ^ Z.of_nat (length ds) <= v <= strconv.maxUint64 \/ (ds = [] /\ v = n).
Proof.
  induction ds as [|c ds IH]; intros n v Hn H.
  - right. cbn in H. split; congruence.
  - left. apply parseUintLoop_ok_inv in H as (Hd & Hmax & H).
    apply isDigit_spec in Hd as [Hd _].
    destruct (IH (n * 10 + strconv.digitVal c) v ltac:(lia) H)
      as [[Hlo Hhi]|[-> ->]].
    + split; [|exact Hhi].
      rewrite length_cons, Nat2Z.inj_succ, Z.pow_succ_r by lia.
      pose proof (Z.pow_nonneg 10 (Z.of_nat (length ds)) ltac:(lia)). nia.
    + cbn [length]. change (Z.of_nat 1) with 1. lia.
Qed.

(** Printing [v] undoes the digit loop that read [v] on top of [n]. *)
Lemma formatLoop_parse ds : forall n v fuel acc,
  0 < n -> strconv.parseUintLoop n ds = (v, None) ->
  strconv.formatLoop (length ds + fuel) v acc = strconv.formatLoop fuel n (ds ++ acc).
Proof.
  induction ds as [|c ds IH]; intros n v fuel acc Hn H.
  - cbn in H. injection H as ->. reflexivity.
  - apply parseUintLoop_ok_inv in H as (Hd & Hmax & H).
    apply isDigit_spec in Hd as [Hd Hc].
    replace (length (c :: ds) + fuel)%nat with (length ds + S fuel)%nat
      by (cbn [length]; lia).
    rewrite (IH (n * 10 + strconv.digitVal c) v (S fuel) acc ltac:(lia) H).
    cbn [strconv.formatLoop]. rewrite digit_mod, Hc by lia.
    destruct (Z.ltb_spec (n * 10 + strconv.digitVal c) 10); [lia|].
    replace ((n * 10 + strconv.digitVal c) / 10) with n; [reflexivity|].
    apply Z.div_unique with (r := strconv.digitVal c); lia.
Qed.

Lemma canonicalDigits_inv s :
  strconv.canonicalDigits s = true ->
  exists c rest, s = c :: rest /\ strconv.isDigit c = true /\
                 (rest <> [] -> strconv.digitVal c <> 0).
Proof.
  destruct s as [|c [|c' rest]]; cbn [strconv.canonicalDigits]; [discriminate| |].
  - intros H. exists c, []. auto.
  - intros H. apply andb_prop in H as [H _]. apply andb_prop in H as [Hd Hz].
    exists c, (c' :: rest). split; [reflexivity|]. split; [exact Hd|].
    intros _ Hv. apply isDigit_spec in Hd as [_ Hc]. rewrite Hv in Hc.
    subst c. discriminate.
Qed.

Lemma pow10_fits k : 10 ^ Z.of_nat k <= strconv.maxUint64 -> (k < 20)%nat.
Proof.
  intros H. destruct (Nat.lt_ge_cases k 20) as [|Hk]; [assumption|exfalso].
  assert (10 ^ 20 <= 10 ^ Z.of_nat k) by (apply Z.pow_le_mono_r; lia).
  unfold strconv.maxUint64 in H. lia.
Qed.

Lemma format_ParseUint s v :
  strconv.canonicalDigits s = true -> strconv.ParseUint s = (v, None) ->
  0 <= v <= strconv.maxUint64 /\ strconv.formatLoop 20 v [] = s /\
  (v = 0 -> s = ["0"%char]).
Proof.
  intros Hc H. destruct (canonicalDigits_inv _ Hc) as (c & rest & -> & Hd & Hnz).
  unfold strconv.ParseUint in H. apply parseUintLoop_ok_inv in H as (_ & Hmax & H).
  apply isDigit_spec in Hd as [Hd Hch]. rewrite Z.mul_0_l, Z.add_0_l in *.
  destruct rest as [|c' rest].
  - cbn in H. injection H as <-. split; [lia|]. split.
    + cbn [strconv.formatLoop]. rewrite Z.mod_small, Hch by lia.
      destruct (Z.ltb_spec (strconv.digitVal c) 10); [reflexivity|lia].
    + intros Hv. rewrite Hv in Hch. subst c. reflexivity.
  - assert (Hpos : 0 < strconv.digitVal c)
      by (specialize (Hnz ltac:(discriminate)); lia).
    destruct (parseUintLoop_lower _ (strconv.digitVal c) v ltac:(lia) H)
      as [[Hlo Hhi]|[? _]]; [|discriminate].
    pose proof (Z.pow_pos_nonneg 10 (Z.of_nat (length (c' :: rest)))
                  ltac:(lia) ltac:(lia)) as Hp.
    assert (Hlen : (length (c' :: rest) < 20)%nat) by (apply pow10_fits; nia).
    split; [nia|]. split; [|nia].
    replace 20%nat with (length (c' :: rest) + S (19 - length (c' :: rest)))%nat
      by lia.
    rewrite (formatLoop_parse _ _ _ _ [] Hpos H).
    cbn [strconv.formatLoop]. rewrite Z.mod_small, Hch by lia.
    destruct (Z.ltb_spec (strconv.digitVal c) 10); [|lia].
    rewrite app_nil_r. reflexivity.
Qed.

Lemma parseUintLoop_range ds : forall n v,
  strconv.parseUintLoop n ds = (v, Some strconv.ErrRange) -> v = strconv.maxUint64.
Proof.
  induction ds as [|c ds IH]; intros n v; cbn [strconv.parseUintLoop];
    [discriminate|].
  destruct (negb _); [discriminate|].
  destruct (_ <=? n); [congruence|].
  destruct (strconv.maxUint64 <? _); [congruence|]. apply IH.
Qed.

Lemma ParseUint_range s v :
  strconv.ParseUint s = (v, Some strconv.ErrRange) -> v = strconv.maxUint64.
Proof. destruct s; [discriminate|]. apply parseUintLoop_range. Qed.

(** Reading a canonical rendering and printing the result gives it back. *)
Lemma FormatInt_ParseInt s n :
  strconv.canonical s = true -> strconv.ParseInt s = (n, None) ->
  strconv.FormatInt n = s.
Proof.
  unfold strconv.canonical, strconv.ParseInt, strconv.FormatInt. intros Hc H.
  rewrite <- (string_of_list_ascii_of_string s). f_equal.
  destruct (list_ascii_of_string s) as [|c rest]; [discriminate|].
  cbn [strconv.canonicalList strconv.ParseIntList] in *.
  destruct (Ascii.eqb_spec c "-") as [->|Hminus].
  - cbn in H.
    apply andb_prop in Hc as [Hc Hz].
    destruct (strconv.ParseUint rest) as [un [[]|]] eqn:E; try discriminate.
    + apply ParseUint_range in E. subst un. discriminate.
    + destruct (format_ParseUint _ _ Hc E) as ((Hlo & Hhi) & Hf & Hzero).
      cbn [negb andb] in H. destruct (2 ^ 63 <? un); [discriminate|].
      injection H as <-.
      assert (un <> 0).
      { intros ->. rewrite (Hzero eq_refl) in Hz. discriminate. }
      unfold strconv.FormatIntList. destruct (Z.ltb_spec (- un) 0); [|lia].
      rewrite Z.opp_involutive, Hf. reflexivity.
  - destruct (canonicalDigits_inv _ Hc) as (c0 & r0 & Heq & Hd & _).
    injection Heq as <- <-.
    destruct (Ascii.eqb_spec c "+") as [->|Hplus]; [discriminate|].
    destruct (strconv.ParseUint (c :: rest)) as [un [[]|]] eqn:E; try discriminate.
    + apply ParseUint_range in E. subst un. discriminate.
    + destruct (format_ParseUint _ _ Hc E) as ((Hlo & Hhi) & Hf & _).
      cbn [negb andb] in H. destruct (2 ^ 63 <=? un); [discriminate|].
      injection H as <-.
      unfold strconv.FormatIntList. destruct (Z.ltb_spec un 0); [lia|]. exact Hf.
Qed.

(** ** What [FormatInt] prints is canonical *)

Lemma digitChar_spec d :
  0 <= d <= 9 ->
  strconv.isDigit (strconv.digitChar d) = true /\
  (strconv.digitChar d = "0"%char -> d = 0).
Proof.
  intros Hd.
  assert (d = 0 \/ d = 1 \/ d = 2 \/ d = 3 \/ d = 4 \/ d = 5 \/ d = 6 \/ d = 7
          \/ d = 8 \/ d = 9) as Hcases by lia.
  repeat destruct Hcases as [->|Hcases]; try subst d;
    (split; [reflexivity|]); intros H; try reflexivity; discriminate H.
Qed.

Lemma formatLoop_shape fuel : forall u acc,
  (0 < fuel)%nat -> 0 <= u < 10 ^ Z.of_nat fuel ->
  exists c ds,
    strconv.formatLoop fuel u acc = c :: ds ++ acc /\
    strconv.isDigit c = true /\ forallb strconv.isDigit ds = true /\
    (c = "0"%char -> u = 0) /\ (u < 10 -> ds = []).
Proof.
  induction fuel as [|fuel IH]; intros u acc Hfuel Hu; [lia|].
  cbn [strconv.formatLoop].
    assert (Hm : 0 <= u mod 10 <= 9) by (pose proof (Z.mod_pos_bound u 10); lia).
    destruct (digitChar_spec _ Hm) as [Hdig Hzero].
    destruct (Z.ltb_spec u 10) as [Hlt|Hge].
    + exists (strconv.digitChar (u mod 10)), []. cbn [app].
      repeat split; try assumption; try reflexivity.
      rewrite Z.mod_small in Hzero |- * by lia. exact Hzero.
    + assert (Hq : 0 <= u / 10 < 10 ^ Z.of_nat fuel).
      { rewrite Nat2Z.inj_succ, Z.pow_succ_r in Hu by lia.
        split; [apply Z.div_pos; lia|].
        apply Z.div_lt_upper_bound; lia. }
      assert (Hone : 1 <= u / 10) by (apply Z.div_le_lower_bound; lia).
      assert (Hf : (0 < fuel)%nat).
      { destruct fuel; [cbn in Hq; lia|lia]. }
      destruct (IH (u / 10) (strconv.digitChar (u mod 10) :: acc) Hf Hq)
        as (c & ds & Heq & Hc & Hds & Hcz & _).
      exists c, (ds ++ [strconv.digitChar (u mod 10)]).
      rewrite Heq, <- app_assoc. cbn [app].
      repeat split; try assumption.
      * rewrite forallb_app, Hds. cbn. rewrite Hdig. reflexivity.
      * intros Hc0. specialize (Hcz Hc0). lia.
      * lia.
Qed.

Lemma canonicalDigits_formatLoop u :
  0 <= u < 10 ^ 20 -> strconv.canonicalDigits (strconv.formatLoop 20 u []) = true.
Proof.
  intros Hu.
  destruct (formatLoop_shape 20 u [] ltac:(lia) Hu) as (c & ds & Heq & Hc & Hds & Hcz & Hone).
  rewrite Heq, app_nil_r. destruct ds as [|d ds]; cbn [strconv.canonicalDigits].
  - exact Hc.
  - cbn [forallb]. rewrite Hc. cbn [andb]. cbn [forallb] in Hds. rewrite Hds.
    rewrite andb_true_r. destruct (Ascii.eqb_spec c "0") as [->|]; [|reflexivity].
    exfalso. specialize (Hcz eq_refl). subst u.
    specialize (Hone ltac:(lia)). discriminate.
Qed.

Lemma canonical_FormatInt n :
  - 10 ^ 20 < n < 10 ^ 20 -> strconv.canonical (strconv.FormatInt n) = true.
Proof.
  intros Hn. unfold strconv.canonical, strconv.FormatInt.
  rewrite list_ascii_of_string_of_list_ascii. unfold strconv.FormatIntList.
  destruct (Z.ltb_spec n 0) as [Hneg|Hpos].
  - cbn [strconv.canonicalList]. change (Ascii.eqb "-" "-") with true. cbv iota.
    rewrite canonicalDigits_formatLoop by lia. cbn [andb].
    destruct (formatLoop_shape 20 (- n) [] ltac:(lia) ltac:(lia))
      as (c & ds & Heq & Hc & Hds & Hcz & Hone).
    rewrite Heq, app_nil_r. destruct ds; [|reflexivity].
    destruct (Ascii.eqb_spec c "0") as [->|]; [|reflexivity].
    specialize (Hcz eq_refl). lia.
  - pose proof (canonicalDigits_formatLoop n ltac:(lia)) as Hcan.
    destruct (formatLoop_shape 20 n [] ltac:(lia) ltac:(lia))
      as (c & ds & Heq & Hc & Hds & Hcz & Hone).
    rewrite Heq, app_nil_r in *. cbn [strconv.canonicalList].
    destruct (Ascii.eqb_spec c "-") as [->|]; [discriminate Hc|exact Hcan].
Qed.

Lemma ParseInt_bounds s n :
  strconv.ParseInt s = (n, None) -> - 2 ^ 63 <= n < 2 ^ 63.
Proof.
  unfold strconv.ParseInt. destruct (list_ascii_of_string s) as [|c rest];
    [discriminate|].
  cbn [strconv.ParseIntList].
  assert (Hpos : forall l un, strconv.ParseUint l = (un, None) -> 0 <= un).
  { intros [|c' l] un H; [discriminate|]. unfold strconv.ParseUint in H.
    destruct (parseUintLoop_lower _ 0 un ltac:(lia) H) as [[? ?]|[? ?]]; lia. }
  destruct (if Ascii.eqb c "+" then (false, rest)
            else if Ascii.eqb c "-" then (true, rest) else (false, c :: rest))
    as [neg l].
  destruct (strconv.ParseUint l) as [un [[]|]] eqn:E; try discriminate.
  - apply ParseUint_range in E. subst un. destruct neg; discriminate.
  - specialize (Hpos _ _ E).
    destruct neg; cbn [negb andb].
    + destruct (Z.ltb_spec (2 ^ 63) un); [discriminate|]. intros [= <-]. lia.
    + destruct (Z.leb_spec (2 ^ 63) un); [discriminate|]. intros [= <-]. lia.
Qed.

(** The round trip through int64 gives the string back exactly when the
    string is canonical. *)
Lemma FormatInt_ParseInt_iff s n :
  strconv.ParseInt s = (n, None) ->
  (strconv.FormatInt n = s <-> strconv.canonical s = true).
Proof.
  intros H. split.
  - intros <-. apply canonical_FormatInt. apply ParseInt_bounds in H. lia.
  - intros Hc. apply FormatInt_ParseInt; assumption.
Qed.

(** ** The fuel of the JSON scanner *)

Section JsonFuel.
Import json.

Lemma skipSpace_length s : (length (skipSpace s) <= length s)%nat.
Proof.
  induction s as [|c s IH]; cbn; [lia|]. destruct (isSpace c); cbn; lia.
Qed.

Lemma scanString_length s : forall acc us rest,
  scanString s acc = Some (us, rest) -> (length rest < length s)%nat.
Proof.
  induction s as [s IH] using (induction_ltof1 _ (@length ascii)).
  unfold ltof in IH. intros acc us rest H.
  destruct s as [|c r]; [discriminate|]. cbn [scanString] in H.
  destruct (Ascii.eqb c "034").
  - injection H as _ <-. cbn. lia.
  - destruct (Ascii.eqb c "\").
    + destruct r as [|e r1]; [discriminate|].
      destruct (Ascii.eqb e "u").
      * destruct r1 as [|h1 [|h2 [|h3 [|h4 r2]]]]; try discriminate.
        destruct (hex4 h1 h2 h3 h4); [|discriminate].
        apply IH in H; cbn in *; lia.
      * destruct (simpleEscape e); [|discriminate].
        apply IH in H; cbn in *; lia.
    + destruct (utf8.byteZ c <? 32); [discriminate|].
      apply IH in H; cbn in *; lia.
Qed.

Lemma parseString_length s k rest :
  parseString s = Some (k, rest) -> (length rest < length s)%nat.
Proof.
  unfold parseString. destruct (scanString s []) as [[us r]|] eqn:E; [|discriminate].
  intros [= _ <-]. eapply scanString_length; eauto.
Qed.

Lemma spanDigits_length s : forall ds rest,
  float64.spanDigits s = (ds, rest) -> length s = (length ds + length rest)%nat.
Proof.
  induction s as [|c s IH]; intros ds rest; cbn [float64.spanDigits].
  - intros [= <- <-]. reflexivity.
  - destruct (strconv.isDigit c).
    + destruct (float64.spanDigits s) as [ds' rest'] eqn:E.
      intros [= <- <-]. specialize (IH _ _ eq_refl). cbn. lia.
    + intros [= <- <-]. reflexivity.
Qed.

Lemma scanDigits1_length s ds rest :
  scanDigits1 s = Some (ds, rest) -> (length rest < length s)%nat.
Proof.
  unfold scanDigits1. destruct (float64.spanDigits s) as [[|d ds'] rest'] eqn:E;
    [discriminate|].
  intros [= <- <-]. apply spanDigits_length in E. cbn in E. lia.
Qed.

Lemma dropPrefix_length p : forall s r,
  dropPrefix p s = Some r -> (length r <= length s)%nat.
Proof.
  induction p as [|a p IH]; intros s r; cbn [dropPrefix].
  - intros [= <-]. lia.
  - destruct s as [|b s]; [discriminate|].
    destruct (Ascii.eqb a b); [|discriminate].
    intros H. apply IH in H. cbn. lia.
Qed.

Lemma scanInt_length s ip rest :
  scanInt s = Some (ip, rest) -> (length rest < length s)%nat.
Proof.
  unfold scanInt. destruct s as [|c r]; [discriminate|].
  destruct (Ascii.eqb c "0").
  - intros [= _ <-]. cbn. lia.
  - destruct (strconv.isDigit c); [|discriminate]. apply scanDigits1_length.
Qed.

Lemma scanFrac_length s fp rest :
  scanFrac s = Some (fp, rest) -> (length rest <= length s)%nat.
Proof.
  unfold scanFrac. destruct s as [|d r].
  - intros [= _ <-]. lia.
  - destruct (Ascii.eqb d ".").
    + destruct (scanDigits1 r) as [[ds s']|] eqn:E; [|discriminate].
      intros [= _ <-]. apply scanDigits1_length in E. cbn. lia.
    + intros [= _ <-]. lia.
Qed.

Lemma scanExp_length s ep rest :
  scanExp s = Some (ep, rest) -> (length rest <= length s)%nat.
Proof.
  unfold scanExp. destruct s as [|e r].
  - intros [= _ <-]. lia.
  - destruct (Ascii.eqb e "e" || Ascii.eqb e "E").
    + destruct r as [|sg r']; [discriminate|].
      destruct (Ascii.eqb sg "+" || Ascii.eqb sg "-").
      * destruct (scanDigits1 r') as [[ds s']|] eqn:E; [|discriminate].
        intros [= _ <-]. apply scanDigits1_length in E. cbn. lia.
      * destruct (scanDigits1 (sg :: r')) as [[ds s']|] eqn:E; [|discriminate].
        intros [= _ <-]. apply scanDigits1_length in E. cbn in *. lia.
    + intros [= _ <-]. lia.
Qed.

Lemma scanNumber_length s lit rest :
  scanNumber s = Some (lit, rest) -> (length rest < length s)%nat.
Proof.
  unfold scanNumber.
  set (p := match s with
            | c :: r => if Ascii.eqb c "-" then ([c], r) else ([], s)
            | [] => ([], s)
            end).
  assert (Hp : (length (snd p) <= length s)%nat).
  { subst p. destruct s as [|c r]; cbn; [lia|].
    destruct (Ascii.eqb c "-"); cbn; lia. }
  destruct p as [sign s1]. cbn [snd] in Hp.
  destruct (scanInt s1) as [[ip s2]|] eqn:E1; [|discriminate].
  destruct (scanFrac s2) as [[fp s3]|] eqn:E2; [|discriminate].
  destruct (scanExp s3) as [[ep s4]|] eqn:E3; [|discriminate].
  intros [= _ <-].
  apply scanInt_length in E1. apply scanFrac_length in E2.
  apply scanExp_length in E3. lia.
Qed.

(** One step of each of the three parsers. *)
Lemma parseElements_S fuel depth s acc :
  parseElements (S fuel) depth s acc =
  match parseValue fuel depth s with
  | Some (v, rest) =>
      match skipSpace rest with
      | c :: r =>
          if Ascii.eqb c "," then parseElements fuel depth r (v :: acc)
          else if Ascii.eqb c "]" then Some (JArray (rev (v :: acc)), r)
          else None
      | [] => None
      end
  | None => None
  end.
Proof. reflexivity. Qed.

Lemma parseMembers_S fuel depth s acc :
  parseMembers (S fuel) depth s acc =
  match skipSpace s with
  | q :: r =>
      if Ascii.eqb q "034" then
        match parseString r with
        | Some (k, rest) =>
            match skipSpace rest with
            | c :: r1 =>
                if Ascii.eqb c ":" then
                  match parseValue fuel depth r1 with
                  | Some (v, rest') =>
                      match skipSpace rest' with
                      | d :: r2 =>
                          if Ascii.eqb d ","
                          then parseMembers fuel depth r2 ((k, v) :: acc)
                          else if Ascii.eqb d "}"
                          then Some (JObject (rev ((k, v) :: acc)), r2)
                          else None
                      | [] => None
                      end
                  | None => None
                  end
                else None
            | [] => None
            end
        | None => None
        end
      else None
  | [] => None
  end.
Proof. reflexivity. Qed.

Lemma parseValue_S fuel depth s :
  parseValue (S fuel) depth s =
  match skipSpace s with
  | [] => None
  | c :: r =>
      if Ascii.eqb c "{" then
        if (maxNestingDepth <? N.succ depth)%N then None
        else
          match skipSpace r with
          | c' :: r' =>
              if Ascii.eqb c' "}" then Some (JObject [], r')
              else parseMembers fuel (N.succ depth) r []
          | [] => None
          end
      else if Ascii.eqb c "[" then
        if (maxNestingDepth <? N.succ depth)%N then None
        else
          match skipSpace r with
          | c' :: r' =>
              if Ascii.eqb c' "]" then Some (JArray [], r')
              else parseElements fuel (N.succ depth) r []
          | [] => None
          end
      else if Ascii.eqb c "034" then
        match parseString r with
        | Some (str, rest) => Some (JString str, rest)
        | None => None
        end
      else if Ascii.eqb c "t" then
        option_map (pair (JBool true)) (dropPrefix (list_ascii_of_string "rue") r)
      else if Ascii.eqb c "f" then
        option_map (pair (JBool false)) (dropPrefix (list_ascii_of_string "alse") r)
      else if Ascii.eqb c "n" then
        option_map (pair JNull) (dropPrefix (list_ascii_of_string "ull") r)
      else
        match scanNumber (c :: r) with
        | Some (lit, rest) => Some (JNumber (string_of_list_ascii lit), rest)
        | None => None
        end
  end.
Proof. reflexivity. Qed.

(** A result does not depend on the fuel: what one fuel gives, every fuel
    from the number of characters read on gives too. *)
Lemma parse_fuel fuel :
  (forall d s v rest, parseValue fuel d s = Some (v, rest) ->
     sufficient s rest (fun f => parseValue f d s) v) /\
  (forall d s acc v rest, parseElements fuel d s acc = Some (v, rest) ->
     sufficient s rest (fun f => parseElements f d s acc) v) /\
  (forall d s acc v rest, parseMembers fuel d s acc = Some (v, rest) ->
     sufficient s rest (fun f => parseMembers f d s acc) v).
Proof.
  induction fuel as [|fuel (IHv & IHe & IHm)]; [repeat split; discriminate|].
  unfold sufficient in *.
  split; [|split].
  - intros d s v rest. rewrite parseValue_S.
    pose proof (skipSpace_length s) as Hs.
    destruct (skipSpace s) as [|c r] eqn:Es; [discriminate|]. cbn [length] in Hs.
    destruct (Ascii.eqb c "{") eqn:E1.
    { destruct (maxNestingDepth <? N.succ d)%N eqn:Ed; [discriminate|].
      pose proof (skipSpace_length r) as Hr.
      destruct (skipSpace r) as [|c' r'] eqn:Er; [discriminate|]. cbn [length] in Hr.
      destruct (Ascii.eqb c' "}") eqn:E2.
      - intros [= <- <-]. split; [lia|]. intros [|f'] Hf; [lia|].
        rewrite parseValue_S, Es, E1, Ed, Er, E2. reflexivity.
      - intros H. apply IHm in H as [Hl Hf']. split; [lia|].
        intros [|f'] Hf; [lia|].
        rewrite parseValue_S, Es, E1, Ed, Er, E2. apply Hf'. lia. }
    destruct (Ascii.eqb c "[") eqn:E2.
    { destruct (maxNestingDepth <? N.succ d)%N eqn:Ed; [discriminate|].
      pose proof (skipSpace_length r) as Hr.
      destruct (skipSpace r) as [|c' r'] eqn:Er; [discriminate|]. cbn [length] in Hr.
      destruct (Ascii.eqb c' "]") eqn:E3.
      - intros [= <- <-]. split; [lia|]. intros [|f'] Hf; [lia|].
        rewrite parseValue_S, Es, E1, E2, Ed, Er, E3. reflexivity.
      - intros H. apply IHe in H as [Hl Hf']. split; [lia|].
        intros [|f'] Hf; [lia|].
        rewrite parseValue_S, Es, E1, E2, Ed, Er, E3. apply Hf'. lia. }
    intros H.
    assert (Hl : (length rest < length s)%nat).
    { destruct (Ascii.eqb c "034").
      { destruct (parseString r) as [[str rest0]|] eqn:Ep; [|discriminate].
        injection H as _ <-. apply parseString_length in Ep. lia. }
      destruct (Ascii.eqb c "t").
      { destruct (dropPrefix _ r) as [r0|] eqn:Ep; [|discriminate].
        injection H as _ <-. apply dropPrefix_length in Ep. lia. }
      destruct (Ascii.eqb c "f").
      { destruct (dropPrefix _ r) as [r0|] eqn:Ep; [|discriminate].
        injection H as _ <-. apply dropPrefix_length in Ep. lia. }
      destruct (Ascii.eqb c "n").
      { destruct (dropPrefix _ r) as [r0|] eqn:Ep; [|discriminate].
        injection H as _ <-. apply dropPrefix_length in Ep. lia. }
      destruct (scanNumber (c :: r)) as [[lit rest0]|] eqn:Ep; [|discriminate].
      injection H as _ <-. apply scanNumber_length in Ep. cbn [length] in Ep. lia. }
    split; [exact Hl|]. intros [|f'] Hf; [lia|].
    rewrite parseValue_S, Es, E1, E2. exact H.
  - intros d s acc v rest. rewrite parseElements_S.
    destruct (parseValue fuel d s) as [[v0 rest0]|] eqn:Ev; [|discriminate].
    apply IHv in Ev as [Hl0 Hf0].
    pose proof (skipSpace_length rest0) as Hr.
    destruct (skipSpace rest0) as [|c r] eqn:Er; [discriminate|]. cbn [length] in Hr.
    destruct (Ascii.eqb c ",") eqn:E1.
    + intros H. apply IHe in H as [Hl Hf']. split; [lia|].
      intros [|f'] Hf; [lia|].
      rewrite parseElements_S, Hf0 by lia. rewrite Er, E1. apply Hf'. lia.
    + destruct (Ascii.eqb c "]") eqn:E2; [|discriminate].
      intros [= <- <-]. split; [lia|]. intros [|f'] Hf; [lia|].
      rewrite parseElements_S, Hf0 by lia. rewrite Er, E1, E2. reflexivity.
  - intros d s acc v rest. rewrite parseMembers_S.
    pose proof (skipSpace_length s) as Hs.
    destruct (skipSpace s) as [|q r] eqn:Es; [discriminate|]. cbn [length] in Hs.
    destruct (Ascii.eqb q "034") eqn:E1; [|discriminate].
    destruct (parseString r) as [[k rest0]|] eqn:Ep; [|discriminate].
    pose proof (parseString_length _ _ _ Ep) as Hk.
    pose proof (skipSpace_length rest0) as Hr0.
    destruct (skipSpace rest0) as [|c r1] eqn:Er0; [discriminate|].
    cbn [length] in Hr0.
    destruct (Ascii.eqb c ":") eqn:E2; [|discriminate].
    destruct (parseValue fuel d r1) as [[v0 rest1]|] eqn:Ev; [|discriminate].
    apply IHv in Ev as [Hl1 Hf1].
    pose proof (skipSpace_length rest1) as Hr1.
    destruct (skipSpace rest1) as [|c2 r2] eqn:Er1; [discriminate|].
    cbn [length] in Hr1.
    destruct (Ascii.eqb c2 ",") eqn:E3.
    + intros H. apply IHm in H as [Hl Hf']. split; [lia|].
      intros [|f'] Hf; [lia|].
      rewrite parseMembers_S, Es, E1, Ep, Er0, E2, Hf1 by lia.
      rewrite Er1, E3. apply Hf'. lia.
    + destruct (Ascii.eqb c2 "}") eqn:E4; [|discriminate].
      intros [= <- <-]. split; [lia|]. intros [|f'] Hf; [lia|].
      rewrite parseMembers_S, Es, E1, Ep, Er0, E2, Hf1 by lia.
      rewrite Er1, E3, E4. reflexivity.
Qed.

(** The fuel [parse] gives is enough: a text that holds one value for some
    fuel is a valid text. *)
Lemma parse_complete fuel data v rest :
  parseValue fuel 0 (list_ascii_of_string data) = Some (v, rest) ->
  skipSpace rest = [] ->
  parse data = Some v.
Proof.
  intros H Hr. unfold parse.
  apply (proj1 (parse_fuel fuel)) in H as [_ Hf].
  rewrite Hf by lia. rewrite Hr. reflexivity.
Qed.

(** So a text that [parse] rejects holds no value followed by white space
    alone, however long the scanner may run. *)
Lemma parse_None_any_fuel data :
  parse data = None ->
  forall fuel v rest,
    parseValue fuel 0 (list_ascii_of_string data) = Some (v, rest) ->
    skipSpace rest <> [].
Proof.
  intros Hn fuel v rest H Hr.
  rewrite (parse_complete fuel data v rest H Hr) in Hn. discriminate.
Qed.

End JsonFuel.


(** ** The loop of [Trade.UnmarshalJSON] *)

Lemma Trade_entry_error t k v : snd (Trade_entry t k v) = entryError k v.
Proof.
  unfold Trade_entry, entryError, ParseInt.
  destruct v; try reflexivity.
  - destruct (String.eqb k "date"); reflexivity.
  - repeat match goal with
           | |- context [String.eqb k ?x] => destruct (String.eqb_spec k x); subst
           end; try discriminate; cbn [orb]; try reflexivity;
      destruct (strconv.ParseInt s); reflexivity.
Qed.

Lemma Trade_filled_empty t : Trade_filled t ∅ = t.
Proof. destruct t. reflexivity. Qed.

Ltac solve_lookup :=
  rewrite lookup_insert; case_decide; subst; try congruence;
  repeat match goal with H : _ !! _ = None |- _ => rewrite H end;
  cbn; try match goal with E : strconv.ParseInt _ = _ |- _ => rewrite E end;
  reflexivity.

Lemma Trade_entry_filled t k v (m : gmap string goval) :
  m !! k = None ->
  Trade_filled (fst (Trade_entry t k v)) m = Trade_filled t (<[k := v]> m).
Proof.
  intros Hk. unfold Trade_entry, ParseInt.
  destruct v;
    repeat match goal with
           | |- context [String.eqb k ?x] => destruct (String.eqb_spec k x); subst
           end; try discriminate;
    try destruct (strconv.ParseInt _) as [parsed perr] eqn:Eparse;
    cbn [fst]; unfold Trade_filled; f_equal; cbn; solve_lookup.
Qed.

Lemma Trade_range_filled l : forall t,
  NoDup l.*1 -> snd (Trade_range t l) = None ->
  fst (Trade_range t l) = Trade_filled t (list_to_map l).
Proof.
  induction l as [|[k v] l IH]; intros t Hnd Hok.
  - cbn. symmetry. apply Trade_filled_empty.
  - cbn [Trade_range] in *. apply NoDup_cons in Hnd as [Hk Hnd].
    pose proof (Trade_entry_filled t k v (list_to_map l)
                  (not_elem_of_list_to_map_1 _ _ Hk)) as Hstep.
    destruct (Trade_entry t k v) as [t1 [e|]]; [discriminate|].
    rewrite (IH t1 Hnd Hok). exact Hstep.
Qed.

Lemma Trade_range_ok l : forall t,
  (forall k v, (k, v) ∈ l -> entryError k v = None) ->
  snd (Trade_range t l) = None.
Proof.
  induction l as [|[k v] l IH]; intros t Hall; [reflexivity|].
  cbn [Trade_range]. pose proof (Trade_entry_error t k v) as He.
  rewrite (Hall k v) in He by left.
  destruct (Trade_entry t k v) as [t1 e]. cbn in He. subst e.
  apply IH. intros k' v' Hin. apply Hall. right. exact Hin.
Qed.

Lemma Trade_range_err l : forall t err,
  snd (Trade_range t l) = Some err ->
  exists k v, (k, v) ∈ l /\ entryError k v = Some err.
Proof.
  induction l as [|[k v] l IH]; intros t err; [discriminate|].
  cbn [Trade_range]. pose proof (Trade_entry_error t k v) as He.
  destruct (Trade_entry t k v) as [t1 [e|]]; cbn in He.
  - intros [= ->]. exists k, v. split; [left|congruence].
  - intros H. destruct (IH _ _ H) as (k' & v' & Hin & Herr).
    exists k', v'. split; [right; exact Hin|exact Herr].
Qed.

Lemma Trade_range_ok_inv l : forall t,
  snd (Trade_range t l) = None ->
  forall k v, (k, v) ∈ l -> entryError k v = None.
Proof.
  induction l as [|[k' v'] l IH]; intros t Hok k v Hin; [inversion Hin|].
  cbn [Trade_range] in Hok. pose proof (Trade_entry_error t k' v') as He.
  destruct (Trade_entry t k' v') as [t1 [e1|]]; [discriminate|]. cbn in He.
  apply elem_of_cons in Hin as [[= -> ->]|Hin]; [congruence|].
  exact (IH t1 Hok k v Hin).
Qed.

Lemma entryError_None k vv :
  k = "amount_int" \/ k = "price_int" ->
  entryError k (VString vv) = None -> snd (strconv.ParseInt vv) = None.
Proof.
  unfold entryError, ParseInt. intros [-> | ->]; cbn;
    destruct (strconv.ParseInt vv) as [n [e|]]; cbn; congruence.
Qed.

Lemma entryError_inv k v err :
  entryError k v = Some err ->
  exists vv e, (k = "amount_int" \/ k = "price_int") /\ v = VString vv /\
               snd (strconv.ParseInt vv) = Some e /\ err = NumError "ParseInt" vv e.
Proof.
  unfold entryError, ParseInt. destruct v; try discriminate.
  destruct (String.eqb_spec k "amount_int"), (String.eqb_spec k "price_int");
    cbn [orb]; try discriminate;
    destruct (strconv.ParseInt s) as [pn [pe|]] eqn:E; cbn; try discriminate;
    intros [= <-]; exists s, pe; rewrite E; auto.
Qed.

Lemma Trade_entry_Amount t k v :
  (forall s, (k, v) <> ("amount_int", VString s)) ->
  Amount (fst (Trade_entry t k v)) = Amount t.
Proof.
  intros Hne. unfold Trade_entry, ParseInt.
  destruct v;
    repeat match goal with
           | |- context [String.eqb k ?x] => destruct (String.eqb_spec k x); subst
           end; try discriminate;
    try destruct (strconv.ParseInt _) as [parsed perr];
    try reflexivity.
  exfalso. eapply Hne. reflexivity.
Qed.

Lemma Trade_entry_Price t k v :
  (forall s, (k, v) <> ("price_int", VString s)) ->
  Price (fst (Trade_entry t k v)) = Price t.
Proof.
  intros Hne. unfold Trade_entry, ParseInt.
  destruct v;
    repeat match goal with
           | |- context [String.eqb k ?x] => destruct (String.eqb_spec k x); subst
           end; try discriminate;
    try destruct (strconv.ParseInt _) as [parsed perr];
    try reflexivity.
  exfalso. eapply Hne. reflexivity.
Qed.

(** A field survives a run, complete or cut short, that meets no string
    under the field's key. *)
Lemma Trade_range_Amount l : forall t,
  (forall s, ("amount_int", VString s) ∉ l) ->
  Amount (fst (Trade_range t l)) = Amount t.
Proof.
  induction l as [|[k v] l IH]; intros t Hno; [reflexivity|].
  cbn [Trade_range].
  assert (Hkv : Amount (fst (Trade_entry t k v)) = Amount t).
  { apply Trade_entry_Amount. intros s Heq. apply (Hno s). rewrite <- Heq. left. }
  destruct (Trade_entry t k v) as [t1 [e|]]; cbn [fst] in *; [exact Hkv|].
  rewrite IH; [exact Hkv|]. intros s Hin. apply (Hno s). right. exact Hin.
Qed.

Lemma Trade_range_Price l : forall t,
  (forall s, ("price_int", VString s) ∉ l) ->
  Price (fst (Trade_range t l)) = Price t.
Proof.
  induction l as [|[k v] l IH]; intros t Hno; [reflexivity|].
  cbn [Trade_range].
  assert (Hkv : Price (fst (Trade_entry t k v)) = Price t).
  { apply Trade_entry_Price. intros s Heq. apply (Hno s). rewrite <- Heq. left. }
  destruct (Trade_entry t k v) as [t1 [e|]]; cbn [fst] in *; [exact Hkv|].
  rewrite IH; [exact Hkv|]. intros s Hin. apply (Hno s). right. exact Hin.
Qed.

(** ** The order of a [range] loop *)

Lemma integersOk_spec (m : gmap string goval) :
  integersOk m = true <->
  forall k vv, k = "amount_int" \/ k = "price_int" ->
               m !! k = Some (VString vv) -> snd (strconv.ParseInt vv) = None.
Proof.
  unfold integersOk, integerOk. split.
  - intros H k vv Hk Hl. apply andb_prop in H as [Ha Hp].
    destruct Hk as [-> | ->]; rewrite Hl in *;
      destruct (snd (strconv.ParseInt vv)); congruence.
  - intros H. apply andb_true_intro. split.
    + destruct (m !! "amount_int") as [[]|] eqn:E; try reflexivity.
      rewrite (H "amount_int" s (or_introl eq_refl) E). reflexivity.
    + destruct (m !! "price_int") as [[]|] eqn:E; try reflexivity.
      rewrite (H "price_int" s (or_intror eq_refl) E). reflexivity.
Qed.

Section AnyOrder.

(** The entries of [m] in some order. *)
Variable m : gmap string goval.
Variable l : list (string * goval).
Hypothesis l_perm : l ≡ₚ map_to_list m.

Lemma perm_elem k v : (k, v) ∈ l <-> m !! k = Some v.
Proof. rewrite l_perm. apply elem_of_map_to_list. Qed.

Lemma perm_NoDup : NoDup l.*1.
Proof. rewrite l_perm. apply NoDup_fst_map_to_list. Qed.

Lemma perm_to_map : list_to_map l = m.
Proof.
  rewrite (list_to_map_proper _ _ perm_NoDup l_perm).
  apply list_to_map_to_list.
Qed.

(** The loop against its closed form: without a rejected integer string the
    run goes through and leaves [Trade_filled], in whatever order the entries
    are visited. *)
Lemma Trade_range_perm t :
  integersOk m = true -> Trade_range t l = (Trade_filled t m, None).
Proof.
  intros Hok. pose proof (proj1 (integersOk_spec m) Hok) as Hall.
  assert (Hnone : snd (Trade_range t l) = None).
  { apply Trade_range_ok. intros k v Hin. apply perm_elem in Hin.
    destruct (entryError k v) as [err|] eqn:E; [exfalso|reflexivity].
    apply entryError_inv in E as (vv & e & Hk & -> & He & _).
    rewrite (Hall k vv Hk Hin) in He. discriminate. }
  pose proof (Trade_range_filled _ t perm_NoDup Hnone) as Hf.
  rewrite perm_to_map in Hf.
  destruct (Trade_range t l) as [r e]. cbn in *. congruence.
Qed.

Lemma Trade_range_perm_err t err :
  snd (Trade_range t l) = Some err ->
  exists k vv e, (k = "amount_int" \/ k = "price_int") /\
                 m !! k = Some (VString vv) /\
                 snd (strconv.ParseInt vv) = Some e /\
                 err = NumError "ParseInt" vv e.
Proof.
  intros H. apply Trade_range_err in H as (k & v & Hin & Herr).
  apply perm_elem in Hin.
  apply entryError_inv in Herr as (vv & e & Hk & -> & He & ->).
  exists k, vv, e. auto.
Qed.

Lemma Trade_range_perm_ok t :
  snd (Trade_range t l) = None -> integersOk m = true.
Proof.
  intros Hok. apply integersOk_spec. intros k vv Hk Hl.
  apply (entryError_None k vv Hk).
  apply (Trade_range_ok_inv l t Hok). apply perm_elem. exact Hl.
Qed.

End AnyOrder.

(** A [range] loop visits every entry of the map once, in an order that is
    not fixed. *)
Hypothesis mapRange_perm : forall m, mapRange m ≡ₚ map_to_list m.

Lemma mapRange_elem (m : gmap string goval) k v :
  (k, v) ∈ mapRange m <-> m !! k = Some v.
Proof. apply perm_elem, mapRange_perm. Qed.

Lemma Trade_UnmarshalJSON_unfold t data :
  Trade_UnmarshalJSON t data =
  match Unmarshal_map data with
  | (_, Some err) => (t, Some err)
  | (raw, None) => Trade_range t (mapRange (default ∅ raw))
  end.
Proof.
  unfold Trade_UnmarshalJSON, Unmarshal_map, Trade_decode.
  destruct (json.parse data); reflexivity.
Qed.

Lemma Trade_range_mapRange t (m : gmap string goval) :
  integersOk m = true -> Trade_range t (mapRange m) = (Trade_filled t m, None).
Proof. apply Trade_range_perm, mapRange_perm. Qed.

Lemma Trade_range_mapRange_err t (m : gmap string goval) err :
  snd (Trade_range t (mapRange m)) = Some err ->
  exists k vv e, (k = "amount_int" \/ k = "price_int") /\
                 m !! k = Some (VString vv) /\
                 snd (strconv.ParseInt vv) = Some e /\
                 err = NumError "ParseInt" vv e.
Proof. apply Trade_range_perm_err, mapRange_perm. Qed.

Lemma Trade_decode_filled t v raw :
  decodeMap v = (raw, None) -> integersOk (default ∅ raw) = true ->
  Trade_decode t v = (Trade_filled t (default ∅ raw), None).
Proof.
  intros Hm Hok. unfold Trade_decode. rewrite Hm.
  apply Trade_range_mapRange. exact Hok.
Qed.

Lemma Trade_decode_ok t v raw :
  decodeMap v = (raw, None) -> snd (Trade_decode t v) = None ->
  integersOk (default ∅ raw) = true.
Proof.
  intros Hm. unfold Trade_decode. rewrite Hm.
  apply Trade_range_perm_ok, mapRange_perm.
Qed.

(** ** [Trade.UnmarshalJSON] *)


Lemma firstError_None e1 e2 :
  firstError e1 e2 = None <-> e1 = None /\ e2 = None.
Proof.
  destruct e1, e2; cbn;
    (split; [intros H; try split; congruence|intros [H1 H2]; congruence]).
Qed.

(** The generic decoder reports an error exactly when a number of the text
    is beyond float64. *)
Lemma decodeInterface_numbersFit :
  forall v, snd (decodeInterface v) = None <-> numbersFit v = true.
Proof.
  fix IH 1. intros v; destruct v as [ | b | lit | s | elems | ms ];
    cbn [decodeInterface numbersFit snd]; try (split; reflexivity).
  - destruct (float64.ParseFloat lit) as [f [e|]]; cbn; split;
      congruence.
  - induction elems as [|x l IHl]; [split; reflexivity|].
    cbn [map fold_right forallb]. rewrite firstError_None, andb_true_iff.
    rewrite IHl, (IH x). reflexivity.
  - induction ms as [|[k x] l IHl]; [split; reflexivity|].
    cbn [map fold_right forallb fst snd]. rewrite firstError_None, andb_true_iff.
    rewrite IHl, (IH x). reflexivity.
Qed.

(** The generic decode of a JSON object always yields a map, and yields it
    without error exactly when every number of the object fits float64. *)
Lemma Unmarshal_map_object data ms :
  json.parse data = Some (json.JObject ms) ->
  exists m,
    (numbersFit (json.JObject ms) = true -> Unmarshal_map data = (Some m, None))
    /\ (numbersFit (json.JObject ms) = false ->
        exists err, Unmarshal_map data = (Some m, Some err)).
Proof.
  intros H. unfold Unmarshal_map. rewrite H.
  pose proof (decodeInterface_numbersFit (json.JObject ms)) as Hfit.
  unfold decodeMap.
  destruct (decodeInterface (json.JObject ms)) as [v e] eqn:E.
  assert (Hv : exists m, v = VMap m).
  { cbn in E. injection E as <- _. eexists. reflexivity. }
  destruct Hv as [m ->]. exists m. cbn [snd] in Hfit. split.
  - intros Hn. apply Hfit in Hn. subst e. reflexivity.
  - intros Hn. destruct e as [err|]; [exists err; reflexivity|].
    rewrite (proj1 Hfit eq_refl) in Hn. discriminate.
Qed.

(** C5, as amended. On a JSON object all of whose numbers fit float64,
    [Trade.UnmarshalJSON] fails only on a string under [amount_int] or
    [price_int] that [ParseInt] rejects: without such a string it succeeds and
    leaves [Trade_filled], whatever the order of the loop; an error it returns
    is the [ParseInt] error of such a string; fields whose keys are absent
    keep their values (the zero values for a fresh trade); keys outside
    [knownKeys] have no influence on the result. On a JSON object that holds
    a number beyond float64 the generic decode fails, and the method returns
    that error before the loop, the trade untouched. *)
Theorem Trade_UnmarshalJSON_fails_only_on_integer_strings t data ms :
  json.parse data = Some (json.JObject ms) ->
  (numbersFit (json.JObject ms) = true ->
   exists m,
     Unmarshal_map data = (Some m, None)
     /\ (integersOk m = true ->
         Trade_UnmarshalJSON t data = (Trade_filled t m, None))
     /\ (forall t' err,
           Trade_UnmarshalJSON t data = (t', Some err) ->
           exists k vv e,
             (k = "amount_int" \/ k = "price_int") /\
             m !! k = Some (VString vv) /\
             snd (strconv.ParseInt vv) = Some e /\
             err = NumError "ParseInt" vv e)
     /\ absentKept t (Trade_filled t m) m
     /\ (forall k v, k ∉ knownKeys ->
                     Trade_filled t (<[k := v]> m) = Trade_filled t m))
  /\ (numbersFit (json.JObject ms) = false ->
      exists err,
        snd (Unmarshal_map data) = Some err
        /\ Trade_UnmarshalJSON t data = (t, Some err)).
Proof.
  intros Hparse.
  destruct (Unmarshal_map_object data ms Hparse) as (m & Hfit & Hover).
  split.
  - intros Hn. pose proof (Hfit Hn) as Hraw. exists m.
    split; [exact Hraw|].
    rewrite Trade_UnmarshalJSON_unfold, Hraw.
    change (default ∅ (Some m)) with m.
    split; [|split; [|split]].
    + apply Trade_range_mapRange.
    + intros t' err H. apply (Trade_range_mapRange_err t m err).
      rewrite H. reflexivity.
    + unfold absentKept, Trade_filled; cbn;
        repeat split; intros ->; reflexivity.
    + intros k v Hk. unfold knownKeys in Hk.
      repeat (apply not_elem_of_cons in Hk as [? Hk]).
      unfold Trade_filled. f_equal; rewrite lookup_insert_ne by congruence;
        reflexivity.
  - intros Hn. destruct (Hover Hn) as [err Hraw]. exists err.
    rewrite Trade_UnmarshalJSON_unfold, Hraw. split; reflexivity.
Qed.

(** C9, as amended. In a JSON object all of whose numbers fit float64, a
    number under [amount_int] (or [price_int]) instead of a string is no
    error: [Amount] (or [Price]) is left as it was (zero for a fresh trade)
    whether or not the call succeeds, and the call succeeds unless the other
    of the two keys holds a string that [ParseInt] rejects. A number beyond
    float64 in the object, under one of these keys or elsewhere, makes the
    call fail with the error of the generic decode, the trade untouched. *)
Theorem Trade_UnmarshalJSON_number_under_integer_key t data ms f :
  json.parse data = Some (json.JObject ms) ->
  (numbersFit (json.JObject ms) = true ->
   exists m,
     Unmarshal_map data = (Some m, None)
     /\ let r := Trade_UnmarshalJSON t data in
        (m !! "amount_int" = Some (VFloat64 f) ->
           Amount (fst r) = Amount t /\
           (integerOk (m !! "price_int") = true -> r = (Trade_filled t m, None)))
        /\ (m !! "price_int" = Some (VFloat64 f) ->
              Price (fst r) = Price t /\
              (integerOk (m !! "amount_int") = true ->
               r = (Trade_filled t m, None))))
  /\ (numbersFit (json.JObject ms) = false ->
      exists err,
        snd (Unmarshal_map data) = Some err
        /\ Trade_UnmarshalJSON t data = (t, Some err)).
Proof.
  intros Hparse.
  destruct (Unmarshal_map_object data ms Hparse) as (m & Hfit & Hover).
  split.
  - intros Hn. pose proof (Hfit Hn) as Hraw. exists m.
    split; [exact Hraw|]. cbv zeta.
    rewrite Trade_UnmarshalJSON_unfold, Hraw.
    change (default ∅ (Some m)) with m.
    split; intros Hnum; split.
    + apply Trade_range_Amount. intros s Hin.
      apply mapRange_elem in Hin. congruence.
    + intros Hother. apply Trade_range_mapRange.
      unfold integersOk. rewrite Hnum, Hother. reflexivity.
    + apply Trade_range_Price. intros s Hin.
      apply mapRange_elem in Hin. congruence.
    + intros Hother. apply Trade_range_mapRange.
      unfold integersOk. rewrite Hnum, Hother. reflexivity.
  - intros Hn. destruct (Hover Hn) as [err Hraw]. exists err.
    rewrite Trade_UnmarshalJSON_unfold, Hraw. split; reflexivity.
Qed.

(** C6, as amended. Where decoding succeeds, printing the decoded [Amount]
    and [Price] in base 10 gives back the strings under [amount_int] and
    [price_int] exactly when these strings are canonical: an optional minus
    sign and digits without a leading zero, as [FormatInt] prints them. *)
Theorem Trade_integer_fields_round_trip t data raw a p t' :
  Unmarshal_map data = (raw, None) ->
  default ∅ raw !! "amount_int" = Some (VString a) ->
  default ∅ raw !! "price_int" = Some (VString p) ->
  Trade_UnmarshalJSON t data = (t', None) ->
  (strconv.FormatInt (Amount t') = a <-> strconv.canonical a = true) /\
  (strconv.FormatInt (Price t') = p <-> strconv.canonical p = true).
Proof.
  intros Hraw Ha Hp Hdec.
  rewrite Trade_UnmarshalJSON_unfold, Hraw in Hdec.
  assert (Hok : integersOk (default ∅ raw) = true).
  { apply (Trade_range_perm_ok _ _ (mapRange_perm _) t).
    rewrite Hdec. reflexivity. }
  rewrite (Trade_range_mapRange t _ Hok) in Hdec. injection Hdec as <-.
  pose proof (proj1 (integersOk_spec _) Hok) as Hall.
  unfold Trade_filled; cbn [Amount Price]. rewrite Ha, Hp. cbn [intOr].
  split; apply FormatInt_ParseInt_iff.
  - pose proof (Hall "amount_int" a (or_introl eq_refl) Ha).
    destruct (strconv.ParseInt a); cbn in *; congruence.
  - pose proof (Hall "price_int" p (or_intror eq_refl) Hp).
    destruct (strconv.ParseInt p); cbn in *; congruence.
Qed.


(** ** The dispatcher *)

Lemma handle_fallback (g : Gox) data :
  Private (fst (Unmarshal_StreamHeader StreamHeader_zero data)) ∉ knownPrivate ->
  handle g data =
  (g, [Println (Private (fst (Unmarshal_StreamHeader StreamHeader_zero data)));
       Println (string_of_list_byte
                  (PrettyPrintJson (mapValue (fst (Unmarshal_map data)))))]).
Proof.
  intros Hd. unfold knownPrivate in Hd.
  repeat (apply not_elem_of_cons in Hd as [? Hd]).
  unfold handle.
  repeat match goal with
         | |- context [String.eqb ?a ?b] =>
             destruct (String.eqb_spec a b); [congruence|]
         end.
  reflexivity.
Qed.


(** C10, as amended. A frame that is no JSON text, or whose value is neither
    an object nor null, makes the header decoder fail without storing
    anything: the error is dropped, the discriminator stays empty, the frame
    takes the fallback branch (where the generic decode fails as well and nil
    is dumped), and nothing reaches the error channel or any other. For any
    other frame on which the header decoder fails, the same holds as long as
    the discriminator it stored is none of the five. *)
Theorem handle_frame_without_object (g : Gox) data :
  noObject data = true ->
  snd (Unmarshal_StreamHeader StreamHeader_zero data) <> None
  /\ Private (fst (Unmarshal_StreamHeader StreamHeader_zero data)) = ""
  /\ handle g data =
     (g, [Println ""; Println (string_of_list_byte (PrettyPrintJson VNil))])
  /\ forall data',
       snd (Unmarshal_StreamHeader StreamHeader_zero data') <> None ->
       Private (fst (Unmarshal_StreamHeader StreamHeader_zero data')) ∉ knownPrivate ->
       exists lines, handle g data' = (g, map Println lines).
Proof.
  intros Hno.
  assert (Hhdr : fst (Unmarshal_StreamHeader StreamHeader_zero data)
                 = StreamHeader_zero
                 /\ snd (Unmarshal_StreamHeader StreamHeader_zero data) <> None
                 /\ fst (Unmarshal_map data) = None).
  { unfold noObject, Unmarshal_StreamHeader, Unmarshal_map in *.
    destruct (json.parse data) as [[]|]; try discriminate; cbn; auto. }
  destruct Hhdr as (Hh & He & Hm).
  split; [exact He|]. split; [rewrite Hh; reflexivity|]. split.
  - rewrite handle_fallback.
    + rewrite Hh, Hm. reflexivity.
    + rewrite Hh. cbn. unfold knownPrivate.
      repeat (apply not_elem_of_cons; split; [discriminate|]).
      apply not_elem_of_nil.
  - intros data' _ Hd. rewrite (handle_fallback g data' Hd).
    eexists [_; _]. reflexivity.
Qed.

(** ** The trade handler *)

(** Whatever the decoder returns, the handler goes on to the send on
    [Trades]: the payload is queued whenever that channel has room. *)
Lemma handleTrade_always_sends (g : Gox) data :
  exists ev taken,
    snd (handleTrade g data) =
    ev ++ [SendTrade (fst (Unmarshal_TradePayload TradePayload_zero data)) taken]
    /\ (taken = true ->
        buf (Trades (fst (handleTrade g data))) =
        buf (Trades g) ++ [fst (Unmarshal_TradePayload TradePayload_zero data)])
    /\ ((length (buf (Trades g)) < cap (Trades g))%nat -> taken = true).
Proof.
  unfold handleTrade.
  destruct (Unmarshal_TradePayload TradePayload_zero data) as [payload err].
  cbn [fst].
  destruct err as [e|].
  - destruct (trySend (Errors g) e) as [c tk]. unfold trySend.
    cbn [Trades set_Errors].
    destruct (Nat.ltb_spec (length (buf (Trades g))) (cap (Trades g))).
    + exists [SendError e tk], true. cbn. split; [reflexivity|]. auto.
    + exists [SendError e tk], false. cbn. split; [reflexivity|]. split; [discriminate|lia].
  - unfold trySend.
    destruct (Nat.ltb_spec (length (buf (Trades g))) (cap (Trades g))).
    + exists [], true. cbn. split; [reflexivity|]. auto.
    + exists [], false. cbn. split; [reflexivity|]. split; [discriminate|lia].
Qed.

(** ** Authenticated calls *)

Lemma beBytes_length n x : length (sha512.beBytes n x) = n.
Proof.
  revert x. induction n as [|n IH]; intros x; [reflexivity|].
  cbn [sha512.beBytes]. rewrite length_app, IH. cbn. lia.
Qed.

Lemma sha512_sumZ_length msg : length (sha512.sumZ msg) = sha512.Size.
Proof.
  unfold sha512.sumZ, sha512.digest.
  rewrite !length_app, !beBytes_length. reflexivity.
Qed.

Lemma hmac_Sum_length k msg : length (hmac.Sum k msg) = sha512.Size.
Proof.
  unfold hmac.Sum, hmac.sumZ. rewrite length_map. apply sha512_sumZ_length.
Qed.


(** *** base64: decoding undoes encoding *)

Lemma sextet_round_trip n :
  0 <= n < 64 ->
  base64.isNewline (base64.encodeSextet n) = false /\
  Ascii.eqb (base64.encodeSextet n) "=" = false /\
  base64.decodeSextet (base64.encodeSextet n) = Some n.
Proof.
  intros Hn.
  assert (exists k, (k < 64)%nat /\ n = Z.of_nat k) as (k & Hk & ->)
    by (exists (Z.to_nat n); lia).
  do 64 (destruct k as [|k]; [vm_compute; auto|]). lia.
Qed.

Lemma decodeLoop_sextet n r cur acc :
  0 <= n < 64 ->
  base64.decodeLoop (base64.encodeSextet n :: r) cur acc =
  match cur with
  | [c3; b3; a3] =>
      match base64.quantum [n; c3; b3; a3] with
      | Some q => base64.decodeLoop r [] (rev q ++ acc)
      | None => (rev acc, Some base64.CorruptInputError)
      end
  | _ => base64.decodeLoop r (n :: cur) acc
  end.
Proof.
  intros Hn. destruct (sextet_round_trip n Hn) as (H1 & H2 & H3).
  cbn [base64.decodeLoop]. rewrite H1, H2, H3. reflexivity.
Qed.

Lemma list_ind3 {A} (P : list A -> Prop) :
  P [] -> (forall a, P [a]) -> (forall a b, P [a; b]) ->
  (forall a b c l, P l -> P (a :: b :: c :: l)) ->
  forall l, P l.
Proof.
  intros H0 H1 H2 H3.
  fix IH 1. intros [|a [|b [|c l]]];
    [exact H0 | exact (H1 a) | exact (H2 a b) | exact (H3 a b c l (IH l))].
Qed.

Lemma decodeLoop_encodeLoop zs : forall acc,
  Forall (fun z => 0 <= z < 256) zs ->
  base64.decodeLoop (base64.encodeLoop zs) [] acc = (rev acc ++ zs, None).
Proof.
  induction zs as [|a|a b|a b c zs IH] using list_ind3; intros acc Hz.
  - cbn. rewrite app_nil_r. reflexivity.
  - apply Forall_cons in Hz as [Ha _].
    cbn [base64.encodeLoop].
    rewrite !decodeLoop_sextet by (Z.div_mod_to_equations; lia).
    cbn. do 2 f_equal. f_equal. Z.div_mod_to_equations; lia.
  - apply Forall_cons in Hz as [Ha Hz]. apply Forall_cons in Hz as [Hb _].
    cbn [base64.encodeLoop].
    rewrite !decodeLoop_sextet by (Z.div_mod_to_equations; lia).
    cbn. do 2 f_equal. f_equal; [|f_equal]; Z.div_mod_to_equations; lia.
  - apply Forall_cons in Hz as [Ha Hz]. apply Forall_cons in Hz as [Hb Hz].
    apply Forall_cons in Hz as [Hc Hz].
    cbn [base64.encodeLoop].
    rewrite !decodeLoop_sextet by (Z.div_mod_to_equations; lia).
    cbn [base64.quantum]. rewrite IH by exact Hz.
    cbn [rev app]. rewrite <- !app_assoc. cbn [app].
    do 2 f_equal. f_equal; [|f_equal; [|f_equal]]; Z.div_mod_to_equations; lia.
Qed.

Lemma byteVal_range b : 0 <= byteVal b < 256.
Proof.
  unfold byteVal. pose proof (Byte.to_N_bounded b). lia.
Qed.

Lemma byteOf_byteVal b : byteOf (byteVal b) = b.
Proof.
  unfold byteOf. pose proof (byteVal_range b).
  rewrite Z.mod_small by lia. unfold byteVal. rewrite N2Z.id.
  rewrite Byte.of_to_N. reflexivity.
Qed.

Lemma base64_round_trip (l : bytes) :
  base64.DecodeString (base64.EncodeToString l) = (l, None).
Proof.
  unfold base64.DecodeString, base64.EncodeToString.
  rewrite list_ascii_of_string_of_list_ascii.
  rewrite decodeLoop_encodeLoop.
  - cbn [rev app]. rewrite map_map. f_equal.
    rewrite <- (map_id l) at 2. apply map_ext. intros b. apply byteOf_byteVal.
  - apply Forall_map. apply Forall_forall. intros b _. apply byteVal_range.
Qed.


(** *** The envelope *)

(** C4. With key and secret in place and the request marshalled to [req],
    [authenticatedSend] hands the connection one object with exactly the
    fields [op = "call"], [id = msg["id"]], [call] and
    [context = "mtgox.com"]; [call] is the base64 text of the key bytes, the
    signature and [req], in this order; the signature is the 64-byte
    HMAC-SHA-512 of [req] under the secret, so the bytes signed are the bytes
    embedded; what the connection answers is returned. *)
Theorem authenticatedSend_envelope (g : Gox) msg k s req :
  key g = Some k -> secret g = Some s ->
  json_Marshal (VMap msg) = (req, None) ->
  let signedReq := hmac.Sum s req in
  let encodedReq := base64.EncodeToString ((k ++ signedReq) ++ req) in
  let requestId := default VNil (msg !! "id") in
  sign g req = (signedReq, None)
  /\ authenticatedSend g msg =
     (set_conn g (fst (WriteJSON (conn g) (envelope requestId encodedReq))),
      snd (WriteJSON (conn g) (envelope requestId encodedReq)))
  /\ (exists fields : gmap string goval,
        envelope requestId encodedReq = VMap fields /\
        dom fields = ({["op"; "id"; "call"; "context"]} : gset string) /\
        fields !! "op" = Some (VString "call") /\
        fields !! "id" = Some requestId /\
        fields !! "call" = Some (VString encodedReq) /\
        fields !! "context" = Some (VString "mtgox.com"))
  /\ length signedReq = 64%nat
  /\ base64.DecodeString encodedReq = (k ++ signedReq ++ req, None).
Proof.
  intros Hk Hs Hreq signedReq encodedReq requestId.
  assert (Hsign : sign g req = (signedReq, None)).
  { unfold sign. rewrite Hs. reflexivity. }
  split; [exact Hsign|]. split; [|split; [|split]].
  - unfold authenticatedSend. rewrite Hk, Hs, Hreq, Hsign.
    fold requestId. fold encodedReq.
    destruct (WriteJSON (conn g) (envelope requestId encodedReq)); reflexivity.
  - eexists. split; [reflexivity|]. split.
    + rewrite !dom_insert_L, dom_empty_L. set_solver.
    + repeat split;
        repeat (rewrite lookup_insert_ne by discriminate);
        apply lookup_insert_eq.
  - apply hmac_Sum_length.
  - unfold encodedReq. rewrite base64_round_trip, <- app_assoc. reflexivity.
Qed.

(** C2, on the code. A client made from an empty key and an empty secret
    holds two slices that are empty but not nil, so the check in
    [authenticatedSend] lets it pass: the request is signed under the empty
    secret and handed to the connection, and the error returned is the
    connection's, not the one about the key. *)
Theorem authenticatedSend_with_empty_credentials (c : Conn) msg req :
  json_Marshal (VMap msg) = (req, None) ->
  exists g : Gox,
    NewWithConnection "" "" c = (Some g, None)
    /\ key g = Some [] /\ secret g = Some []
    /\ let env := envelope (default VNil (msg !! "id"))
                    (base64.EncodeToString (hmac.Sum [] req ++ req)) in
       authenticatedSend g msg =
       (set_conn g (fst (WriteJSON c env)), snd (WriteJSON c env)).
Proof.
  intros Hreq. eexists. split; [reflexivity|]. split; [reflexivity|].
  split; [reflexivity|]. cbv zeta.
  unfold authenticatedSend. cbn [key secret conn]. rewrite Hreq.
  unfold sign. cbn [secret sliceBytes default app].
  destruct (WriteJSON c _); reflexivity.
Qed.

(** ** [SimpleTime] *)

Lemma layout_chunk1 :
  time.nextStdChunk (list_ascii_of_string layout)
  = ([], Some time.stdLongYear, list_ascii_of_string "-01-02 15:04:05").
Proof. vm_compute. reflexivity. Qed.

Lemma layout_chunk2 :
  time.nextStdChunk (list_ascii_of_string "-01-02 15:04:05")
  = (["-"%char], Some time.stdZeroMonth, list_ascii_of_string "-02 15:04:05").
Proof. vm_compute. reflexivity. Qed.

(** What the layout accepts starts with four digits and a hyphen. *)
Lemma parseLoop_layout_shape fuel value f f' :
  time.parseLoop fuel (list_ascii_of_string layout) value f = (f', None) ->
  exists a b c d rest,
    value = a :: b :: c :: d :: "-"%char :: rest /\
    forallb strconv.isDigit [a; b; c; d] = true.
Proof.
  destruct fuel as [|fuel]; [discriminate|].
  cbn [time.parseLoop]. rewrite layout_chunk1. cbn [time.skip].
  destruct value as [|a [|b [|c [|d rest]]]]; try discriminate.
  cbn [time.parseStd].
  destruct (forallb strconv.isDigit [a; b; c; d]) eqn:Hd; [|discriminate].
  destruct fuel as [|fuel]; [discriminate|].
  cbn [time.parseLoop]. rewrite layout_chunk2. cbn [time.skip].
  change (Ascii.eqb "-" " ") with false. cbv iota.
  destruct rest as [|v rest]; [discriminate|].
  destruct (Ascii.eqb_spec v "-") as [->|]; [|discriminate].
  intros _. exists a, b, c, d, rest. auto.
Qed.

Lemma isDigit_cases a :
  strconv.isDigit a = true ->
  json.isSpace a = false /\ Ascii.eqb a "." = false /\ Ascii.eqb a "e" = false
  /\ Ascii.eqb a "E" = false.
Proof.
  destruct a as [[] [] [] [] [] [] [] []]; intros H; try discriminate H;
    repeat split; reflexivity.
Qed.

Lemma spanDigits4 a b c d rest :
  forallb strconv.isDigit [a; b; c; d] = true ->
  float64.spanDigits (a :: b :: c :: d :: "-"%char :: rest)
  = ([a; b; c; d], "-"%char :: rest).
Proof.
  cbn [forallb]. intros H.
  apply andb_prop in H as [Ha H]. apply andb_prop in H as [Hb H].
  apply andb_prop in H as [Hc H]. apply andb_prop in H as [Hd _].
  cbn [float64.spanDigits]. rewrite Ha, Hb, Hc, Hd. reflexivity.
Qed.

(** Such a text is no JSON text: the scanner reads a number off its head and
    is left with the remainder. *)
Lemma parseValue_dashed fuel a b c d rest :
  forallb strconv.isDigit [a; b; c; d] = true ->
  match json.parseValue (S fuel) 0 (a :: b :: c :: d :: "-"%char :: rest) with
  | Some (_, r) => json.skipSpace r <> []
  | None => True
  end.
Proof.
  intros H. pose proof (spanDigits4 a b c d rest H) as Hspan.
  cbn [forallb] in H.
  apply andb_prop in H as [Ha H]. apply andb_prop in H as [Hb _].
  destruct (isDigit_cases b Hb) as (Hsp & Hdot & He & HE).
  cbn [json.parseValue].
  destruct a as [[] [] [] [] [] [] [] []]; try discriminate Ha.
  all: cbn [json.skipSpace json.isSpace Ascii.eqb Bool.eqb orb andb].
  all: unfold json.scanNumber, json.scanInt, json.scanFrac, json.scanExp,
    json.scanDigits1.
  all: cbn [Ascii.eqb Bool.eqb orb andb strconv.isDigit].
  all: try (change (strconv.isDigit _) with true; cbv iota); rewrite ?Hspan.
  all: cbn [Ascii.eqb Bool.eqb orb andb]; rewrite ?Hdot, ?He, ?HE; cbn [orb app].
  all: cbn [json.skipSpace]; rewrite ?Hsp; try discriminate.
Qed.

(** X17. No JSON text is in the layout: called by the decoder, which hands an
    [UnmarshalJSON] method the text of a JSON value, [SimpleTime.UnmarshalJSON]
    fails whatever the value and leaves the receiver as it was. *)
Lemma SimpleTime_UnmarshalJSON_rejects_JSON (t : SimpleTime) b :
  json.parse b <> None ->
  exists err, SimpleTime_UnmarshalJSON t b = (t, Some (TimeParseError layout b err)).
Proof.
  intros Hjson. unfold SimpleTime_UnmarshalJSON.
  destruct (time.Parse layout b) as [tm [e|]] eqn:E; [eauto|].
  exfalso. apply Hjson. unfold time.Parse in E.
  destruct (time.parseLoop _ _ _ _) as [f [e|]] eqn:El; [discriminate|].
  apply parseLoop_layout_shape in El as (a0 & b0 & c0 & d0 & rest & Hv & Hd).
  unfold json.parse. rewrite Hv.
  replace (2 * length (a0 :: b0 :: c0 :: d0 :: "-"%char :: rest) + 2)%nat
    with (S (2 * length (a0 :: b0 :: c0 :: d0 :: "-"%char :: rest) + 1))%nat by lia.
  pose proof (parseValue_dashed
                (2 * length (a0 :: b0 :: c0 :: d0 :: "-"%char :: rest) + 1)
                a0 b0 c0 d0 rest Hd) as Hp.
  destruct (json.parseValue _ 0 _) as [[v r]|]; [|reflexivity].
  destruct (json.skipSpace r); [congruence|reflexivity].
Qed.

(** C3, on the code. The decoder hands [UnmarshalJSON] the JSON string with
    its quotes, and [time.Parse] stops at the opening quote: the field
    holding 2021-05-01 10:00:00 is rejected like the one holding 2021/05/01,
    the receiver untouched in both cases. Only on the bare text, without the
    quotes, does the method return the instant whose date and clock read
    2021-05-01 10:00:00, and it rejects the bare [2021/05/01]. *)
Theorem SimpleTime_UnmarshalJSON_scenario (t : SimpleTime) :
  SimpleTime_UnmarshalJSON t (wire "'2021-05-01 10:00:00'")
  = (t, Some (TimeParseError layout (wire "'2021-05-01 10:00:00'") time.errBad))
  /\ SimpleTime_UnmarshalJSON t (wire "'2021/05/01'")
     = (t, Some (TimeParseError layout (wire "'2021/05/01'") time.errBad))
  /\ SimpleTime_UnmarshalJSON t "2021-05-01 10:00:00"
     = ({| Time := time.Date 2021 5 1 10 0 0 0 time.UTC |}, None)
  /\ time.civil (time.Date 2021 5 1 10 0 0 0 time.UTC) = ((2021, 5, 1), (10, 0, 0))
  /\ SimpleTime_UnmarshalJSON t "2021/05/01"
     = (t, Some (TimeParseError layout "2021/05/01" time.errBad)).
Proof.
  repeat split; vm_compute; reflexivity.
Qed.

End Properties.

(** ** The order of the loop does not show in a successful decode *)

Section OrderFree.

Variable mapRange : gmap string goval -> list (string * goval).
Hypothesis mapRange_perm : forall m, mapRange m ≡ₚ map_to_list m.

Lemma map_to_list_perm (m : gmap string goval) : map_to_list m ≡ₚ map_to_list m.
Proof. reflexivity. Qed.

Lemma Trade_decode_order_free t v :
  snd (Trade_decode map_to_list t v) = None ->
  Trade_decode mapRange t v = Trade_decode map_to_list t v.
Proof.
  intros Hok. destruct (decodeMap v) as [raw [e|]] eqn:Hm.
  - unfold Trade_decode. rewrite Hm. reflexivity.
  - pose proof (Trade_decode_ok map_to_list map_to_list_perm t v raw Hm Hok) as Hi.
    rewrite (Trade_decode_filled mapRange mapRange_perm t v raw Hm Hi).
    rewrite (Trade_decode_filled map_to_list map_to_list_perm t v raw Hm Hi).
    reflexivity.
Qed.

Lemma TradePayload_members_order_free ms : forall p saved,
  snd (TradePayload_members map_to_list p saved ms) = None ->
  TradePayload_members mapRange p saved ms =
  TradePayload_members map_to_list p saved ms.
Proof.
  induction ms as [|[k v] ms IH]; intros p saved Hok; [reflexivity|].
  cbn [TradePayload_members] in *.
  destruct (keyMatches "trade" k).
  - destruct (Trade_decode map_to_list (Trade_ p) v) as [t' [err|]] eqn:E;
      [discriminate|].
    rewrite Trade_decode_order_free, E by (rewrite E; reflexivity).
    apply IH. exact Hok.
  - destruct (StreamHeader_member (Header p) k v) as [[h' e]|]; apply IH; exact Hok.
Qed.

Lemma Unmarshal_TradePayload_order_free p data :
  snd (Unmarshal_TradePayload map_to_list p data) = None ->
  Unmarshal_TradePayload mapRange p data = Unmarshal_TradePayload map_to_list p data.
Proof.
  unfold Unmarshal_TradePayload.
  destruct (json.parse data) as [[]|]; try reflexivity.
  apply TradePayload_members_order_free.
Qed.

(** C7. The wire object of the scenario decodes, in every order of the loop,
    to the trade with [Amount = 500000000], [Price = 4200000000],
    [Instrument = "BTC"], [Currency = "USD"], [TradeType = "ask"] and the
    instant of epoch second 1700000000; a fraction in [date] is cut off. *)
Theorem Unmarshal_scenario_trade :
  Unmarshal_TradePayload mapRange TradePayload_zero
    (wire "{'private':'trade','trade':{'type':'trade','tid':'123','amount_int':'500000000','price_int':'4200000000','item':'BTC','price_currency':'USD','trade_type':'ask','date':1700000000}}")
  = ({| Header := scenarioHeader; Trade_ := scenarioTrade |}, None)
  /\ Unmarshal_TradePayload mapRange TradePayload_zero
       (wire "{'private':'trade','trade':{'type':'trade','tid':'123','amount_int':'500000000','price_int':'4200000000','item':'BTC','price_currency':'USD','trade_type':'ask','date':1700000000.75}}")
     = ({| Header := scenarioHeader; Trade_ := scenarioTrade |}, None).
Proof.
  split; (rewrite Unmarshal_TradePayload_order_free; vm_compute; reflexivity).
Qed.

End OrderFree.

(** * The rest of the client *)

Section Further.

Context {TickerPayload DepthPayload Order Conn : Type}.

Variable mapRange : gmap string goval -> list (string * goval).
Variable json_Marshal : goval -> bytes * option error.
Variable json_MarshalIndent : goval -> string -> string -> bytes * option error.
Variable WriteJSON : Conn -> goval -> Conn * option error.

Local Abbreviation Gox := (@Gox TickerPayload DepthPayload Order Conn).

Variables handleDebug handleTicker handleDepth handleResult
  : Gox -> string -> Gox * list event.

Local Abbreviation Trade_decode := (Trade_decode mapRange).
Local Abbreviation Trade_UnmarshalJSON := (Trade_UnmarshalJSON mapRange).
Local Abbreviation TradePayload_members := (TradePayload_members mapRange).
Local Abbreviation Unmarshal_TradePayload := (Unmarshal_TradePayload mapRange).
Local Abbreviation handleTrade := (handleTrade mapRange).
Local Abbreviation authenticatedSend := (authenticatedSend json_Marshal WriteJSON).
Local Abbreviation call := (call json_Marshal WriteJSON).
Local Abbreviation handle :=
  (handle mapRange json_MarshalIndent handleDebug handleTicker handleDepth
     handleResult).
Local Abbreviation dispatch :=
  (dispatch mapRange json_MarshalIndent handleDebug handleTicker handleDepth
     handleResult).
Local Abbreviation PrettyPrintJson := (PrettyPrintJson json_MarshalIndent).

(** ** The constructor *)

Lemma hex_decodeLoop_byte x rest acc :
  hex.decodeLoop
    (nth (Z.to_nat (byteVal x / 16)) (list_ascii_of_string "0123456789abcdef") "0"%char
     :: nth (Z.to_nat (byteVal x mod 16)) (list_ascii_of_string "0123456789abcdef") "0"%char
     :: rest) acc
  = hex.decodeLoop rest (x :: acc).
Proof. destruct x; reflexivity. Qed.

Lemma hex_decodeLoop_hexString b : forall acc,
  hex.decodeLoop (list_ascii_of_string (hexString b)) acc = (rev acc ++ b, None).
Proof.
  unfold hexString. rewrite list_ascii_of_string_of_list_ascii.
  induction b as [|x b IH]; intros acc; cbn [flat_map].
  - cbn. rewrite app_nil_r. reflexivity.
  - cbn [app]. rewrite hex_decodeLoop_byte, IH. cbn [rev].
    rewrite <- app_assoc. reflexivity.
Qed.

Lemma hex_round_trip b : hex.DecodeString (hexString b) = (b, None).
Proof. unfold hex.DecodeString. apply hex_decodeLoop_hexString. Qed.

(** What [DecodeString] returns without error has half as many bytes as the
    text has characters. *)
Lemma hex_decodeLoop_length n : forall src acc out,
  (length src <= n)%nat ->
  hex.decodeLoop src acc = (out, None) ->
  (length src + 2 * length acc = 2 * length out)%nat.
Proof.
  induction n as [|n IH]; intros src acc out Hn.
  - destruct src; [|cbn in Hn; lia]. cbn. intros [= <-].
    rewrite length_rev. lia.
  - destruct src as [|p [|q rest]].
    + cbn. intros [= <-]. rewrite length_rev. lia.
    + cbn. destruct (json.hexVal p); discriminate.
    + cbn [hex.decodeLoop]. destruct (json.hexVal p); [|discriminate].
      destruct (json.hexVal q); [|discriminate].
      intros H. apply IH in H; [|cbn in Hn |- *; lia]. cbn in *. lia.
Qed.

(** X1. The key and the secret handed to the constructor as hexadecimal and
    base64 text come back as the bytes they stand for, with dashes anywhere
    in the key passed over: the client holds these bytes and the connection,
    and seven empty channels, the error channel with room for ten values and
    the others for one. *)
Theorem NewWithConnection_decodes_credentials (c : Conn) k kb sb :
  removeDashes k = hexString kb ->
  NewWithConnection k (base64.EncodeToString sb) c =
  (Some ({| key := Some kb; secret := Some sb; conn := c;
            Ticker := make 1; Info_ := make 1; Depth := make 1;
            Trades := make 1; Orders := make 1; Errors := make 10;
            done := make 1 |} : Gox), None).
Proof.
  intros Hk. unfold NewWithConnection.
  rewrite Hk, hex_round_trip, base64_round_trip. reflexivity.
Qed.

Lemma length_list_ascii_of_string x :
  length (list_ascii_of_string x) = String.length x.
Proof. induction x as [|a x IH]; cbn; congruence. Qed.

Lemma hex_DecodeString_length x kb :
  hex.DecodeString x = (kb, None) -> String.length x = (2 * length kb)%nat.
Proof.
  unfold hex.DecodeString. intros H.
  apply (hex_decodeLoop_length _ _ _ _ (le_n _)) in H.
  rewrite <- length_list_ascii_of_string. cbn [length] in H. lia.
Qed.

(** X2. A key is accepted only when, dashes apart, it has an even number of
    characters, and the client then holds half as many key bytes; neither the
    key nor the secret of a client the constructor returns is nil. *)
Theorem NewWithConnection_key_length (c : Conn) k s (g : Gox) :
  NewWithConnection k s c = (Some g, None) ->
  exists kb sb,
    key g = Some kb /\ secret g = Some sb /\ conn g = c
    /\ String.length (removeDashes k) = (2 * length kb)%nat.
Proof.
  unfold NewWithConnection.
  destruct (hex.DecodeString (removeDashes k)) as [kb [e|]] eqn:Ek; [discriminate|].
  destruct (base64.DecodeString s) as [sb [e|]]; [discriminate|].
  intros [= <-]. exists kb, sb. repeat split.
  apply hex_DecodeString_length. exact Ek.
Qed.

(** X3. A key with an odd number of characters beside its dashes is refused,
    whatever the secret: the constructor returns the error of the hexadecimal
    decoder and no client. *)
Theorem NewWithConnection_odd_key (c : Conn) k s :
  Nat.Odd (String.length (removeDashes k)) ->
  exists e,
    NewWithConnection k s c = ((None : option Gox), Some (HexError e)).
Proof.
  intros [n Hodd]. unfold NewWithConnection.
  destruct (hex.DecodeString (removeDashes k)) as [kb [e|]] eqn:Ek;
    [exists e; reflexivity|].
  apply hex_DecodeString_length in Ek. lia.
Qed.

(** ** Authenticated calls *)

(** X4. A client the constructor returns always passes the check on key and
    secret: once the request is marshalled it is signed and written, and the
    error returned is the connection's. *)
Theorem authenticatedSend_after_constructor (c : Conn) k s (g : Gox) msg req :
  NewWithConnection k s c = (Some g, None) ->
  json_Marshal (VMap msg) = (req, None) ->
  exists kb sb,
    hex.DecodeString (removeDashes k) = (kb, None)
    /\ base64.DecodeString s = (sb, None)
    /\ let env := envelope (default VNil (msg !! "id"))
                    (base64.EncodeToString ((kb ++ hmac.Sum sb req) ++ req)) in
       authenticatedSend g msg =
       (set_conn g (fst (WriteJSON c env)), snd (WriteJSON c env)).
Proof.
  unfold NewWithConnection.
  destruct (hex.DecodeString (removeDashes k)) as [kb [e|]]; [discriminate|].
  destruct (base64.DecodeString s) as [sb [e|]]; [discriminate|].
  intros [= <-] Hreq. exists kb, sb. split; [reflexivity|]. split; [reflexivity|].
  cbv zeta. unfold authenticatedSend. cbn [key secret conn]. rewrite Hreq.
  unfold sign. cbn [secret sliceBytes default].
  destruct (WriteJSON c _); reflexivity.
Qed.


(** X6. [call] puts the identifier it drew under [id] of the request, and
    [authenticatedSend] reads it back from there: the envelope written
    carries the identifier of the request it wraps; the request has the five
    members [call], [item], [params], [id] and [nonce], with [BTC] as item
    and, when no parameters are given, the empty object as [params]. *)
Theorem call_envelope (g : Gox) endpoint params requestId nonce k s req :
  key g = Some k -> secret g = Some s ->
  let msg : gmap string goval :=
    <["call" := VString endpoint]>
    (<["item" := VString "BTC"]>
    (<["params" := VMap (default ∅ params)]>
    (<["id" := requestId]>
    (<["nonce" := nonce]> ∅)))) in
  json_Marshal (VMap msg) = (req, None) ->
  let env :=
    envelope requestId (base64.EncodeToString ((k ++ hmac.Sum s req) ++ req)) in
  call g endpoint params requestId nonce =
    (set_conn g (fst (WriteJSON (conn g) env)), snd (WriteJSON (conn g) env))
  /\ dom msg = ({["call"; "item"; "params"; "id"; "nonce"]} : gset string)
  /\ call g endpoint None requestId nonce = call g endpoint (Some ∅) requestId nonce.
Proof.
  intros Hk Hs msg Hreq env. split; [|split].
  - unfold call, authenticatedSend. fold msg. rewrite Hk, Hs, Hreq.
    unfold sign. rewrite Hs.
    change (sliceBytes (Some s)) with s.
    replace (msg !! "id") with (Some requestId).
    + change (default VNil (Some requestId)) with requestId. fold env.
      destruct (WriteJSON (conn g) env); reflexivity.
    + subst msg. repeat (rewrite lookup_insert_ne by discriminate).
      rewrite lookup_insert_eq. reflexivity.
  - subst msg. rewrite !dom_insert_L, dom_empty_L. set_solver.
  - reflexivity.
Qed.

(** ** The trade handler *)

(** The client [handleTrade] leaves: the error, if any, tried on [Errors],
    then the payload tried on [Trades]. *)
Lemma handleTrade_client (g : Gox) data :
  fst (handleTrade g data) =
  let r := Unmarshal_TradePayload TradePayload_zero data in
  set_Trades
    match snd r with
    | Some e => set_Errors g (fst (trySend (Errors g) e))
    | None => g
    end
    (fst (trySend (Trades g) (fst r))).
Proof.
  unfold handleTrade.
  destruct (Unmarshal_TradePayload TradePayload_zero data) as [p [e|]]; cbn [fst snd].
  - destruct (trySend (Errors g) e) as [c tk]. cbn [Trades set_Errors fst].
    destruct (trySend (Trades g) p); reflexivity.
  - destruct (trySend (Trades g) p); reflexivity.
Qed.

Lemma trySend_buf {T} (c : chan T) v :
  cap (fst (trySend c v)) = cap c
  /\ (buf (fst (trySend c v)) = buf c \/ buf (fst (trySend c v)) = buf c ++ [v])
  /\ ((length (buf c) <= cap c)%nat ->
      (length (buf (fst (trySend c v))) <= cap c)%nat).
Proof.
  unfold trySend.
  destruct (Nat.ltb_spec (length (buf c)) (cap c)); cbn; repeat split; auto.
  intros _. rewrite length_app. cbn. lia.
Qed.

(** X7. A frame that decodes without error, with room on [Trades]: the payload
    is queued behind what waits there, that one send is all the handler
    does, and the error channel is not touched. *)
Theorem handleTrade_publishes_decoded (g : Gox) data p :
  Unmarshal_TradePayload TradePayload_zero data = (p, None) ->
  (length (buf (Trades g)) < cap (Trades g))%nat ->
  handleTrade g data =
  (set_Trades g {| cap := cap (Trades g); buf := buf (Trades g) ++ [p] |},
   [SendTrade p true]).
Proof.
  intros Hp Hroom. unfold handleTrade. rewrite Hp. unfold trySend.
  apply Nat.ltb_lt in Hroom. rewrite Hroom. reflexivity.
Qed.

(** X8. Whatever the frame, the handler touches nothing but the two channels
    [Errors] and [Trades]; each keeps its capacity and what waited in it, gets
    at most one value appended, and is not filled beyond its capacity. *)
Theorem handleTrade_within_capacity (g : Gox) data :
  let g' := fst (handleTrade g data) in
  (key g' = key g /\ secret g' = secret g /\ conn g' = conn g
   /\ Ticker g' = Ticker g /\ Info_ g' = Info_ g /\ Depth g' = Depth g
   /\ Orders g' = Orders g /\ done g' = done g)
  /\ cap (Errors g') = cap (Errors g) /\ cap (Trades g') = cap (Trades g)
  /\ (exists l, buf (Errors g') = buf (Errors g) ++ l /\ (length l <= 1)%nat)
  /\ (exists l, buf (Trades g') = buf (Trades g) ++ l /\ (length l <= 1)%nat)
  /\ ((length (buf (Errors g)) <= cap (Errors g))%nat ->
      (length (buf (Errors g')) <= cap (Errors g'))%nat)
  /\ ((length (buf (Trades g)) <= cap (Trades g))%nat ->
      (length (buf (Trades g')) <= cap (Trades g'))%nat).
Proof.
  intros g'. subst g'. rewrite handleTrade_client. cbv zeta.
  set (r := Unmarshal_TradePayload TradePayload_zero data).
  destruct (trySend_buf (Trades g) (fst r)) as (Hc & Hb & Hl).
  assert (Hgrow : forall T (c : chan T) v,
            exists l, buf (fst (trySend c v)) = buf c ++ l /\ (length l <= 1)%nat).
  { intros T c v. destruct (trySend_buf c v) as (_ & [H|H] & _); rewrite H.
    - exists []. rewrite app_nil_r. split; [reflexivity|cbn; lia].
    - exists [v]. split; [reflexivity|cbn; lia]. }
  destruct (snd r) as [e|]; cbn.
  - destruct (trySend_buf (Errors g) e) as (Hce & _ & Hle).
    repeat split; auto. rewrite Hce. exact Hle. rewrite Hc. exact Hl.
  - repeat split; auto.
    + exists []. rewrite app_nil_r. split; [reflexivity|cbn; lia].
    + rewrite Hc. exact Hl.
Qed.

(** X9. [Trades] holds one value: of two frames handled before the consumer has
    taken the first trade, the second is dropped, whatever it holds. *)
Theorem handleTrade_second_trade_is_dropped (g : Gox) d1 d2 :
  cap (Trades g) = 1%nat -> buf (Trades g) = [] ->
  let g1 := fst (handleTrade g d1) in
  let p1 := fst (Unmarshal_TradePayload TradePayload_zero d1) in
  let p2 := fst (Unmarshal_TradePayload TradePayload_zero d2) in
  buf (Trades g1) = [p1]
  /\ Trades (fst (handleTrade g1 d2)) = Trades g1
  /\ exists ev, snd (handleTrade g1 d2) = ev ++ [SendTrade p2 false].
Proof.
  intros Hcap Hbuf g1 p1 p2.
  assert (H1 : Trades g1 = {| cap := 1; buf := [p1] |}).
  { subst g1. rewrite handleTrade_client. cbv zeta.
    destruct (snd (Unmarshal_TradePayload TradePayload_zero d1));
      cbn [Trades set_Trades]; unfold trySend; rewrite Hcap, Hbuf; reflexivity. }
  split; [rewrite H1; reflexivity|]. split.
  - rewrite handleTrade_client. cbv zeta.
    destruct (snd (Unmarshal_TradePayload TradePayload_zero d2));
      cbn [Trades set_Trades set_Errors]; rewrite H1; reflexivity.
  - unfold handleTrade. fold p2.
    destruct (Unmarshal_TradePayload TradePayload_zero d2) as [q [e|]];
      subst p2; cbn [fst].
    + destruct (trySend (Errors g1) e) as [c tk]. cbn [Trades set_Errors].
      rewrite H1. cbn. eexists [_]. reflexivity.
    + rewrite H1. cbn. exists []. reflexivity.
Qed.

(** ** The loop of [Start] *)


End Further.

Section Transport.

Context {TickerPayload DepthPayload Order Conn : Type}.
Variable json_Marshal : goval -> bytes * option error.

(** X5. Without a key, without a secret, or with a request that cannot be
    marshalled, [authenticatedSend] returns an error and never reaches the
    connection: client and error are the same whatever [WriteJSON] would
    do. *)
Theorem authenticatedSend_failure_writes_nothing
    (g : @Gox TickerPayload DepthPayload Order Conn) msg :
  key g = None \/ secret g = None \/ snd (json_Marshal (VMap msg)) <> None ->
  exists err,
    forall WriteJSON : Conn -> goval -> Conn * option error,
      authenticatedSend json_Marshal WriteJSON g msg = (g, Some err).
Proof.
  intros H. unfold authenticatedSend.
  destruct (key g) as [k|]; [|eexists; reflexivity].
  destruct (secret g) as [s|]; [|eexists; reflexivity].
  destruct (json_Marshal (VMap msg)) as [req [e|]].
  - exists e. reflexivity.
  - exfalso. destruct H as [H|[H|H]]; try discriminate. apply H. reflexivity.
Qed.

End Transport.

(** ** [Trade.UnmarshalJSON], continued *)

(** What [ParseInt] returns beside an error: zero for a text that is no
    number, the nearest bound for a number that does not fit. *)
Lemma ParseInt_error_value s n e :
  strconv.ParseInt s = (n, Some e) ->
  (e = strconv.ErrSyntax /\ n = 0)
  \/ (e = strconv.ErrRange /\ (n = 2 ^ 63 - 1 \/ n = - 2 ^ 63)).
Proof.
  unfold strconv.ParseInt, strconv.ParseIntList.
  destruct (list_ascii_of_string s) as [|c rest]; [intros [= <- <-]; auto|].
  destruct (Ascii.eqb c "+"); [|destruct (Ascii.eqb c "-")].
  all: match goal with
       | |- context [strconv.ParseUint ?x] =>
           destruct (strconv.ParseUint x) as [un [[]|]]
       end; cbn [negb andb].
  all: try (intros [= <- <-]; auto; fail).
  all: repeat match goal with
              | |- context [if ?b then _ else _] => destruct b
              end; intros [= <- <-]; auto.
Qed.

Lemma Trade_entry_amount_int t s :
  Trade_entry t "amount_int" (VString s) =
  (set_Amount t (fst (strconv.ParseInt s)),
   option_map (NumError "ParseInt" s) (snd (strconv.ParseInt s))).
Proof.
  unfold Trade_entry, ParseInt. cbn.
  destruct (strconv.ParseInt s); reflexivity.
Qed.

Lemma Trade_entry_price_int t s :
  Trade_entry t "price_int" (VString s) =
  (set_Price t (fst (strconv.ParseInt s)),
   option_map (NumError "ParseInt" s) (snd (strconv.ParseInt s))).
Proof.
  unfold Trade_entry, ParseInt. cbn.
  destruct (strconv.ParseInt s); reflexivity.
Qed.

(** With one entry that raises an error, the loop ends at that entry. *)
Lemma Trade_range_single_error l : forall t k v err,
  (k, v) ∈ l -> entryError k v = Some err ->
  (forall k' v', (k', v') ∈ l -> entryError k' v' = None \/ (k', v') = (k, v)) ->
  exists t0, Trade_range t l = Trade_entry t0 k v.
Proof.
  induction l as [|[k' v'] l IH]; intros t k v err Hin Herr Hall;
    [inversion Hin|].
  cbn [Trade_range]. pose proof (Trade_entry_error t k' v') as He.
  destruct (Hall k' v') as [Hnone | [= -> ->]]; [left| |].
  - rewrite Hnone in He.
    destruct (Trade_entry t k' v') as [t1 e1]. cbn in He. subst e1.
    apply elem_of_cons in Hin as [[= <- <-]|Hin]; [congruence|].
    apply (IH t1 k v err Hin Herr). intros k2 v2 H2. apply Hall. right. exact H2.
  - exists t. rewrite Herr in He.
    destruct (Trade_entry t k v) as [t1 [e1|]]; [reflexivity|discriminate].
Qed.

Lemma rangeFrom_perm k (m : gmap string goval) : rangeFrom k m ≡ₚ map_to_list m.
Proof.
  unfold rangeFrom. destruct (m !! k) as [v|] eqn:E; [|reflexivity].
  apply map_to_list_delete. exact E.
Qed.

Lemma stringOr_twice old v : stringOr (stringOr old v) v = stringOr old v.
Proof. destruct v as [[]|]; reflexivity. Qed.

Lemma Trade_filled_twice t (m : gmap string goval) :
  Trade_filled (Trade_filled t m) m = Trade_filled t m.
Proof.
  unfold Trade_filled; cbn. rewrite !stringOr_twice. f_equal.
  - destruct (m !! "amount_int") as [[]|]; reflexivity.
  - destruct (m !! "price_int") as [[]|]; reflexivity.
  - destruct (m !! "date") as [[]|]; reflexivity.
Qed.

(** ** The payload and its header *)

Lemma keyMatches_trade_no_header k h v :
  keyMatches "trade" k = true -> StreamHeader_member h k v = None.
Proof.
  unfold StreamHeader_member, keyMatches. intros H.
  apply String.eqb_eq in H. rewrite <- H. reflexivity.
Qed.

Section Decoding.

Context {TickerPayload DepthPayload Order Conn : Type}.

Variable mapRange : gmap string goval -> list (string * goval).
Hypothesis mapRange_perm : forall m, mapRange m ≡ₚ map_to_list m.
Variable json_MarshalIndent : goval -> string -> string -> bytes * option error.

Local Abbreviation Gox := (@Gox TickerPayload DepthPayload Order Conn).

Variables handleDebug handleTicker handleDepth handleResult
  : Gox -> string -> Gox * list event.

Local Abbreviation Trade_decode := (Trade_decode mapRange).
Local Abbreviation Trade_UnmarshalJSON := (Trade_UnmarshalJSON mapRange).
Local Abbreviation TradePayload_members := (TradePayload_members mapRange).
Local Abbreviation Unmarshal_TradePayload := (Unmarshal_TradePayload mapRange).
Local Abbreviation handleTrade := (handleTrade mapRange).
Local Abbreviation handle :=
  (handle mapRange json_MarshalIndent handleDebug handleTicker handleDepth
     handleResult).

Lemma mapRange_empty : mapRange ∅ = [].
Proof.
  apply Permutation_nil_r. rewrite mapRange_perm, map_to_list_empty. reflexivity.
Qed.

(** X13. A text that is no JSON object leaves the trade as it was: [null] is
    accepted without any effect, and everything else, malformed text
    included, is an error. *)
Theorem Trade_UnmarshalJSON_without_object t data :
  (forall ms, json.parse data <> Some (json.JObject ms)) ->
  fst (Trade_UnmarshalJSON t data) = t
  /\ (snd (Trade_UnmarshalJSON t data) = None <-> json.parse data = Some json.JNull).
Proof.
  intros Hno. unfold Trade_UnmarshalJSON, Trade_decode.
  destruct (json.parse data) as [[]|]; cbn;
    rewrite ?mapRange_empty; cbn; try (split; [reflexivity|split; congruence]).
  exfalso. eapply Hno. reflexivity.
Qed.


(** X16. Decoding a text a second time into the trade it was decoded into changes
    nothing. *)
Theorem Trade_UnmarshalJSON_idempotent t data :
  snd (Trade_UnmarshalJSON t data) = None ->
  Trade_UnmarshalJSON (fst (Trade_UnmarshalJSON t data)) data
  = Trade_UnmarshalJSON t data.
Proof.
  rewrite !Trade_UnmarshalJSON_unfold.
  destruct (Unmarshal_map data) as [raw [err|]]; [discriminate|].
  intros Hok.
  pose proof (Trade_range_perm_ok _ _ (mapRange_perm (default ∅ raw)) t Hok) as Hint.
  rewrite !(Trade_range_mapRange mapRange mapRange_perm) by exact Hint.
  cbn [fst]. rewrite Trade_filled_twice. reflexivity.
Qed.

(** The header fields of a payload that decodes without error are those the
    dispatcher read from the same frame. *)
Lemma TradePayload_members_header ms : forall p saved p',
  TradePayload_members p saved ms = (p', None) ->
  StreamHeader_members (Header p) saved ms = (Header p', None).
Proof.
  induction ms as [|[k v] ms IH]; intros p saved p';
    cbn [TradePayload_members StreamHeader_members].
  - intros [= <- ->]. reflexivity.
  - destruct (keyMatches "trade" k) eqn:Ek.
    + rewrite (keyMatches_trade_no_header k _ v Ek).
      destruct (Trade_decode (Trade_ p) v) as [t' [err|]]; [discriminate|].
      intros H. apply IH in H. exact H.
    + destruct (StreamHeader_member (Header p) k v) as [[h' e]|];
        intros H; apply IH in H; exact H.
Qed.

Lemma TradePayload_members_without_trade ms : forall p saved,
  noTradeMember ms = true ->
  TradePayload_members p saved ms =
  ({| Header := fst (StreamHeader_members (Header p) saved ms);
      Trade_ := Trade_ p |},
   snd (StreamHeader_members (Header p) saved ms)).
Proof.
  induction ms as [|[k v] ms IH]; intros p saved Hno;
    cbn [TradePayload_members StreamHeader_members].
  - destruct p; reflexivity.
  - cbn [noTradeMember forallb fst] in Hno. apply andb_prop in Hno as [Hk Hno].
    apply negb_true_iff in Hk. rewrite Hk.
    destruct (StreamHeader_member (Header p) k v) as [[h' e]|];
      rewrite IH by exact Hno; reflexivity.
Qed.

(** X11. A frame that decodes without error as a trade payload is sent to the
    trade handler exactly when that payload says [trade]: dispatcher and
    handler read the same header off the frame, and the handler's one send is
    the payload, discriminator included. *)
Theorem handle_publishes_trade_frame (g : Gox) data p :
  Unmarshal_TradePayload TradePayload_zero data = (p, None) ->
  Unmarshal_StreamHeader StreamHeader_zero data = (Header p, None)
  /\ (Private (Header p) = "trade" ->
      handle g data =
      (set_Trades g (fst (trySend (Trades g) p)),
       [SendTrade p (snd (trySend (Trades g) p))])).
Proof.
  intros Hp.
  assert (Hh : Unmarshal_StreamHeader StreamHeader_zero data = (Header p, None)).
  { unfold Unmarshal_TradePayload, Unmarshal_StreamHeader in *.
    destruct (json.parse data) as [[]|]; try discriminate.
    - injection Hp as <-. reflexivity.
    - apply TradePayload_members_header in Hp. exact Hp. }
  split; [exact Hh|].
  intros Hpriv. unfold handle. rewrite Hh. cbn [fst]. rewrite Hpriv.
  cbn [String.eqb Ascii.eqb Bool.eqb].
  unfold handleTrade. rewrite Hp.
  destruct (trySend (Trades g) p); reflexivity.
Qed.

(** X10. A frame without a [trade] member is no error: the handler publishes a
    payload whose trade is all zero. *)
Theorem handleTrade_without_trade_member (g : Gox) data ms :
  json.parse data = Some (json.JObject ms) ->
  noTradeMember ms = true ->
  let h := Unmarshal_StreamHeader StreamHeader_zero data in
  let payload := {| Header := fst h; Trade_ := Trade_zero |} in
  Unmarshal_TradePayload TradePayload_zero data = (payload, snd h)
  /\ exists ev taken, snd (handleTrade g data) = ev ++ [SendTrade payload taken].
Proof.
  intros Hparse Hno h payload.
  assert (Hp : Unmarshal_TradePayload TradePayload_zero data = (payload, snd h)).
  { subst payload h. unfold Unmarshal_TradePayload, Unmarshal_StreamHeader.
    rewrite Hparse. apply TradePayload_members_without_trade. exact Hno. }
  split; [exact Hp|].
  unfold handleTrade. rewrite Hp.
  destruct (snd h) as [e|].
  - destruct (trySend (Errors g) e) as [c tk].
    destruct (trySend _ payload) as [c' tk']. cbn. eexists [_], _. reflexivity.
  - destruct (trySend _ payload) as [c' tk']. cbn. exists [], tk'. reflexivity.
Qed.

End Decoding.


(** ** [SimpleTime], continued *)

Lemma layout_chunk3 :
  time.nextStdChunk (list_ascii_of_string "-02 15:04:05")
  = (["-"%char], Some time.stdZeroDay, list_ascii_of_string " 15:04:05").
Proof. reflexivity. Qed.

Lemma layout_chunk4 :
  time.nextStdChunk (list_ascii_of_string " 15:04:05")
  = ([" "%char], Some time.stdHour, list_ascii_of_string ":04:05").
Proof. reflexivity. Qed.

Lemma layout_chunk5 :
  time.nextStdChunk (list_ascii_of_string ":04:05")
  = ([":"%char], Some time.stdZeroMinute, list_ascii_of_string ":05").
Proof. reflexivity. Qed.

Lemma layout_chunk6 :
  time.nextStdChunk (list_ascii_of_string ":05")
  = ([":"%char], Some time.stdZeroSecond, []).
Proof. reflexivity. Qed.

Lemma parseLoop_S fuel l value f :
  time.parseLoop (S fuel) l value f =
  let '(prefix, s, suffix) := time.nextStdChunk l in
  match time.skip false value prefix with
  | None => (f, Some time.errBad)
  | Some value =>
      match s with
      | None =>
          match value with
          | [] => (f, None)
          | _ => (f, Some time.errExtra)
          end
      | Some s =>
          match time.parseStd s f value with
          | (f', value', None) => time.parseLoop fuel suffix value' f'
          | (f', _, Some e) => (f', Some e)
          end
      end
  end.
Proof. reflexivity. Qed.

Lemma isDigit_not_blank a : strconv.isDigit a = true -> Ascii.eqb a " " = false.
Proof.
  destruct a as [[] [] [] [] [] [] [] []]; try discriminate; reflexivity.
Qed.

Lemma getnum_two a b rest fixed :
  strconv.isDigit a = true -> strconv.isDigit b = true ->
  time.getnum (a :: b :: rest) fixed
  = Some (strconv.digitVal a * 10 + strconv.digitVal b, rest).
Proof. intros Ha Hb. unfold time.getnum. rewrite Ha, Hb. reflexivity. Qed.

(** A text in the shape of the layout, digit by digit: the fields are read
    as they stand, and month, hour, minute and second are checked in this
    order. *)
Lemma parseLoop_layout_digits fuel y1 y2 y3 y4 m1 m2 d1 d2 h1 h2 n1 n2 s1 s2 :
  forallb strconv.isDigit [y1; y2; y3; y4; m1; m2; d1; d2; h1; h2; n1; n2; s1; s2]
  = true ->
  let num a b := strconv.digitVal a * 10 + strconv.digitVal b in
  let r :=
    time.parseLoop (7 + fuel) (list_ascii_of_string layout)
      [y1; y2; y3; y4; "-"%char; m1; m2; "-"%char; d1; d2; " "%char; h1; h2;
       ":"%char; n1; n2; ":"%char; s1; s2]
      {| time.year := 0; time.month := -1; time.day := -1; time.hour := 0;
         time.min := 0; time.sec := 0; time.ns := 0 |} in
  snd r =
    (if (num m1 m2 <=? 0) || (12 <? num m1 m2) then Some (time.errRange "month")
     else if 24 <=? num h1 h2 then Some (time.errRange "hour")
     else if 60 <=? num n1 n2 then Some (time.errRange "minute")
     else if 60 <=? num s1 s2 then Some (time.errRange "second")
     else None)
  /\ (snd r = None ->
      fst r = {| time.year := float64.digitsVal [y1; y2; y3; y4];
                 time.month := num m1 m2; time.day := num d1 d2;
                 time.hour := num h1 h2; time.min := num n1 n2;
                 time.sec := num s1 s2; time.ns := 0 |}).
Proof.
  intros H num r. subst r. cbn [forallb] in H.
  repeat match type of H with
         | (_ && _)%bool = true =>
             let Hd := fresh "Hd" in apply andb_prop in H as [Hd H]
         end.
  change (7 + fuel)%nat with (S (S (S (S (S (S (S fuel))))))).
  rewrite parseLoop_S, layout_chunk1. cbn [time.skip time.parseStd forallb time.year time.month time.day time.hour
       time.min time.sec time.ns].
  rewrite Hd, Hd0, Hd1, Hd2. cbn [andb].
  rewrite parseLoop_S, layout_chunk2. cbn [time.skip Ascii.eqb Bool.eqb].
  cbn [time.parseStd time.year time.month time.day time.hour time.min time.sec
       time.ns]. rewrite (getnum_two m1 m2) by assumption. fold (num m1 m2).
  destruct ((num m1 m2 <=? 0) || (12 <? num m1 m2));
    [split; [reflexivity|discriminate]|].
  rewrite parseLoop_S, layout_chunk3. cbn [time.skip Ascii.eqb Bool.eqb].
  cbn [time.parseStd time.year time.month time.day time.hour time.min time.sec
       time.ns]. rewrite (getnum_two d1 d2) by assumption. fold (num d1 d2).
  rewrite parseLoop_S, layout_chunk4.
  cbn [time.skip time.cutspace Ascii.eqb Bool.eqb].
  rewrite (isDigit_not_blank h1) by assumption.
  cbn [time.parseStd time.year time.month time.day time.hour time.min time.sec
       time.ns]. rewrite (getnum_two h1 h2) by assumption. fold (num h1 h2).
  destruct (24 <=? num h1 h2); [split; [reflexivity|discriminate]|].
  rewrite parseLoop_S, layout_chunk5. cbn [time.skip Ascii.eqb Bool.eqb].
  cbn [time.parseStd time.year time.month time.day time.hour time.min time.sec
       time.ns]. rewrite (getnum_two n1 n2) by assumption. fold (num n1 n2).
  destruct (60 <=? num n1 n2); [split; [reflexivity|discriminate]|].
  rewrite parseLoop_S, layout_chunk6. cbn [time.skip Ascii.eqb Bool.eqb].
  cbn [time.parseStd time.year time.month time.day time.hour time.min time.sec
       time.ns]. rewrite (getnum_two s1 s2) by assumption. fold (num s1 s2).
  destruct (60 <=? num s1 s2); [split; [reflexivity|discriminate]|].
  rewrite parseLoop_S. cbn. split; reflexivity.
Qed.

Lemma digitVal_digitChar d :
  0 <= d <= 9 -> strconv.digitVal (strconv.digitChar d) = d.
Proof.
  intros H.
  assert (Hc : d = 0 \/ d = 1 \/ d = 2 \/ d = 3 \/ d = 4 \/ d = 5 \/ d = 6
               \/ d = 7 \/ d = 8 \/ d = 9) by lia.
  repeat destruct Hc as [->|Hc]; try reflexivity. subst. reflexivity.
Qed.

Lemma isDigit_digitChar d : 0 <= d <= 9 -> strconv.isDigit (strconv.digitChar d) = true.
Proof. intros H. apply digitChar_spec. exact H. Qed.

(** [Parse] on a text written in the layout. *)
Lemma Parse_layoutText y mo d h mi s :
  0 <= y <= 9999 -> 0 <= mo <= 99 -> 0 <= d <= 99 ->
  0 <= h <= 99 -> 0 <= mi <= 99 -> 0 <= s <= 99 ->
  time.Parse layout (layoutText y mo d h mi s) =
  if (mo <=? 0) || (12 <? mo) then (time.zero, Some (time.errRange "month"))
  else if 24 <=? h then (time.zero, Some (time.errRange "hour"))
  else if 60 <=? mi then (time.zero, Some (time.errRange "minute"))
  else if 60 <=? s then (time.zero, Some (time.errRange "second"))
  else if (d <? 1) || (time.daysIn mo y <? d)
       then (time.zero, Some (time.errRange "day"))
  else (time.Date y mo d h mi s 0 time.UTC, None).
Proof.
  intros Hy Hmo Hd Hh Hmi Hs.
  unfold time.Parse, layoutText. rewrite list_ascii_of_string_of_list_ascii.
  change (S (length (list_ascii_of_string layout))) with (7 + 13)%nat.
  unfold fourDigits, twoDigits. cbn [app].
  assert (Hdig : forall n, 0 <= n <= 99 -> 0 <= n / 10 <= 9 /\ 0 <= n mod 10 <= 9).
  { intros n Hn. Z.to_euclidean_division_equations. lia. }
  assert (Hnum : forall n, 0 <= n <= 99 ->
            strconv.digitVal (strconv.digitChar (n / 10)) * 10
            + strconv.digitVal (strconv.digitChar (n mod 10)) = n).
  { intros n Hn. destruct (Hdig n Hn).
    rewrite !digitVal_digitChar by assumption.
    Z.to_euclidean_division_equations. lia. }
  assert (Hy4 : 0 <= y / 1000 <= 9 /\ 0 <= y / 100 mod 10 <= 9
                /\ 0 <= y / 10 mod 10 <= 9 /\ 0 <= y mod 10 <= 9).
  { Z.to_euclidean_division_equations. lia. }
  destruct Hy4 as (Hy1 & Hy2 & Hy3 & Hy4).
  match goal with
  | |- context [time.parseLoop _ _ ?v ?f] =>
      pose proof (parseLoop_layout_digits 13
        (strconv.digitChar (y / 1000)) (strconv.digitChar (y / 100 mod 10))
        (strconv.digitChar (y / 10 mod 10)) (strconv.digitChar (y mod 10))
        (strconv.digitChar (mo / 10)) (strconv.digitChar (mo mod 10))
        (strconv.digitChar (d / 10)) (strconv.digitChar (d mod 10))
        (strconv.digitChar (h / 10)) (strconv.digitChar (h mod 10))
        (strconv.digitChar (mi / 10)) (strconv.digitChar (mi mod 10))
        (strconv.digitChar (s / 10)) (strconv.digitChar (s mod 10))) as Hloop
  end.
  cbv beta zeta in Hloop.
  rewrite !Hnum in Hloop by assumption.
  destruct Hloop as [Herr Hok].
  { cbn [forallb].
    destruct (Hdig mo Hmo), (Hdig d Hd), (Hdig h Hh), (Hdig mi Hmi), (Hdig s Hs).
    rewrite !isDigit_digitChar by assumption. reflexivity. }
  destruct (time.parseLoop _ _ _ _) as [f e]. cbn [fst snd] in *. subst e.
  destruct ((mo <=? 0) || (12 <? mo)) eqn:Emo; [reflexivity|].
  destruct (24 <=? h); [reflexivity|].
  destruct (60 <=? mi); [reflexivity|].
  destruct (60 <=? s); [reflexivity|].
  rewrite (Hok eq_refl). cbn [time.month time.day time.year time.hour time.min
                              time.sec time.ns].
  assert (Hyear : float64.digitsVal
            [strconv.digitChar (y / 1000); strconv.digitChar (y / 100 mod 10);
             strconv.digitChar (y / 10 mod 10); strconv.digitChar (y mod 10)] = y).
  { unfold float64.digitsVal. cbn [fold_left].
    rewrite !digitVal_digitChar by assumption.
    Z.to_euclidean_division_equations. lia. }
  rewrite Hyear.
  apply orb_false_elim in Emo as [E1 E2].
  replace (mo =? -1) with false by (symmetry; apply Z.eqb_neq; lia).
  replace (d =? -1) with false by (symmetry; apply Z.eqb_neq; lia).
  reflexivity.
Qed.

(** X18. Every civil time of the years 0 to 9999, written in the layout without
    quotes, is accepted and gives that time of day on that day, in UTC and
    without a fraction of a second. *)
Theorem SimpleTime_UnmarshalJSON_layout_text t y mo d h mi s :
  0 <= y <= 9999 -> 1 <= mo <= 12 -> 1 <= d <= time.daysIn mo y ->
  0 <= h < 24 -> 0 <= mi < 60 -> 0 <= s < 60 ->
  SimpleTime_UnmarshalJSON t (layoutText y mo d h mi s)
  = ({| Time := time.Date y mo d h mi s 0 time.UTC |}, None).
Proof.
  intros Hy Hmo Hd Hh Hmi Hs. unfold SimpleTime_UnmarshalJSON.
  assert (Hd31 : time.daysIn mo y <= 31).
  { unfold time.daysIn. repeat match goal with
                               | |- context [if ?b then _ else _] => destruct b
                               end; lia. }
  rewrite Parse_layoutText by lia.
  replace ((mo <=? 0) || (12 <? mo)) with false
    by (symmetry; apply orb_false_intro; [apply Z.leb_gt|apply Z.ltb_ge]; lia).
  replace (24 <=? h) with false by (symmetry; apply Z.leb_gt; lia).
  replace (60 <=? mi) with false by (symmetry; apply Z.leb_gt; lia).
  replace (60 <=? s) with false by (symmetry; apply Z.leb_gt; lia).
  replace ((d <? 1) || (time.daysIn mo y <? d)) with false
    by (symmetry; apply orb_false_intro; apply Z.ltb_ge; lia).
  reflexivity.
Qed.

(** X19. A text in the shape of the layout whose month, day of the month, hour,
    minute or second is out of range is rejected with a range error, the
    thirtieth of February like the twenty-fifth hour, and the receiver stays
    as it was. *)
Theorem SimpleTime_UnmarshalJSON_out_of_range t y mo d h mi s :
  0 <= y <= 9999 -> 0 <= mo <= 99 -> 0 <= d <= 99 ->
  0 <= h <= 99 -> 0 <= mi <= 99 -> 0 <= s <= 99 ->
  ~ (1 <= mo <= 12 /\ 1 <= d <= time.daysIn mo y /\ h < 24 /\ mi < 60 /\ s < 60) ->
  exists what,
    SimpleTime_UnmarshalJSON t (layoutText y mo d h mi s)
    = (t, Some (TimeParseError layout (layoutText y mo d h mi s)
                  (time.errRange what))).
Proof.
  intros Hy Hmo Hd Hh Hmi Hs Hbad. unfold SimpleTime_UnmarshalJSON.
  rewrite Parse_layoutText by assumption.
  destruct ((mo <=? 0) || (12 <? mo)) eqn:Emo; [eexists; reflexivity|].
  destruct (Z.leb_spec 24 h); [eexists; reflexivity|].
  destruct (Z.leb_spec 60 mi); [eexists; reflexivity|].
  destruct (Z.leb_spec 60 s); [eexists; reflexivity|].
  destruct ((d <? 1) || (time.daysIn mo y <? d)) eqn:Ed; [eexists; reflexivity|].
  exfalso. apply Hbad.
  apply orb_false_elim in Emo as [E1 E2]. apply orb_false_elim in Ed as [E3 E4].
  apply Z.leb_gt in E1. apply Z.ltb_ge in E2, E3, E4. lia.
Qed.

(** ** The reader *)

(** X20. The reader stops at the first error of [ReadMessage]: it sends that error
    on and reads no more, whatever the connection would still deliver; up to
    there every read is answered by one send. *)
Theorem messages_stops_at_read_error before messageType p err after :
  Forall (fun r => snd r = None) before ->
  messages (before ++ (messageType, p, Some err) :: after)
  = messages before ++ [ToErrors err]
  /\ length (messages (before ++ (messageType, p, Some err) :: after))
     = S (length before).
Proof.
  induction before as [|[[mt q] e] before IH]; intros Hok.
  - split; reflexivity.
  - apply Forall_cons in Hok as [He Hok]. cbn in He. subst e.
    destruct (IH Hok) as [IH1 IH2]. cbn [app messages].
    destruct (mt =? TextMessage); cbn [app length]; rewrite IH1;
      (split; [reflexivity|]); rewrite <- IH1, IH2; reflexivity.
Qed.

(** X21. While [ReadMessage] returns no error, the text frames are passed on to
    the dispatcher unchanged and in the order they were read, none lost and
    none twice; every frame of another type is answered by one error that
    names the type, in the same order; and each read is answered by exactly
    one send. *)
Theorem messages_passes_text_frames reads :
  Forall (fun r => snd r = None) reads ->
  passedOn (messages reads)
  = map (fun r => snd (fst r)) (filter (fun r => fst (fst r) = TextMessage) reads)
  /\ reported (messages reads)
     = map (fun r => unknownMessageType (fst (fst r)))
         (filter (fun r => fst (fst r) <> TextMessage) reads)
  /\ length (messages reads) = length reads.
Proof.
  induction reads as [|[[mt q] e] reads IH]; intros Hok.
  - repeat split.
  - apply Forall_cons in Hok as [He Hok]. cbn in He. subst e.
    destruct (IH Hok) as (IH1 & IH2 & IH3). cbn [messages].
    unfold passedOn, reported in *.
    destruct (Z.eqb_spec mt TextMessage) as [Heq|Hne].
    + rewrite filter_cons_True by exact Heq.
      rewrite filter_cons_False by (cbn; intros Hn; apply Hn; exact Heq).
      cbn [flat_map app map length fst snd]. rewrite IH1, IH2, IH3. repeat split.
    + rewrite filter_cons_False by exact Hne.
      rewrite filter_cons_True by exact Hne.
      cbn [flat_map app map length fst snd]. rewrite IH1, IH2, IH3. repeat split.
Qed.

Section Closing.

Context {TickerPayload DepthPayload Order Conn : Type}.
Local Abbreviation Gox := (@Gox TickerPayload DepthPayload Order Conn).

(** X22. [Close] returns once on a client fresh from the constructor, leaving its
    value in [done] and everything else as it was; a second [Close] finds
    [done] full and, with nobody receiving from it, never returns. *)
Theorem Close_only_once (c : Conn) k s (g : Gox) :
  NewWithConnection k s c = (Some g, None) ->
  exists g1,
    Close g = Some g1
    /\ g1 = set_done g {| cap := 1; buf := [true] |}
    /\ Close g1 = None.
Proof.
  unfold NewWithConnection.
  destruct (hex.DecodeString (removeDashes k)) as [kb [e|]]; [discriminate|].
  destruct (base64.DecodeString s) as [sb [e|]]; [discriminate|].
  intros [= <-]. eexists. split; [reflexivity|]. split; reflexivity.
Qed.

End Closing.

(** * The client at concrete frames *)

(** C1, on the code. A trade frame whose [amount_int] does not fit 64 bits
    fails to decode; [handleTrade] queues the error and then, without
    returning, queues the half-filled payload on [Trades] as well: the
    consumer of [Trades] receives a trade whose [Amount] is the largest int64,
    a value the frame never held. *)
Theorem handleTrade_publishes_after_decode_error :
  let data := wire "{'private':'trade','trade':{'amount_int':'99999999999999999999'}}" in
  let err := NumError "ParseInt" "99999999999999999999" strconv.ErrRange in
  let garbage := {| Header := scenarioHeader;
                    Trade_ := set_Amount Trade_zero 9223372036854775807 |} in
  NewWithConnection "" "" [] = (Some freshClient, None)
  /\ Unmarshal_TradePayload map_to_list TradePayload_zero data = (garbage, Some err)
  /\ snd (handleTrade map_to_list freshClient data)
     = [SendError err true; SendTrade garbage true]
  /\ buf (Errors (fst (handleTrade map_to_list freshClient data))) = [err]
  /\ buf (Trades (fst (handleTrade map_to_list freshClient data))) = [garbage].
Proof.
  cbv zeta. repeat split; vm_compute; reflexivity.
Qed.

(** C5, as stated, fails: the object below holds no string under
    [amount_int] or [price_int], rejected or not, and yet the call fails: its
    number is beyond float64, the generic decode reports that, and the method
    returns the error before its loop. *)
Lemma Trade_UnmarshalJSON_fails_on_number_beyond_float64 :
  let data := wire "{'date':1e999}" in
  let m := default ∅ (fst (Unmarshal_map data)) in
  let err := UnmarshalTypeError "number 1e999" "float64" in
  json.parse data = Some (json.JObject [("date", json.JNumber "1e999")])
  /\ m !! "amount_int" = None /\ m !! "price_int" = None
  /\ integersOk m = true
  /\ Trade_UnmarshalJSON map_to_list Trade_zero data = (Trade_zero, Some err)
  /\ snd (Trade_UnmarshalJSON map_to_list Trade_zero data) <> None.
Proof.
  cbv zeta. repeat split; try (vm_compute; reflexivity);
    vm_compute; discriminate.
Qed.

(** C9, as stated, fails: a number under [amount_int] that is beyond float64
    makes the call fail with the error of the generic decode; and with a
    number that fits, the call still fails when the other integer key holds
    a string that [ParseInt] rejects. *)
Lemma Trade_UnmarshalJSON_fails_with_number_under_integer_key :
  let data1 := wire "{'amount_int':1e999}" in
  let data2 := wire "{'amount_int':5,'price_int':'x'}" in
  json.parse data1 = Some (json.JObject [("amount_int", json.JNumber "1e999")])
  /\ Trade_UnmarshalJSON map_to_list Trade_zero data1
     = (Trade_zero, Some (UnmarshalTypeError "number 1e999" "float64"))
  /\ snd (Trade_UnmarshalJSON map_to_list Trade_zero data1) <> None
  /\ json.parse data2
     = Some (json.JObject [("amount_int", json.JNumber "5");
                           ("price_int", json.JString "x")])
  /\ snd (Trade_UnmarshalJSON map_to_list Trade_zero data2)
     = Some (NumError "ParseInt" "x" strconv.ErrSyntax)
  /\ snd (Trade_UnmarshalJSON map_to_list Trade_zero data2) <> None.
Proof.
  cbv zeta. repeat split; try (vm_compute; reflexivity);
    vm_compute; discriminate.
Qed.

(** C6, as stated, fails: [+5] and [007] are accepted by the decoder, and
    what comes back from the decoded integers is [5] and [7]. *)
Lemma integer_round_trip_loses_sign_and_zeros :
  let data := wire "{'amount_int':'+5','price_int':'007'}" in
  let r := Trade_UnmarshalJSON map_to_list Trade_zero data in
  snd r = None
  /\ strconv.FormatInt (Amount (fst r)) = "5"
  /\ strconv.FormatInt (Amount (fst r)) <> "+5"
  /\ strconv.FormatInt (Price (fst r)) = "7"
  /\ strconv.FormatInt (Price (fst r)) <> "007".
Proof.
  cbv zeta. repeat split; try (vm_compute; reflexivity);
    vm_compute; discriminate.
Qed.

(** C10, as stated, fails: in an object a member of the wrong type makes the
    header decoder return an error, yet the members that fit are stored. The
    frame below is therefore routed by its discriminator to the trade
    handler, whose own decoder meets the same member and puts the error on
    the error channel. *)
Lemma handle_routes_frame_with_type_error :
  let data := wire "{'private':'trade','op':5}" in
  let err := UnmarshalTypeError "number" "string" in
  let payload := {| Header := scenarioHeader; Trade_ := Trade_zero |} in
  snd (Unmarshal_StreamHeader StreamHeader_zero data) = Some err
  /\ Private (fst (Unmarshal_StreamHeader StreamHeader_zero data)) = "trade"
  /\ Private (fst (Unmarshal_StreamHeader StreamHeader_zero data)) <> ""
  /\ demoHandle freshClient data = handleTrade map_to_list freshClient data
  /\ snd (demoHandle freshClient data)
     = [SendError err true; SendTrade payload true]
  /\ buf (Errors (fst (demoHandle freshClient data))) = [err]
  /\ buf (Errors (fst (demoHandle freshClient data))) <> buf (Errors freshClient).
Proof.
  cbv zeta. repeat split; try (vm_compute; reflexivity);
    vm_compute; discriminate.
Qed.

(** * The theorems at concrete inputs *)

Lemma authenticatedSend_with_empty_credentials_witness :
  marshalEmptyObject (VMap ∅) = (bytesOfString "{}", None)
  /\ exists g : @Gox unit unit unit (list goval),
       NewWithConnection "" "" [] = (Some g, None)
       /\ key g = Some [] /\ secret g = Some []
       /\ let env := envelope (default VNil ((∅ : gmap string goval) !! "id"))
                       (base64.EncodeToString
                          (hmac.Sum [] (bytesOfString "{}") ++ bytesOfString "{}")) in
          authenticatedSend marshalEmptyObject logWrite g ∅ =
          (set_conn g (fst (logWrite [] env)), snd (logWrite [] env)).
Proof.
  split; [reflexivity|].
  apply (authenticatedSend_with_empty_credentials (TickerPayload := unit)
           (DepthPayload := unit) (Order := unit)
           marshalEmptyObject logWrite [] ∅ (bytesOfString "{}")).
  reflexivity.
Defined.

Lemma authenticatedSend_envelope_witness :
  key freshClient = Some [] /\ secret freshClient = Some []
  /\ marshalEmptyObject (VMap ∅) = (bytesOfString "{}", None)
  /\ sign freshClient (bytesOfString "{}")
     = (hmac.Sum [] (bytesOfString "{}"), None).
Proof.
  split; [reflexivity|]. split; [reflexivity|]. split; [reflexivity|].
  apply (authenticatedSend_envelope marshalEmptyObject logWrite freshClient ∅
           [] [] (bytesOfString "{}")); reflexivity.
Defined.

Lemma Trade_UnmarshalJSON_fails_only_on_integer_strings_witness :
  let data := wire "{'tid':'7','amount_int':'12','note':[1,2.5]}" in
  let ms := [("tid", json.JString "7"); ("amount_int", json.JString "12");
             ("note", json.JArray [json.JNumber "1"; json.JNumber "2.5"])] in
  let m := default ∅ (fst (Unmarshal_map data)) in
  (forall m : gmap string goval, map_to_list m ≡ₚ map_to_list m)
  /\ json.parse data = Some (json.JObject ms)
  /\ numbersFit (json.JObject ms) = true
  /\ integersOk m = true
  /\ Unmarshal_map data = (Some m, None)
  /\ Trade_UnmarshalJSON map_to_list Trade_zero data
     = (Trade_filled Trade_zero m, None).
Proof.
  cbv zeta.
  assert (Hparse : json.parse (wire "{'tid':'7','amount_int':'12','note':[1,2.5]}")
                   = Some (json.JObject
                             [("tid", json.JString "7");
                              ("amount_int", json.JString "12");
                              ("note", json.JArray [json.JNumber "1";
                                                    json.JNumber "2.5"])]))
    by (vm_compute; reflexivity).
  split; [reflexivity|]. split; [exact Hparse|]. split; [vm_compute; reflexivity|].
  split; [vm_compute; reflexivity|].
  destruct (Trade_UnmarshalJSON_fails_only_on_integer_strings map_to_list
              (fun m => reflexivity (map_to_list m)) Trade_zero _ _ Hparse)
    as [Hfit _].
  destruct Hfit as (m & Hm & Hok & _); [vm_compute; reflexivity|].
  assert (Heq : default ∅ (fst (Unmarshal_map
                  (wire "{'tid':'7','amount_int':'12','note':[1,2.5]}"))) = m)
    by (rewrite Hm; reflexivity).
  rewrite Heq. split; [exact Hm|].
  apply Hok. rewrite <- Heq. vm_compute; reflexivity.
Defined.

Lemma Trade_integer_fields_round_trip_witness :
  let data := wire "{'amount_int':'-12','price_int':'034'}" in
  let r := Trade_UnmarshalJSON map_to_list Trade_zero data in
  (forall m : gmap string goval, map_to_list m ≡ₚ map_to_list m)
  /\ Unmarshal_map data = (fst (Unmarshal_map data), None)
  /\ default ∅ (fst (Unmarshal_map data)) !! "amount_int" = Some (VString "-12")
  /\ default ∅ (fst (Unmarshal_map data)) !! "price_int" = Some (VString "034")
  /\ r = (fst r, None)
  /\ (strconv.FormatInt (Amount (fst r)) = "-12" <-> strconv.canonical "-12" = true)
  /\ (strconv.FormatInt (Price (fst r)) = "034" <-> strconv.canonical "034" = true).
Proof.
  cbv zeta. split; [reflexivity|]. split; [vm_compute; reflexivity|].
  split; [vm_compute; reflexivity|]. split; [vm_compute; reflexivity|].
  split; [vm_compute; reflexivity|].
  apply (Trade_integer_fields_round_trip map_to_list
           (fun m => reflexivity (map_to_list m)) Trade_zero
           (wire "{'amount_int':'-12','price_int':'034'}")
           (fst (Unmarshal_map (wire "{'amount_int':'-12','price_int':'034'}"))));
    vm_compute; reflexivity.
Defined.

Lemma Unmarshal_scenario_trade_witness :
  (forall m : gmap string goval, map_to_list m ≡ₚ map_to_list m)
  /\ Trade_ (fst (Unmarshal_TradePayload map_to_list TradePayload_zero
       (wire "{'private':'trade','trade':{'type':'trade','tid':'123','amount_int':'500000000','price_int':'4200000000','item':'BTC','price_currency':'USD','trade_type':'ask','date':1700000000}}")))
     = scenarioTrade.
Proof.
  split; [reflexivity|].
  rewrite (proj1 (Unmarshal_scenario_trade map_to_list
                    (fun m => reflexivity (map_to_list m)))).
  reflexivity.
Defined.


Lemma Trade_UnmarshalJSON_number_under_integer_key_witness :
  let data := wire "{'amount_int':5,'price_int':'7'}" in
  let ms := [("amount_int", json.JNumber "5"); ("price_int", json.JString "7")] in
  let m := default ∅ (fst (Unmarshal_map data)) in
  let r := Trade_UnmarshalJSON map_to_list scenarioTrade data in
  (forall m : gmap string goval, map_to_list m ≡ₚ map_to_list m)
  /\ json.parse data = Some (json.JObject ms)
  /\ numbersFit (json.JObject ms) = true
  /\ m !! "amount_int" = Some (VFloat64 (fst (float64.ParseFloat "5")))
  /\ integerOk (m !! "price_int") = true
  /\ Unmarshal_map data = (Some m, None)
  /\ Amount (fst r) = Amount scenarioTrade
  /\ r = (Trade_filled scenarioTrade m, None).
Proof.
  cbv zeta.
  assert (Hparse : json.parse (wire "{'amount_int':5,'price_int':'7'}")
                   = Some (json.JObject [("amount_int", json.JNumber "5");
                                         ("price_int", json.JString "7")]))
    by (vm_compute; reflexivity).
  assert (Hnum : default ∅ (fst (Unmarshal_map
                   (wire "{'amount_int':5,'price_int':'7'}"))) !! "amount_int"
                 = Some (VFloat64 (fst (float64.ParseFloat "5"))))
    by (vm_compute; reflexivity).
  assert (Hother : integerOk (default ∅ (fst (Unmarshal_map
                     (wire "{'amount_int':5,'price_int':'7'}"))) !! "price_int")
                   = true)
    by (vm_compute; reflexivity).
  split; [reflexivity|]. split; [exact Hparse|]. split; [vm_compute; reflexivity|].
  split; [exact Hnum|]. split; [exact Hother|].
  destruct (Trade_UnmarshalJSON_number_under_integer_key map_to_list
              (fun m => reflexivity (map_to_list m)) scenarioTrade _ _
              (fst (float64.ParseFloat "5")) Hparse)
    as [Hfit _].
  destruct Hfit as (m & Hm & Ha & _); [vm_compute; reflexivity|].
  assert (Heq : default ∅ (fst (Unmarshal_map
                  (wire "{'amount_int':5,'price_int':'7'}"))) = m)
    by (rewrite Hm; reflexivity).
  rewrite Heq in Hnum, Hother |- *. split; [exact Hm|].
  destruct (Ha Hnum) as [Hamount Hres]. split; [exact Hamount|].
  exact (Hres Hother).
Defined.

Lemma handle_frame_without_object_witness :
  noObject "not json" = true
  /\ snd (Unmarshal_StreamHeader StreamHeader_zero "not json") <> None
  /\ Private (fst (Unmarshal_StreamHeader StreamHeader_zero "not json")) = ""
  /\ demoHandle freshClient "not json"
     = (freshClient,
        [Println "";
         Println (string_of_list_byte (PrettyPrintJson indentEmptyObject VNil))]).
Proof.
  assert (H : noObject "not json" = true) by (vm_compute; reflexivity).
  destruct (handle_frame_without_object map_to_list indentEmptyObject
              noHandler noHandler noHandler noHandler freshClient "not json" H)
    as (H1 & H2 & H3 & _).
  repeat split; assumption.
Defined.

(** * The further theorems at concrete inputs *)

Lemma NewWithConnection_decodes_credentials_witness :
  removeDashes "0a-1b" = hexString [x0a; x1b]
  /\ NewWithConnection "0a-1b" (base64.EncodeToString [x01; x02]) []
     = (Some keyedClient, None).
Proof.
  split; [reflexivity|].
  apply (NewWithConnection_decodes_credentials (TickerPayload := unit)
           (DepthPayload := unit) (Order := unit) ([] : list goval)
           "0a-1b" [x0a; x1b] [x01; x02]).
  reflexivity.
Defined.

Lemma NewWithConnection_key_length_witness :
  NewWithConnection "0a-1b" "AQI=" [] = (Some keyedClient, None)
  /\ exists kb sb,
       key keyedClient = Some kb /\ secret keyedClient = Some sb
       /\ conn keyedClient = []
       /\ String.length (removeDashes "0a-1b") = (2 * length kb)%nat.
Proof.
  split; [reflexivity|].
  apply (NewWithConnection_key_length [] "0a-1b" "AQI=" keyedClient).
  reflexivity.
Defined.

Lemma authenticatedSend_after_constructor_witness :
  NewWithConnection "0a-1b" "AQI=" [] = (Some keyedClient, None)
  /\ marshalEmptyObject (VMap ∅) = (bytesOfString "{}", None)
  /\ exists kb sb,
       hex.DecodeString (removeDashes "0a-1b") = (kb, None)
       /\ base64.DecodeString "AQI=" = (sb, None)
       /\ let env := envelope (default VNil ((∅ : gmap string goval) !! "id"))
                       (base64.EncodeToString
                          ((kb ++ hmac.Sum sb (bytesOfString "{}"))
                           ++ bytesOfString "{}")) in
          authenticatedSend marshalEmptyObject logWrite keyedClient ∅ =
          (set_conn keyedClient (fst (logWrite [] env)), snd (logWrite [] env)).
Proof.
  split; [reflexivity|]. split; [reflexivity|].
  apply (authenticatedSend_after_constructor marshalEmptyObject logWrite []
           "0a-1b" "AQI=" keyedClient ∅ (bytesOfString "{}")); reflexivity.
Defined.

Lemma authenticatedSend_failure_writes_nothing_witness :
  key unkeyedClient = None
  /\ exists err,
       forall WriteJSON : list goval -> goval -> list goval * option error,
         authenticatedSend marshalEmptyObject WriteJSON unkeyedClient ∅
         = (unkeyedClient, Some err).
Proof.
  split; [reflexivity|].
  apply (authenticatedSend_failure_writes_nothing marshalEmptyObject
           unkeyedClient ∅).
  left. reflexivity.
Defined.

Lemma call_envelope_witness :
  key keyedClient = Some [x0a; x1b] /\ secret keyedClient = Some [x01; x02]
  /\ call marshalEmptyObject logWrite keyedClient "private/info" None
       (VString "7") (VInt64 1)
     = (set_conn keyedClient
          (fst (logWrite (conn keyedClient)
                  (envelope (VString "7")
                     (base64.EncodeToString
                        (([x0a; x1b] ++ hmac.Sum [x01; x02] (bytesOfString "{}"))
                         ++ bytesOfString "{}"))))),
        snd (logWrite (conn keyedClient)
               (envelope (VString "7")
                  (base64.EncodeToString
                     (([x0a; x1b] ++ hmac.Sum [x01; x02] (bytesOfString "{}"))
                      ++ bytesOfString "{}"))))).
Proof.
  split; [reflexivity|]. split; [reflexivity|].
  apply (call_envelope marshalEmptyObject logWrite keyedClient "private/info"
           None (VString "7") (VInt64 1) [x0a; x1b] [x01; x02]
           (bytesOfString "{}")); reflexivity.
Defined.

Lemma handleTrade_publishes_decoded_witness :
  let data := wire "{'private':'trade','trade':{'tid':'7','amount_int':'12'}}" in
  let p := fst (Unmarshal_TradePayload map_to_list TradePayload_zero data) in
  Unmarshal_TradePayload map_to_list TradePayload_zero data = (p, None)
  /\ (length (buf (Trades freshClient)) < cap (Trades freshClient))%nat
  /\ handleTrade map_to_list freshClient data =
     (set_Trades freshClient
        {| cap := cap (Trades freshClient);
           buf := buf (Trades freshClient) ++ [p] |},
      [SendTrade p true]).
Proof.
  cbv zeta.
  assert (H : Unmarshal_TradePayload map_to_list TradePayload_zero
                (wire "{'private':'trade','trade':{'tid':'7','amount_int':'12'}}")
              = (fst (Unmarshal_TradePayload map_to_list TradePayload_zero
                        (wire "{'private':'trade','trade':{'tid':'7','amount_int':'12'}}")),
                 None)) by (vm_compute; reflexivity).
  split; [exact H|]. split; [cbn; lia|].
  apply (handleTrade_publishes_decoded map_to_list freshClient _ _ H).
  cbn; lia.
Defined.

Lemma handleTrade_second_trade_is_dropped_witness :
  cap (Trades freshClient) = 1%nat /\ buf (Trades freshClient) = []
  /\ buf (Trades (fst (handleTrade map_to_list freshClient
                         (wire "{'trade':{'tid':'1'}}"))))
     = [fst (Unmarshal_TradePayload map_to_list TradePayload_zero
               (wire "{'trade':{'tid':'1'}}"))].
Proof.
  split; [reflexivity|]. split; [reflexivity|].
  apply (handleTrade_second_trade_is_dropped map_to_list freshClient
           (wire "{'trade':{'tid':'1'}}") (wire "{'trade':{'tid':'2'}}"));
    reflexivity.
Defined.


Lemma Trade_UnmarshalJSON_without_object_witness :
  (forall m : gmap string goval, map_to_list m ≡ₚ map_to_list m)
  /\ (forall ms, json.parse "[1]" <> Some (json.JObject ms))
  /\ fst (Trade_UnmarshalJSON map_to_list scenarioTrade "[1]") = scenarioTrade.
Proof.
  assert (H : forall ms, json.parse "[1]" <> Some (json.JObject ms))
    by (intros ms; vm_compute; discriminate).
  split; [reflexivity|]. split; [exact H|].
  apply (Trade_UnmarshalJSON_without_object map_to_list
           (fun m => reflexivity (map_to_list m)) scenarioTrade "[1]" H).
Defined.


Lemma Trade_UnmarshalJSON_idempotent_witness :
  let data := wire "{'tid':'7','amount_int':'12','date':1.5}" in
  (forall m : gmap string goval, map_to_list m ≡ₚ map_to_list m)
  /\ snd (Trade_UnmarshalJSON map_to_list scenarioTrade data) = None
  /\ Trade_UnmarshalJSON map_to_list
       (fst (Trade_UnmarshalJSON map_to_list scenarioTrade data)) data
     = Trade_UnmarshalJSON map_to_list scenarioTrade data.
Proof.
  cbv zeta.
  assert (H : snd (Trade_UnmarshalJSON map_to_list scenarioTrade
                     (wire "{'tid':'7','amount_int':'12','date':1.5}")) = None)
    by (vm_compute; reflexivity).
  split; [reflexivity|]. split; [exact H|].
  apply (Trade_UnmarshalJSON_idempotent map_to_list
           (fun m => reflexivity (map_to_list m)) scenarioTrade _ H).
Defined.

Lemma handle_publishes_trade_frame_witness :
  let data := wire "{'private':'trade','trade':{'tid':'7','amount_int':'12'}}" in
  let p := fst (Unmarshal_TradePayload map_to_list TradePayload_zero data) in
  Unmarshal_TradePayload map_to_list TradePayload_zero data = (p, None)
  /\ Private (Header p) = "trade"
  /\ demoHandle freshClient data =
     (set_Trades freshClient (fst (trySend (Trades freshClient) p)),
      [SendTrade p (snd (trySend (Trades freshClient) p))]).
Proof.
  cbv zeta.
  assert (H : Unmarshal_TradePayload map_to_list TradePayload_zero
                (wire "{'private':'trade','trade':{'tid':'7','amount_int':'12'}}")
              = (fst (Unmarshal_TradePayload map_to_list TradePayload_zero
                        (wire "{'private':'trade','trade':{'tid':'7','amount_int':'12'}}")),
                 None)) by (vm_compute; reflexivity).
  assert (Hp : Private (Header (fst (Unmarshal_TradePayload map_to_list
                 TradePayload_zero
                 (wire "{'private':'trade','trade':{'tid':'7','amount_int':'12'}}"))))
               = "trade") by (vm_compute; reflexivity).
  split; [exact H|]. split; [exact Hp|].
  destruct (handle_publishes_trade_frame map_to_list indentEmptyObject
              noHandler noHandler noHandler noHandler freshClient _ _ H)
    as [_ Hh].
  exact (Hh Hp).
Defined.

Lemma handleTrade_without_trade_member_witness :
  let data := wire "{'private':'trade','op':'private'}" in
  let ms := [("private", json.JString "trade"); ("op", json.JString "private")] in
  json.parse data = Some (json.JObject ms)
  /\ noTradeMember ms = true
  /\ Unmarshal_TradePayload map_to_list TradePayload_zero data
     = ({| Header := fst (Unmarshal_StreamHeader StreamHeader_zero data);
           Trade_ := Trade_zero |},
        snd (Unmarshal_StreamHeader StreamHeader_zero data)).
Proof.
  cbv zeta.
  assert (H : json.parse (wire "{'private':'trade','op':'private'}")
              = Some (json.JObject [("private", json.JString "trade");
                                    ("op", json.JString "private")]))
    by (vm_compute; reflexivity).
  split; [exact H|]. split; [reflexivity|].
  apply (handleTrade_without_trade_member map_to_list freshClient _ _ H).
  reflexivity.
Defined.


Lemma SimpleTime_UnmarshalJSON_rejects_JSON_witness :
  json.parse (wire "'2021-05-01 10:00:00'") <> None
  /\ exists err,
       SimpleTime_UnmarshalJSON {| Time := time.zero |} (wire "'2021-05-01 10:00:00'")
       = ({| Time := time.zero |},
          Some (TimeParseError layout (wire "'2021-05-01 10:00:00'") err)).
Proof.
  assert (H : json.parse (wire "'2021-05-01 10:00:00'") <> None)
    by (vm_compute; discriminate).
  split; [exact H|].
  apply (SimpleTime_UnmarshalJSON_rejects_JSON {| Time := time.zero |} _ H).
Defined.

Lemma SimpleTime_UnmarshalJSON_layout_text_witness :
  layoutText 2024 2 29 23 59 7 = "2024-02-29 23:59:07"
  /\ 1 <= 29 <= time.daysIn 2 2024
  /\ SimpleTime_UnmarshalJSON {| Time := time.zero |} (layoutText 2024 2 29 23 59 7)
     = ({| Time := time.Date 2024 2 29 23 59 7 0 time.UTC |}, None).
Proof.
  assert (H : 1 <= 29 <= time.daysIn 2 2024) by (vm_compute; split; discriminate).
  split; [reflexivity|]. split; [exact H|].
  apply (SimpleTime_UnmarshalJSON_layout_text {| Time := time.zero |}
           2024 2 29 23 59 7); first [exact H | lia].
Defined.

Lemma SimpleTime_UnmarshalJSON_out_of_range_witness :
  layoutText 2023 2 29 10 0 0 = "2023-02-29 10:00:00"
  /\ ~ (1 <= 2 <= 12 /\ 1 <= 29 <= time.daysIn 2 2023 /\ 10 < 24 /\ 0 < 60 /\ 0 < 60)
  /\ exists what,
       SimpleTime_UnmarshalJSON {| Time := time.zero |} (layoutText 2023 2 29 10 0 0)
       = ({| Time := time.zero |},
          Some (TimeParseError layout (layoutText 2023 2 29 10 0 0)
                  (time.errRange what))).
Proof.
  assert (H : ~ (1 <= 2 <= 12 /\ 1 <= 29 <= time.daysIn 2 2023
                 /\ 10 < 24 /\ 0 < 60 /\ 0 < 60)).
  { intros (_ & [_ Hd] & _). vm_compute in Hd. apply Hd. reflexivity. }
  split; [reflexivity|]. split; [exact H|].
  apply (SimpleTime_UnmarshalJSON_out_of_range {| Time := time.zero |}
           2023 2 29 10 0 0); first [exact H | lia].
Defined.

Lemma messages_stops_at_read_error_witness :
  Forall (fun r : Z * string * option error => snd r = None)
    [(1, "a", None); (2, "b", None)]
  /\ messages ([(1, "a", None); (2, "b", None)]
               ++ (1, "", Some (errorString "EOF")) :: [(1, "c", None)])
     = messages [(1, "a", None); (2, "b", None)] ++ [ToErrors (errorString "EOF")].
Proof.
  assert (H : Forall (fun r : Z * string * option error => snd r = None)
                [(1, "a", None); (2, "b", None)])
    by (repeat apply Forall_cons_2; try apply Forall_nil_2; reflexivity).
  split; [exact H|].
  apply (messages_stops_at_read_error _ 1 "" (errorString "EOF")
           [(1, "c", None)] H).
Defined.

Lemma messages_passes_text_frames_witness :
  Forall (fun r : Z * string * option error => snd r = None)
    [(1, "a", None); (2, "b", None); (1, "c", None)]
  /\ passedOn (messages [(1, "a", None); (2, "b", None); (1, "c", None)])
     = map (fun r => snd (fst r))
         (filter (fun r : Z * string * option error => fst (fst r) = TextMessage)
            [(1, "a", None); (2, "b", None); (1, "c", None)]).
Proof.
  assert (H : Forall (fun r : Z * string * option error => snd r = None)
                [(1, "a", None); (2, "b", None); (1, "c", None)])
    by (repeat apply Forall_cons_2; try apply Forall_nil_2; reflexivity).
  split; [exact H|].
  apply (messages_passes_text_frames _ H).
Defined.

Lemma Close_only_once_witness :
  NewWithConnection "0a-1b" "AQI=" [] = (Some keyedClient, None)
  /\ exists g1,
       Close keyedClient = Some g1
       /\ g1 = set_done keyedClient {| cap := 1; buf := [true] |}
       /\ Close g1 = None.
Proof.
  split; [reflexivity|].
  apply (Close_only_once [] "0a-1b" "AQI=" keyedClient). reflexivity.
Defined.

Lemma NewWithConnection_odd_key_witness :
  Nat.Odd (String.length (removeDashes "0a-1"))
  /\ exists e,
       NewWithConnection "0a-1" "AQI=" ([] : list goval)
       = ((None : option (@Gox unit unit unit (list goval))), Some (HexError e)).
Proof.
  assert (H : Nat.Odd (String.length (removeDashes "0a-1")))
    by (exists 1%nat; reflexivity).
  split; [exact H|].
  apply (NewWithConnection_odd_key (TickerPayload := unit) (DepthPayload := unit)
           (Order := unit) ([] : list goval) "0a-1" "AQI=" H).
Defined.
